(** * The buyer side of a BitWrk trade: [client/buy.go]

    A shallow embedding of the buy activity of the BitWrk client and the
    properties of its lifecycle: the secret hash sent when establishing,
    the capability probe, the chunked and linear work transmission, the
    decryption of the result and the bookkeeping of the [alive] flag.

    Conventions of the embedding.
    - A Go [error] value is its message; a nil error is [None].
    - The driver goroutine of a buy is a computation in the monad [Act]:
      explicit passing of the activity record, of the handle counter of the
      content-addressed store and of the log of calls made to collaborators
      (the coordinator, the seller, the store, the ticket registry).
    - A computation ends in one of three ways: it returns, it panics (the
      deferred calls still run), or it blocks forever on a wait.
    - Whatever a collaborator outside of [buy.go] answers is read from an
      environment record with one field per call site; the functions of
      the libraries (SHA-256, AES, the store, JSON, URLs) are the fields of
      a second record.
    - The transaction is shared with the poller: the activity sees a
      refreshed transaction when a wait ends.
    - Goroutines started with [go] run besides the driver; each is a
      computation of its own, and the driver only records that it started.
      What such a goroutine writes to the activity in the meantime (the
      progress counters of the chunk data) is not in the state of the
      driver: what is said of the activity after a transmission of the
      work leaves these fields open.
    - Calls of the logger are events of the log like the other calls.
    - A key of the encrypted result is its bytes.  The code holds it
      behind a pointer to an array of 32 bytes: of the keys of the model
      only those of 32 bytes occur in the code, and the key that was not
      published (nil), on which [decryptResult] panics, is not among
      them. *)

From Stdlib Require Import ZArith List String Ascii Bool Lia Permutation.
From Stdlib Require Import RelationClasses.
From Stdlib Require Import DecimalString.
Import ListNotations.

Local Open Scope Z_scope.
Local Open Scope list_scope.

Set Implicit Arguments.

(** ** Bytes, errors and formatting *)

Definition byte := Z.
Definition error := string.

(** [bitwrk.Thash] and [cafs.SKey]: arrays of 32 bytes. *)
Definition Thash := list byte.

Definition HashSize : nat := 32.

(** [%d] of an integer. *)
Definition fmt_d (z : Z) : string := NilZero.string_of_int (Z.to_int z).

(** [%v] of a bool. *)
Definition fmt_bool (b : bool) : string :=
  if b then "true"%string else "false"%string.

(** [%v] of an error that may be nil. *)
Definition fmt_err (e : option error) : string :=
  match e with Some m => m | None => "<nil>"%string end.

Infix "+s+" := String.append (at level 60, right associativity).

(** ** Files of the content-addressed store *)

(** A [cafs.File] is an owning handle on a stored blob. *)
Record File := { file_handle : nat; file_data : list byte }.

(** What [Read] returns, call after call; the list running out is [io.EOF]. *)
Inductive read_result :=
| ReadOk (chunk : list byte)
| ReadErr (e : error).

Definition Reader := list read_result.

Record ReadCloser := { rc_reads : Reader; rc_close : option error }.

(** ** The transaction as the coordinator publishes it *)

Inductive TxState := StateActive | StateRetired.

Inductive TxPhase :=
| PhaseEstablishing | PhaseBuyerEstablished | PhaseSellerEstablished
| PhaseTransmitting | PhaseWorking | PhaseUnverified | PhaseFinished.

Record Transaction := {
  tx_State : TxState;
  tx_Phase : TxPhase;
  tx_WorkerURL : option string;
  tx_Seller : string;
  tx_ResultDecryptionKey : list byte
}.

Definition TxState_eqb (x y : TxState) : bool :=
  match x, y with
  | StateActive, StateActive | StateRetired, StateRetired => true
  | _, _ => false
  end.

Definition TxPhase_eqb (x y : TxPhase) : bool :=
  match x, y with
  | PhaseEstablishing, PhaseEstablishing
  | PhaseBuyerEstablished, PhaseBuyerEstablished
  | PhaseSellerEstablished, PhaseSellerEstablished
  | PhaseTransmitting, PhaseTransmitting
  | PhaseWorking, PhaseWorking
  | PhaseUnverified, PhaseUnverified
  | PhaseFinished, PhaseFinished => true
  | _, _ => false
  end.

(** ** The activity record *)

(** The handle on the paired sell activity of a local match. *)
Record SellActivity := { sell_key : string }.

(** The fields of [Trade] that [buy.go] reads or writes.  What the paired
    sell of [localMatch] does is observed through the wake-ups of the wait
    in [doLocalBuy]. *)
Record BuyActivity := {
  key : string;
  txId : string;
  identity : string;
  workFile : option File;
  alive : bool;
  lastError : option error;
  localMatch : option SellActivity;
  buyerSecret : option Thash;
  tx : Transaction;
  encResultFile : option File;
  encResultHashSig : string;
  encResultKey : list byte;
  resultFile : option File;
  bytesToTransfer : Z;
  bytesTransferred : Z
}.

Definition set_workFile (v : option File) (a : BuyActivity) : BuyActivity :=
  {| key := key a; txId := txId a; identity := identity a; workFile := v;
     alive := alive a; lastError := lastError a; localMatch := localMatch a;
     buyerSecret := buyerSecret a; tx := tx a;
     encResultFile := encResultFile a;
     encResultHashSig := encResultHashSig a; encResultKey := encResultKey a;
     resultFile := resultFile a; bytesToTransfer := bytesToTransfer a;
     bytesTransferred := bytesTransferred a |}.

Definition set_alive (v : bool) (a : BuyActivity) : BuyActivity :=
  {| key := key a; txId := txId a; identity := identity a;
     workFile := workFile a;
     alive := v; lastError := lastError a; localMatch := localMatch a;
     buyerSecret := buyerSecret a; tx := tx a;
     encResultFile := encResultFile a;
     encResultHashSig := encResultHashSig a; encResultKey := encResultKey a;
     resultFile := resultFile a; bytesToTransfer := bytesToTransfer a;
     bytesTransferred := bytesTransferred a |}.

Definition set_lastError (v : option error) (a : BuyActivity) : BuyActivity :=
  {| key := key a; txId := txId a; identity := identity a;
     workFile := workFile a;
     alive := alive a; lastError := v; localMatch := localMatch a;
     buyerSecret := buyerSecret a; tx := tx a;
     encResultFile := encResultFile a;
     encResultHashSig := encResultHashSig a; encResultKey := encResultKey a;
     resultFile := resultFile a; bytesToTransfer := bytesToTransfer a;
     bytesTransferred := bytesTransferred a |}.

Definition set_buyerSecret (v : option Thash) (a : BuyActivity) : BuyActivity :=
  {| key := key a; txId := txId a; identity := identity a;
     workFile := workFile a;
     alive := alive a; lastError := lastError a; localMatch := localMatch a;
     buyerSecret := v; tx := tx a;
     encResultFile := encResultFile a;
     encResultHashSig := encResultHashSig a; encResultKey := encResultKey a;
     resultFile := resultFile a; bytesToTransfer := bytesToTransfer a;
     bytesTransferred := bytesTransferred a |}.

Definition set_tx (v : Transaction) (a : BuyActivity) : BuyActivity :=
  {| key := key a; txId := txId a; identity := identity a;
     workFile := workFile a;
     alive := alive a; lastError := lastError a; localMatch := localMatch a;
     buyerSecret := buyerSecret a; tx := v;
     encResultFile := encResultFile a;
     encResultHashSig := encResultHashSig a; encResultKey := encResultKey a;
     resultFile := resultFile a; bytesToTransfer := bytesToTransfer a;
     bytesTransferred := bytesTransferred a |}.

Definition set_encResultFile (v : option File) (a : BuyActivity) : BuyActivity :=
  {| key := key a; txId := txId a; identity := identity a;
     workFile := workFile a;
     alive := alive a; lastError := lastError a; localMatch := localMatch a;
     buyerSecret := buyerSecret a; tx := tx a;
     encResultFile := v;
     encResultHashSig := encResultHashSig a; encResultKey := encResultKey a;
     resultFile := resultFile a; bytesToTransfer := bytesToTransfer a;
     bytesTransferred := bytesTransferred a |}.

Definition set_encResultHashSig (v : string) (a : BuyActivity) : BuyActivity :=
  {| key := key a; txId := txId a; identity := identity a;
     workFile := workFile a;
     alive := alive a; lastError := lastError a; localMatch := localMatch a;
     buyerSecret := buyerSecret a; tx := tx a;
     encResultFile := encResultFile a;
     encResultHashSig := v; encResultKey := encResultKey a;
     resultFile := resultFile a; bytesToTransfer := bytesToTransfer a;
     bytesTransferred := bytesTransferred a |}.

Definition set_encResultKey (v : list byte) (a : BuyActivity) : BuyActivity :=
  {| key := key a; txId := txId a; identity := identity a;
     workFile := workFile a;
     alive := alive a; lastError := lastError a; localMatch := localMatch a;
     buyerSecret := buyerSecret a; tx := tx a;
     encResultFile := encResultFile a;
     encResultHashSig := encResultHashSig a; encResultKey := v;
     resultFile := resultFile a; bytesToTransfer := bytesToTransfer a;
     bytesTransferred := bytesTransferred a |}.

Definition set_resultFile (v : option File) (a : BuyActivity) : BuyActivity :=
  {| key := key a; txId := txId a; identity := identity a;
     workFile := workFile a;
     alive := alive a; lastError := lastError a; localMatch := localMatch a;
     buyerSecret := buyerSecret a; tx := tx a;
     encResultFile := encResultFile a;
     encResultHashSig := encResultHashSig a; encResultKey := encResultKey a;
     resultFile := v; bytesToTransfer := bytesToTransfer a;
     bytesTransferred := bytesTransferred a |}.

Definition set_progress (total done : Z) (a : BuyActivity) : BuyActivity :=
  {| key := key a; txId := txId a; identity := identity a;
     workFile := workFile a;
     alive := alive a; lastError := lastError a; localMatch := localMatch a;
     buyerSecret := buyerSecret a; tx := tx a;
     encResultFile := encResultFile a;
     encResultHashSig := encResultHashSig a; encResultKey := encResultKey a;
     resultFile := resultFile a; bytesToTransfer := total;
     bytesTransferred := done |}.

(** ** The paired sell of a local match *)

(** What a waiting buy sees of the paired sell each time it looks. *)
Record SellState := { sell_alive : bool; sell_resultFile : option File }.

Inductive wake :=
| Interrupt
| Changed (st : SellState).

(** ** Sync info of the chunked transmission ([remotesync.SyncInfo]) *)

Record ChunkInfo := { ci_Key : Thash; ci_Size : Z }.

Record SyncInfo := { si_Chunks : list ChunkInfo; si_Perm : list Z }.

Definition SyncInfo_zero : SyncInfo := {| si_Chunks := []; si_Perm := [] |}.

(** ** HTTP *)

Record Response := {
  StatusCode : Z;
  Status : string;
  Body : ReadCloser;
  AssistHeader : string
}.

Definition StatusOK : Z := 200.

(** The requests the buyer posts to the worker URL, by what their body
    carries. *)
Inductive PostKind :=
| PostWork
| PostSyncInfo
| PostChunkData
| PostTicket (ticket : string).

(** ** The log of calls *)

Inductive Goroutine :=
| GoPollTransaction
| GoFinishBuy
| GoWatchdog
| GoWorkProducer
| GoSyncInfoProducer (si : SyncInfo) (legacy compressed : bool)
| GoChunkProducer (si : SyncInfo) (compressed : bool) (wishList : Reader)
| GoPostTicket (ticket : string).

Inductive Event :=
| EvLog (msg : string)
| EvGo (g : Goroutine)
(* the trade and its scheduler *)
| EvAwaitClearance
| EvBeginRemoteTrade
| EvReturnTransmissionToken
| EvAbortPolling
| EvWaitForPhase (target : TxPhase) (transient : list TxPhase)
(* the coordinator *)
| EvSendEstablishBuyer (txid ident : string) (workHash workSecretHash : Thash)
| EvSendAcceptResult (txid ident : string)
(* the content-addressed store *)
| EvDuplicate (src dup : File)
| EvOpen (f : File)
| EvCloseFileReader (f : File)
| EvCreateTemp (id : nat) (info : string)
| EvCloseTemp (id : nat)
| EvTempFile (id : nat) (f : File)
| EvDisposeTemp (id : nat)
(* the scoped transport and its watchdog *)
| EvNewScopedTransport
| EvRegisterTransport
| EvCloseTransport
| EvExitWatchdog
(* the seller *)
| EvOptions (url : string)
| EvPost (kind : PostKind) (url contentType : string) (gzip : bool)
| EvPostForm (url encresulthash encresulthashsig : string)
| EvCloseBody
| EvSignMessage (msg : string)
(* pipes and multipart writers of the request producers *)
| EvPipeReaderClose
| EvCreateFormFile (field filename : string)
| EvWriteField (field value : string)
| EvCopyWork
| EvWriteSyncInfo (legacyStream : bool)
| EvWriteChunkData (size : Z) (perm : list Z)
| EvChunksDispose
| EvMultipartClose
| EvCompressorClose
| EvPipeClose
| EvPipeCloseWithError (e : error)
(* the assistive ticket registry *)
| EvInitNode (sellerId handprint : string)
| EvExitNode (sellerId : string)
| EvNewTicket (ticket sellerId : string)
| EvSetNodeInterested (sellerId : string) (interested : bool).

(** ** The monad of the driver *)

Record State := {
  act : BuyActivity;
  next_handle : nat;
  trace : list Event
}.

Inductive outcome (A : Type) : Type :=
| Returned (a : A)
| Panicked (msg : string)
| Blocked.

Arguments Panicked {A} msg.
Arguments Blocked {A}.

Definition Act (A : Type) : Type := State -> outcome A * State.

Definition ret {A} (a : A) : Act A := fun s => (Returned a, s).

Definition bind {A B} (m : Act A) (k : A -> Act B) : Act B :=
  fun s =>
    match m s with
    | (Returned a, s') => k a s'
    | (Panicked msg, s') => (Panicked msg, s')
    | (Blocked, s') => (Blocked, s')
    end.

Definition panic {A} (msg : string) : Act A := fun s => (Panicked msg, s).

Definition block {A} : Act A := fun s => (Blocked, s).

Declare Scope act_scope.
Delimit Scope act_scope with act.
Bind Scope act_scope with Act.

Notation "x <- c1 ;; c2" := (bind c1 (fun x => c2))
  (at level 61, c1 at next level, right associativity) : act_scope.
Notation "' pat <- c1 ;; c2" := (bind c1 (fun x => match x with pat => c2 end))
  (at level 61, pat pattern, c1 at next level, right associativity) : act_scope.
Notation "c1 ;; c2" := (bind c1 (fun _ => c2))
  (at level 61, right associativity) : act_scope.

Local Open Scope act_scope.

Definition emit (e : Event) : Act unit :=
  fun s => (Returned tt,
            {| act := act s; next_handle := next_handle s;
               trace := trace s ++ [e] |}).

Definition get_act : Act BuyActivity := fun s => (Returned (act s), s).

(** Modelled from the spec: [Trade.execSync], whose code is not part of
    [buy.go].  Every read or write of the fields of the activity crosses
    one critical section: [f] runs under the lock of the activity. *)
Definition execSync (f : BuyActivity -> BuyActivity) : Act unit :=
  fun s => (Returned tt,
            {| act := f (act s); next_handle := next_handle s;
               trace := trace s |}).

Definition fresh_handle : Act nat :=
  fun s => (Returned (next_handle s),
            {| act := act s; next_handle := S (next_handle s);
               trace := trace s |}).

(** [defer d] followed by [body]: [d] runs when [body] returns or panics;
    a body that blocks never gets there. *)
Definition defer_ {A} (d : Act unit) (body : Act A) : Act A :=
  fun s =>
    match body s with
    | (Blocked, s') => (Blocked, s')
    | (o, s') =>
        match d s' with
        | (Returned _, s'') => (o, s'')
        | (Panicked msg, s'') => (Panicked msg, s'')
        | (Blocked, s'') => (Blocked, s'')
        end
    end.

(** The value of the panic that the Go runtime raises when a nil pointer
    is dereferenced, as it prints. *)
Definition nil_dereference : string :=
  "runtime error: invalid memory address or nil pointer dereference".

(** Dereferencing a pointer: nil panics. *)
Definition deref {A} (p : option A) : Act A :=
  match p with
  | Some x => ret x
  | None => panic nil_dereference
  end.

Definition log (msg : string) : Act unit := emit (EvLog msg).

Definition is_nil {A} (p : option A) : bool :=
  match p with Some _ => false | None => true end.

(** A run from a fresh log. *)
Definition initial (a : BuyActivity) (h : nat) : State :=
  {| act := a; next_handle := h; trace := [] |}.

(** ** Readers, writers and [io.Copy] *)

(** How a file of the store hands out its bytes: call after call, a number
    of bytes, or a failure. *)
Inductive read_step :=
| Take (n : nat)
| Fail (e : error).

(** The reads of a file with content [d] under a plan; whatever the plan
    leaves over comes in one last read. *)
Fixpoint file_reads (plan : list read_step) (d : list byte) : Reader :=
  match plan with
  | [] => match d with [] => [] | _ :: _ => [ReadOk d] end
  | Take n :: plan' => ReadOk (firstn n d) :: file_reads plan' (skipn n d)
  | Fail e :: _ => [ReadErr e]
  end.

(** [io.Copy(dst, src)]: the bytes that reached [dst] and the error, if any.
    [wr i] is what the [i]-th [Write] on [dst] answers. *)
Fixpoint io_Copy (wr : nat -> option error) (src : Reader) (i : nat)
    (written : list byte) : list byte * option error :=
  match src with
  | [] => (written, None)
  | ReadOk [] :: src' => io_Copy wr src' i written
  | ReadOk chunk :: src' =>
      match wr i with
      | Some ew => (written, Some ew)
      | None => io_Copy wr src' (S i) (written ++ chunk)
      end
  | ReadErr er :: _ => (written, Some er)
  end.

Definition no_write_error : nat -> option error := fun _ => None.

(** [io.ReadFull(r, buf)] with [len(buf) = n], keeping only the bytes read. *)
Definition io_ReadFull_bytes (n : nat) (r : Reader) : list byte :=
  firstn n (fst (io_Copy no_write_error r 0 [])).

(** ** AES in output feedback mode ([crypto/aes], [crypto/cipher]) *)

Definition BlockSize : nat := 16.

(** The state of an OFB stream: the feedback register, and how many bytes
    of it have already been used as key stream. *)
Record ofb := { ofb_cipher : list byte; ofb_outUsed : nat }.

(** [cipher.NewOFB(block, iv)]: the first key stream block is the
    encryption of the IV. *)
Definition NewOFB (iv : list byte) : ofb :=
  {| ofb_cipher := iv; ofb_outUsed := BlockSize |}.

Definition ofb_refill (encrypt : list byte -> list byte) (x : ofb) : ofb :=
  if (BlockSize <=? ofb_outUsed x)%nat
  then {| ofb_cipher := encrypt (ofb_cipher x); ofb_outUsed := 0 |}
  else x.

Definition ofb_next (encrypt : list byte -> list byte) (x : ofb) : byte * ofb :=
  let x' := ofb_refill encrypt x in
  (nth (ofb_outUsed x') (ofb_cipher x') 0,
   {| ofb_cipher := ofb_cipher x'; ofb_outUsed := S (ofb_outUsed x') |}).

Arguments ofb_next : simpl never.

(** [x.XORKeyStream(dst, src)]: [dst] and the stream afterwards. *)
Fixpoint XORKeyStream (encrypt : list byte -> list byte) (x : ofb)
    (src : list byte) : list byte * ofb :=
  match src with
  | [] => ([], x)
  | b :: src' =>
      let (k, x1) := ofb_next encrypt x in
      let (dst, x2) := XORKeyStream encrypt x1 src' in
      (Z.lxor b k :: dst, x2)
  end.

(** [cipher.StreamReader{S: x, R: r}]: every chunk read from [r] goes
    through the stream. *)
Fixpoint StreamReader (encrypt : list byte -> list byte) (x : ofb)
    (r : Reader) : Reader :=
  match r with
  | [] => []
  | ReadOk chunk :: r' =>
      let (dst, x') := XORKeyStream encrypt x chunk in
      ReadOk dst :: StreamReader encrypt x' r'
  | ReadErr e :: r' => ReadErr e :: StreamReader encrypt x r'
  end.

(** The all-zero initialization vector, [var iv [aes.BlockSize]byte]. *)
Definition zero_iv : list byte := repeat 0 BlockSize.

(** ** SHA-256 as a [hash.Hash] *)

(** The hash object holds what was written to it. *)
Definition sha256_New : list byte := [].
Definition hash_Write (h p : list byte) : list byte := h ++ p.
Definition hash_Sum (digest : list byte -> Thash) (h b : list byte) : list byte :=
  b ++ digest h.

(** ** The world outside of [buy.go] *)

Record Caps := {
  Adler32Chunking : bool;
  GZIPCompression : bool;
  SyncInfoCap : bool
}.

(** Functions of the libraries the buyer calls. *)
Record Lib := {
  SHA256 : list byte -> Thash;
  aes_Encrypt : list byte -> list byte -> list byte;
  cafs_Key : list byte -> Thash;
  cafs_IsChunked : list byte -> bool;
  cafs_NumChunks : list byte -> Z;
  cafs_Size : list byte -> Z;
  cafs_Chunks : list byte -> list ChunkInfo;
  TrivialPermutation : list Z;
  HandprintFromSyncInfo : SyncInfo -> string;
  MaxNumberOfChunksInWorkFile : Z;
  Thash_String : Thash -> string;
  fmt_q : list byte -> string;
  NewRequest_error : string -> string -> option error;
  url_Parse_Host : string -> error + string;
  json_Decode_caps : Reader -> error + Caps;
  json_Unmarshal_tickets : string -> list string * option error;
  ErrInterrupted : error
}.

(** The fallible steps of the goroutines that produce request bodies. *)
Inductive ProducerStep :=
| StepCreateFormFile
| StepCopyWork
| StepWriteSyncInfo
| StepWriteChunkData
| StepWriteBuyerSecret
| StepMultipartClose
| StepCompressorClose
| StepPipeClose
| StepTicketField
| StepTicketClose.

(** The two temporaries of a remote buy. *)
Inductive TempKind := TempEncryptedResult | TempResult.

(** What the collaborators answer during one buy. *)
Record Env := {
  (* the trade *)
  env_awaitClearance : option error;
  env_sell_wakes : list wake;
  env_beginRemoteTrade : option error;
  env_rand : nat -> byte;
  env_rand_error : option error;
  env_SendEstablishBuyer : option error;
  env_waitTransmitting : Transaction * option error;
  env_waitUnverified : Transaction * option error;
  env_SendAcceptResult : option error;
  env_finish_polls : list Transaction;
  (* the seller *)
  env_options : error + Response;
  env_boundary : PostKind -> string;
  env_post : PostKind -> error + Response;
  env_SignMessage : error + string;
  env_PostForm : error + Response;
  env_pseudorand_Perm : nat -> list Z;
  (* the store *)
  env_encrypted_plan : list read_step;
  env_temp_write : TempKind -> nat -> option error;
  env_temp_close : TempKind -> option error;
  (* the request producers *)
  env_producer : ProducerStep -> option error;
  env_progress : list (Z * Z)
}.

Section Buy.

Variable lib : Lib.
Variable env : Env.

(** ** Calls into the store, the trade and the coordinator *)

Definition file_Duplicate (f : File) : Act File :=
  h <- fresh_handle ;;
  let d := {| file_handle := h; file_data := file_data f |} in
  emit (EvDuplicate f d) ;;
  ret d.

Definition file_Key (f : File) : Thash := cafs_Key lib (file_data f).

Definition file_Open (plan : list read_step) (f : File) : Act Reader :=
  emit (EvOpen f) ;;
  ret (file_reads plan (file_data f)).

Definition storage_Create (info : string) : Act nat :=
  h <- fresh_handle ;;
  emit (EvCreateTemp h info) ;;
  ret h.

Definition temp_Close (kind : TempKind) (id : nat) : Act (option error) :=
  emit (EvCloseTemp id) ;;
  ret (env_temp_close env kind).

Definition temp_File (id : nat) (data : list byte) : Act File :=
  h <- fresh_handle ;;
  let f := {| file_handle := h; file_data := data |} in
  emit (EvTempFile id f) ;;
  ret f.

Definition temp_Dispose (id : nat) : Act unit := emit (EvDisposeTemp id).

Definition body_Close (b : ReadCloser) : Act (option error) :=
  emit EvCloseBody ;;
  ret (rc_close b).

(** The methods of [Trade] that [buy.go] calls and whose code is not part
    of it: the call is logged and the answer is the one of the
    environment. *)
Definition awaitClearance : Act (option error) :=
  emit EvAwaitClearance ;;
  ret (env_awaitClearance env).

Definition beginRemoteTrade : Act (option error) :=
  emit EvBeginRemoteTrade ;;
  ret (env_beginRemoteTrade env).

Definition returnTransmissionToken : Act unit :=
  emit EvReturnTransmissionToken.

(** Modelled from the spec: [Trade.waitForTransactionPhase], whose code is
    not part of [buy.go].  It blocks until the transaction is in the target
    phase and fails when the transaction enters another phase than the
    target and the transient ones, or is retired.  The poller refreshes the
    transaction while the wait lasts; the environment gives the transaction
    as it is when the wait ends, and the error, if any. *)
Definition waitForTransactionPhase (target : TxPhase)
    (transient : list TxPhase) (answer : Transaction * option error)
    : Act (option error) :=
  emit (EvWaitForPhase target transient) ;;
  execSync (set_tx (fst answer)) ;;
  ret (snd answer).

Definition SendTxMessageEstablishBuyer (txid ident : string)
    (workHash workSecretHash : Thash) : Act (option error) :=
  emit (EvSendEstablishBuyer txid ident workHash workSecretHash) ;;
  ret (env_SendEstablishBuyer env).

Definition SendTxMessageAcceptResult (txid ident : string)
    : Act (option error) :=
  emit (EvSendAcceptResult txid ident) ;;
  ret (env_SendAcceptResult env).

(** Modelled from the spec: [Trade.waitWhile], whose code is not part of
    [buy.go].  It blocks until the predicate is false; the predicate is
    evaluated again after every change of the state, here the refreshes of
    the transaction by the poller.  When no further change comes while the
    predicate still holds, the wait never ends. *)
Fixpoint waitWhile (polls : list Transaction) (pred : BuyActivity -> bool)
    {struct polls} : Act unit :=
  a <- get_act ;;
  if pred a then
    match polls with
    | [] => block
    | t :: polls' => execSync (set_tx t) ;; waitWhile polls' pred
    end
  else ret tt.

(** Modelled from the spec: [Trade.interruptibleWaitWhile], whose code is
    not part of [buy.go].  As [waitWhile], on the paired sell, and it
    returns early with the interruption error when a value is read from the
    interrupt channel.  [l] is the variable the predicate captures. *)
Fixpoint interruptibleWaitWhile {L : Type} (wakes : list wake)
    (pred : SellState -> L -> Act (bool * L)) (l : L)
    : Act (option error * L) :=
  match wakes with
  | [] => block
  | Interrupt :: _ => ret (Some (ErrInterrupted lib), l)
  | Changed st :: wakes' =>
      r <- pred st l ;;
      if fst r then interruptibleWaitWhile wakes' pred (snd r)
      else ret (None, snd r)
  end.

(** ** [decryptResult] *)

(** [aes.NewCipher(key)]: the block cipher under [key], for a key of 16, 24
    or 32 bytes. *)
Definition aes_NewCipher (k : list byte)
    : error + (list byte -> list byte) :=
  let n := List.length k in
  if ((n =? 16) || (n =? 24) || (n =? 32))%nat
  then inr (aes_Encrypt lib k)
  else inl ("crypto/aes: invalid key size " +s+ fmt_d (Z.of_nat n)).

Definition decryptResult : Act (option error) :=
  a <- get_act ;;
  match aes_NewCipher (encResultKey a) with
  | inl err => ret (Some err)
  | inr block_ =>
      temp <- storage_Create ("Buy #" +s+ key a +s+ ": result") ;;
      defer_ (temp_Dispose temp) (
        a <- get_act ;;
        encFile <- deref (encResultFile a) ;;
        encrypted <- file_Open (env_encrypted_plan env) encFile ;;
        defer_ (emit (EvCloseFileReader encFile)) (
          (* OFB stream with null initialization vector *)
          let stream := NewOFB zero_iv in
          let reader := StreamReader block_ stream encrypted in
          let copied := io_Copy (env_temp_write env TempResult) reader 0 [] in
          match snd copied with
          | Some err => ret (Some err)
          | None =>
              cerr <- temp_Close TempResult temp ;;
              match cerr with
              | Some err => ret (Some err)
              | None =>
                  f <- temp_File temp (fst copied) ;;
                  execSync (set_resultFile (Some f)) ;;
                  ret None
              end
          end))
  end.

(** ** Talking to the seller *)

(** [mwriter.FormDataContentType()]; the boundary is drawn at random when
    the multipart writer is made. *)
Definition FormDataContentType (kind : PostKind) : string :=
  "multipart/form-data; boundary=" +s+ env_boundary env kind.

Definition mustGetSellerId : Act string :=
  a <- get_act ;;
  match tx_WorkerURL (tx a) with
  | None => panic "no WorkerURL"
  | Some ru =>
      match url_Parse_Host lib ru with
      | inl err => panic err
      | inr host =>
          a <- get_act ;;
          ret (tx_Seller (tx a) +s+ "_" +s+ host)
      end
  end.

(** Post data to the seller's WorkerURL. *)
Definition postToSeller (kind : PostKind) (contentType : string)
    (compressed : bool) : Act (option Response * option error) :=
  a <- get_act ;;
  url <- deref (tx_WorkerURL (tx a)) ;;
  match NewRequest_error lib "POST" url with
  | Some err => ret (None, Some ("Error creating transmit request: " +s+ err))
  | None =>
      emit (EvPost kind url contentType compressed) ;;
      match env_post env kind with
      | inl err => ret (None, Some err)
      | inr resp =>
          if negb (StatusCode resp =? StatusOK) then
            let buf := io_ReadFull_bytes 1024 (rc_reads (Body resp)) in
            body_Close (Body resp) ;;
            ret (None,
                 Some ("Seller returned bad status '" +s+ Status resp +s+
                       "' [response: " +s+ fmt_q lib buf +s+ "]"))
          else ret (Some resp, None)
      end
  end.

(** Performs an OPTIONS request to the seller's WorkerURL and finds out the
    seller's capabilities. *)
Definition testSellerForCapabilities
    : Act (bool * bool * bool * option error) :=
  a <- get_act ;;
  url <- deref (tx_WorkerURL (tx a)) ;;
  match NewRequest_error lib "OPTIONS" url with
  | Some err => ret (false, false, false, Some err)
  | None =>
      emit (EvOptions url) ;;
      match env_options env with
      | inl err => ret (false, false, false, Some err)
      | inr resp =>
          defer_ (body_Close (Body resp) ;; ret tt) (
            if negb (StatusCode resp =? StatusOK) then
              ret (false, false, false, None)
            else
              match json_Decode_caps lib (rc_reads (Body resp)) with
              | inl err => ret (false, false, false, Some err)
              | inr caps =>
                  ret (Adler32Chunking caps, GZIPCompression caps,
                       SyncInfoCap caps, None)
              end)
      end
  end.

(** Signs a receipt for the encrypted result. *)
Definition signReceipt : Act (option error) :=
  a <- get_act ;;
  f <- deref (encResultFile a) ;;
  let encresulthash := Thash_String lib (file_Key f) in
  emit (EvSignMessage encresulthash) ;;
  match env_SignMessage env with
  | inl err => ret (Some err)
  | inr sig =>
      execSync (set_encResultHashSig sig) ;;
      a <- get_act ;;
      url <- deref (tx_WorkerURL (tx a)) ;;
      emit (EvPostForm url encresulthash (encResultHashSig a)) ;;
      match env_PostForm env with
      | inl err => ret (Some err)
      | inr resp =>
          if negb (StatusCode resp =? StatusOK) then
            ret (Some ("Error sending receipt for encrypted result: " +s+
                       Status resp))
          else ret None
      end
  end.

Definition transmitWorkLinear : Act (option ReadCloser * option error) :=
  emit (EvGo GoWorkProducer) ;;
  r <- postToSeller PostWork (FormDataContentType PostWork) false ;;
  match snd r with
  | Some err => ret (None, Some err)
  | None => resp <- deref (fst r) ;; ret (Some (Body resp), None)
  end.

Fixpoint newTickets (sellerId : string) (i : Z) (tickets : list string)
    : Act unit :=
  match tickets with
  | [] => ret tt
  | ticket :: rest =>
      log ("Received assistive download ticket #" +s+ fmt_d i +s+ ": " +s+
           ticket) ;;
      emit (EvNewTicket ticket sellerId) ;;
      newTickets sellerId (i + 1) rest
  end.

Definition receiveAssistiveDownloadTickets (response : Response) : Act unit :=
  let js := AssistHeader response in
  if (js =? "")%string then log "No assistive download tickets received"
  else
    let parsed := json_Unmarshal_tickets lib js in
    match snd parsed with
    | Some err =>
        log ("Error decoding assistive download tickets info: " +s+ err) ;;
        log ("  content was: " +s+ js)
    | None => ret tt
    end ;;
    sellerId <- mustGetSellerId ;;
    newTickets sellerId 0 (fst parsed).

Definition requestMissingChunks (syncinfo : SyncInfo)
    (legacy compressed : bool) : Act (option ReadCloser * option error) :=
  defer_ (emit EvPipeReaderClose) (
    emit (EvGo (GoSyncInfoProducer syncinfo legacy compressed)) ;;
    r <- postToSeller PostSyncInfo (FormDataContentType PostSyncInfo)
           compressed ;;
    match snd r with
    | Some err =>
        ret (None, Some ("Error sending work sync data to seller: " +s+ err))
    | None =>
        resp <- deref (fst r) ;;
        receiveAssistiveDownloadTickets resp ;;
        ret (Some (Body resp), None)
    end).

Definition sendMissingChunksAndReturnResult (wishList : Reader)
    (compressed : bool) (syncinfo : SyncInfo)
    : Act (option ReadCloser * option error) :=
  defer_ (emit EvPipeReaderClose) (
    emit (EvGo (GoChunkProducer syncinfo compressed wishList)) ;;
    r <- postToSeller PostChunkData (FormDataContentType PostChunkData)
           compressed ;;
    match snd r with
    | Some err =>
        ret (None, Some ("Error sending work chunk data to seller: " +s+ err))
    | None => resp <- deref (fst r) ;; ret (Some (Body resp), None)
    end).

(** The setters of [remotesync.SyncInfo]. *)
Definition SetChunksFromFile (f : File) (s : SyncInfo) : SyncInfo :=
  {| si_Chunks := cafs_Chunks lib (file_data f); si_Perm := si_Perm s |}.

Definition SetTrivialPermutation (s : SyncInfo) : SyncInfo :=
  {| si_Chunks := si_Chunks s; si_Perm := TrivialPermutation lib |}.

Definition SetPermutation (perm : list Z) (s : SyncInfo) : SyncInfo :=
  {| si_Chunks := si_Chunks s; si_Perm := perm |}.

Definition work_too_big (numChunks : Z) : error :=
  "Work file too big: " +s+ fmt_d numChunks +s+ " chunks (only " +s+
  fmt_d (MaxNumberOfChunksInWorkFile lib) +s+ " allowed).".

(** What [transmitWorkChunked] does once the sync info is complete. *)
Definition transmitSyncInfo (syncinfo : SyncInfo) (compressed legacy : bool)
    : Act (option ReadCloser * option error) :=
  r <- requestMissingChunks syncinfo legacy compressed ;;
  match snd r with
  | Some err =>
      ret (None, Some ("Transmitting work (chunked) failed: " +s+ err))
  | None =>
      r <- deref (fst r) ;;
      defer_ (body_Close r ;; ret tt)
        (sendMissingChunksAndReturnResult (rc_reads r) compressed syncinfo)
  end.

(** [transmitWorkChunked] past the bound on the number of chunks. *)
Definition transmitChunks (wf : File) (compressed legacy : bool)
    : Act (option ReadCloser * option error) :=
  (* A SyncInfo structure is created regardless of whether the seller
     actually supports it or not. *)
  let syncinfo := SetChunksFromFile wf SyncInfo_zero in
  if legacy then
    (* In legacy mode, it is set to the trivial permutation. *)
    let syncinfo := SetTrivialPermutation syncinfo in
    transmitSyncInfo syncinfo compressed legacy
  else
    let syncinfo := SetPermutation (env_pseudorand_Perm env 256) syncinfo in
    (* In this mode, the seller supports assistive download tickets. *)
    sellerId <- mustGetSellerId ;;
    emit (EvInitNode sellerId (HandprintFromSyncInfo lib syncinfo)) ;;
    defer_ (emit (EvExitNode sellerId))
      (transmitSyncInfo syncinfo compressed legacy).

Definition transmitWorkChunked (compressed legacy : bool)
    : Act (option ReadCloser * option error) :=
  a <- get_act ;;
  wf <- deref (workFile a) ;;
  let numChunks := cafs_NumChunks lib (file_data wf) in
  if MaxNumberOfChunksInWorkFile lib <? numChunks then
    ret (None, Some (work_too_big numChunks))
  else transmitChunks wf compressed legacy.

(** The predicate of the watchdog started by [interactWithSeller]. *)
Definition watchdog_alive (a : BuyActivity) : bool :=
  TxState_eqb (tx_State (tx a)) StateActive &&
  (TxPhase_eqb (tx_Phase (tx a)) PhaseSellerEstablished ||
   TxPhase_eqb (tx_Phase (tx a)) PhaseTransmitting ||
   TxPhase_eqb (tx_Phase (tx a)) PhaseWorking).

(** The probe of [interactWithSeller]: [chunked], [compressed], [legacy]. *)
Definition probeSeller : Act (bool * bool * bool) :=
  a <- get_act ;;
  wf <- deref (workFile a) ;;
  if cafs_IsChunked lib (file_data wf) then
    r <- testSellerForCapabilities ;;
    let '(chunkedSupported, compressedSupported, syncInfoSupported, err) := r in
    match err with
    | Some e =>
        log ("Failed to probe seller for capabilities: " +s+ e) ;;
        ret (false, false, true)
    | None =>
        let chunked := chunkedSupported in
        let compressed := compressedSupported in
        let legacy := negb syncInfoSupported in
        log ("Chunked/compressed/legacy work transmission supported by seller: "
             +s+ fmt_bool chunked +s+ "/" +s+ fmt_bool compressed +s+ "/" +s+
             fmt_bool legacy) ;;
        ret (chunked, compressed, legacy)
    end
  else ret (false, false, true).

(** What [interactWithSeller] does with the answer of the transmission. *)
Definition receiveEncryptedResult (response : option ReadCloser)
    (transmissionError : option error) : Act (option error) :=
  log ("Received result from seller (error: " +s+ fmt_err transmissionError
       +s+ ")") ;;
  defer_ (match response with
          | Some r => body_Close r ;; ret tt
          | None => ret tt
          end) (
    match transmissionError with
    | Some err => ret (Some err)
    | None =>
        a <- get_act ;;
        temp <- storage_Create ("Buy #" +s+ key a +s+ ": encrypted result") ;;
        defer_ (temp_Dispose temp) (
          response <- deref response ;;
          let copied :=
            io_Copy (env_temp_write env TempEncryptedResult)
                    (rc_reads response) 0 [] in
          match snd copied with
          | Some err => ret (Some err)
          | None =>
              rerr <- body_Close response ;;
              match rerr with
              | Some err => ret (Some err)
              | None =>
                  cerr <- temp_Close TempEncryptedResult temp ;;
                  match cerr with
                  | Some err => ret (Some err)
                  | None =>
                      f <- temp_File temp (fst copied) ;;
                      execSync (set_encResultFile (Some f)) ;;
                      serr <- signReceipt ;;
                      match serr with
                      | Some err =>
                          ret (Some ("Error signing receipt for encrypted result: "
                                     +s+ err))
                      | None => ret None
                      end
                  end
              end
          end)
    end).

(** Performs a complete buyer to seller contact. *)
Definition interactWithSeller : Act (option error) :=
  emit (EvGo GoWatchdog) ;;
  defer_ (emit EvExitWatchdog) (
    emit EvNewScopedTransport ;;
    emit EvRegisterTransport ;;
    defer_ (emit EvCloseTransport) (
      caps <- probeSeller ;;
      let '(chunked, compressed, legacy) := caps in
      t <- (if chunked then transmitWorkChunked compressed legacy
            else transmitWorkLinear) ;;
      receiveEncryptedResult (fst t) (snd t))).

(** ** The remote and the local buy *)

(** [io.ReadFull(rand.Reader, secret[:])]. *)
Definition draw_secret : error + Thash :=
  match env_rand_error env with
  | Some err => inl err
  | None => inr (map (env_rand env) (seq 0 HashSize))
  end.

Definition finishBuy : Act (option error) :=
  defer_ (emit EvAbortPolling) (
    emit (EvGo GoPollTransaction) ;;
    a <- get_act ;;
    serr <- SendTxMessageAcceptResult (txId a) (identity a) ;;
    match serr with
    | Some err =>
        ret (Some ("Failed to send 'accept result' message: " +s+ err))
    | None =>
        waitWhile (env_finish_polls env)
          (fun a => TxState_eqb (tx_State (tx a)) StateActive) ;;
        execSync (set_alive false) ;;
        ret None
    end).

(** The goroutine started at the end of a successful remote buy. *)
Definition finishBuy_goroutine : Act unit :=
  ferr <- finishBuy ;;
  match ferr with
  | Some err => log ("Error finishing buy: " +s+ err)
  | None => ret tt
  end.

(** The end of [doRemoteBuy], once the work is transmitted and the
    UNVERIFIED phase is reached. *)
Definition decryptAndReturn : Act (option File * option error) :=
  execSync (fun a => set_encResultKey (tx_ResultDecryptionKey (tx a)) a) ;;
  derr <- decryptResult ;;
  match derr with
  | Some err => ret (None, Some ("Error decrypting result: " +s+ err))
  | None =>
      (* the rest is homework for a goroutine *)
      emit (EvGo GoFinishBuy) ;;
      a <- get_act ;;
      ret (resultFile a, None)
  end.

(** [doRemoteBuy] from the TRANSMITTING phase on: the contact with the
    seller, the wait for the UNVERIFIED phase, the decryption. *)
Definition transmitAndDecrypt : Act (option File * option error) :=
  ierr <- interactWithSeller ;;
  let sellerErr :=
    match ierr with
    | Some err =>
        Some ("Error transmitting work and receiving encrypted result: "
              +s+ err)
    | None => None
    end in
  perr <- waitForTransactionPhase PhaseUnverified
            [PhaseTransmitting; PhaseWorking] (env_waitUnverified env) ;;
  let phaseErr :=
    match perr with
    | Some err => Some ("Error awaiting UNVERIFIED phase: " +s+ err)
    | None => None
    end in
  if is_nil sellerErr && is_nil phaseErr then
    (* Everything went fine, continue *)
    decryptAndReturn
  else if is_nil sellerErr then ret (None, phaseErr)
  else if is_nil phaseErr then ret (None, sellerErr)
  else
    ret (None,
         Some (fmt_err phaseErr +s+ ". Additionally: " +s+
               fmt_err sellerErr)).

(** [doRemoteBuy] from the establish message on. *)
Definition establishAndTransmit (workHash workSecretHash : Thash)
    : Act (option File * option error) :=
  a <- get_act ;;
  eerr <- SendTxMessageEstablishBuyer (txId a) (identity a) workHash
            workSecretHash ;;
  match eerr with
  | Some err => ret (None, Some ("Error establishing buyer: " +s+ err))
  | None =>
      werr <- waitForTransactionPhase PhaseTransmitting
                [PhaseEstablishing; PhaseSellerEstablished;
                 PhaseBuyerEstablished]
                (env_waitTransmitting env) ;;
      match werr with
      | Some err =>
          ret (None, Some ("Error awaiting TRANSMITTING phase: " +s+ err))
      | None => transmitAndDecrypt
      end
  end.

(** Performs a remote buy once it has been cleared. *)
Definition doRemoteBuy : Act (option File * option error) :=
  defer_ returnTransmissionToken (
    berr <- beginRemoteTrade ;;
    match berr with
    | Some err => ret (None, Some err)
    | None =>
        (* draw random bytes for buyer's secret *)
        match draw_secret with
        | inl err => ret (None, Some err)
        | inr secret =>
            execSync (set_buyerSecret (Some secret)) ;;
            log "Computed buyer's secret." ;;
            (* Get work hash *)
            a <- get_act ;;
            wf <- deref (workFile a) ;;
            let workHash := file_Key wf in
            (* compute workSecretHash = hash(workHash | secret) *)
            let hash := sha256_New in
            let hash := hash_Write hash workHash in
            let hash := hash_Write hash secret in
            let workSecretHash := hash_Sum (SHA256 lib) hash [] in
            (* Start polling for transaction state changes in background *)
            defer_ (emit EvAbortPolling) (
              emit (EvGo GoPollTransaction) ;;
              establishAndTransmit workHash workSecretHash)
        end
    end).

(** Performs a local buy. *)
Definition doLocalBuy (sell : SellActivity)
    : Act (option File * option error) :=
  (* Wait for sell to either die or produce a result *)
  w <- interruptibleWaitWhile (env_sell_wakes env)
         (fun st (resultFile : option File) =>
            if sell_alive st && is_nil (sell_resultFile st) then
              ret (true, resultFile)
            else
              match sell_resultFile st with
              | Some rf => d <- file_Duplicate rf ;; ret (false, Some d)
              | None => ret (false, resultFile)
              end)
         None ;;
  match fst w with
  | Some err =>
      ret (None, Some ("Error waiting for local sell to complete: " +s+ err))
  | None =>
      match snd w with
      | None =>
          ret (None,
               Some ("Sell didn't produce a result: #" +s+ sell_key sell))
      | Some resultFile =>
          (* Save result file *)
          execSync (set_resultFile (Some resultFile)) ;;
          ret (Some resultFile, None)
      end
  end.

(** Waits for clearance and then performs either a local or a remote buy. *)
Definition doPerformBuy : Act (option File * option error) :=
  cerr <- awaitClearance ;;
  match cerr with
  | Some err => ret (None, Some err)
  | None =>
      a <- get_act ;;
      match localMatch a with
      | Some sell => doLocalBuy sell
      | None => doRemoteBuy
      end
  end.

(** Manages the complete lifecycle of a buy. *)
Definition PerformBuy (workFile : File) : Act (option File * option error) :=
  log "Buy started" ;;
  dup <- file_Duplicate workFile ;;
  execSync (set_workFile (Some dup)) ;;
  defer_ (execSync (set_alive false) ;; log "Buy finished") (
    r <- doPerformBuy ;;
    match snd r with
    | Some err => execSync (set_lastError (Some err))
    | None => ret tt
    end ;;
    ret r).

(** ** The goroutines that produce request bodies

    Each writes a multipart body into a pipe that the HTTP client reads
    from.  [env_producer] tells which of their writes fail. *)

(** A fallible write of a producer. *)
Definition step (e : Event) (s : ProducerStep) : Act (option error) :=
  emit e ;;
  ret (env_producer env s).

(** The producer of [transmitWorkLinear]. *)
Definition workProducer : Act unit :=
  perr <- step (EvCreateFormFile "work" "workfile.bin") StepCreateFormFile ;;
  match perr with
  | Some err => emit (EvPipeCloseWithError err)
  | None =>
      a <- get_act ;;
      wf <- deref (workFile a) ;;
      emit (EvOpen wf) ;;
      a <- get_act ;;
      url <- deref (tx_WorkerURL (tx a)) ;;
      log ("Sending work data to seller [" +s+ url +s+ "].") ;;
      cerr <- step EvCopyWork StepCopyWork ;;
      emit (EvCloseFileReader wf) ;;
      match cerr with
      | Some err => emit (EvPipeCloseWithError err)
      | None =>
          returnTransmissionToken ;;
          log "Sending buyer's secret to seller." ;;
          a <- get_act ;;
          secret <- deref (buyerSecret a) ;;
          ferr <- step (EvWriteField "buyersecret" (Thash_String lib secret))
                    StepWriteBuyerSecret ;;
          match ferr with
          | Some err => emit (EvPipeCloseWithError err)
          | None =>
              merr <- step EvMultipartClose StepMultipartClose ;;
              match merr with
              | Some err => emit (EvPipeCloseWithError err)
              | None =>
                  perr <- step EvPipeClose StepPipeClose ;;
                  match perr with
                  | Some err => emit (EvPipeCloseWithError err)
                  | None => log "Work transmitted successfully."
                  end
              end
          end
      end
  end.

Definition encodeSyncInfoAndInitiateWishlistTransmission
    (syncinfo : SyncInfo) (legacy : bool) : Act (option error) :=
  r <- (if legacy then
          perr <- step (EvCreateFormFile "a32chunks" "a32chunks.bin")
                    StepCreateFormFile ;;
          match perr with
          | Some err => ret (Some err)
          | None =>
              a <- get_act ;;
              url <- deref (tx_WorkerURL (tx a)) ;;
              log ("Sending work chunk hashes to seller [" +s+ url +s+ "].") ;;
              step (EvWriteSyncInfo true) StepWriteSyncInfo
          end
        else
          perr <- step (EvCreateFormFile "syncinfojson" "syncinfo.json")
                    StepCreateFormFile ;;
          match perr with
          | Some err => ret (Some err)
          | None =>
              a <- get_act ;;
              url <- deref (tx_WorkerURL (tx a)) ;;
              log ("Sending work sync info to seller [" +s+ url +s+ "].") ;;
              step (EvWriteSyncInfo false) StepWriteSyncInfo
          end) ;;
  match r with
  | Some err => ret (Some err)
  | None =>
      log "Sending buyer's secret to seller." ;;
      a <- get_act ;;
      secret <- deref (buyerSecret a) ;;
      step (EvWriteField "buyersecret" (Thash_String lib secret))
        StepWriteBuyerSecret
  end.

(** The producer of [requestMissingChunks]. *)
Definition syncInfoProducer (syncinfo : SyncInfo) (legacy : bool)
    : Act unit :=
  eerr <- encodeSyncInfoAndInitiateWishlistTransmission syncinfo legacy ;;
  match eerr with
  | Some err => emit (EvPipeCloseWithError err)
  | None =>
      merr <- step EvMultipartClose StepMultipartClose ;;
      match merr with
      | Some err => emit (EvPipeCloseWithError err)
      | None =>
          cerr <- step EvCompressorClose StepCompressorClose ;;
          match cerr with
          | Some err => emit (EvPipeCloseWithError err)
          | None =>
              emit EvPipeClose ;;
              log "Work sync info transmitted successfully."
          end
      end
  end.

(** The progress callback of the chunk data writer, once per report. *)
Fixpoint progressCallbacks (reports : list (Z * Z)) : Act unit :=
  match reports with
  | [] => ret tt
  | (bytesToTransfer, bytesTransferred) :: rest =>
      execSync (set_progress bytesToTransfer bytesTransferred) ;;
      progressCallbacks rest
  end.

(** The function [f] inside the producer of
    [sendMissingChunksAndReturnResult]. *)
Definition writeChunks (syncinfo : SyncInfo) : Act (option error) :=
  perr <- step (EvCreateFormFile "chunkdata" "chunkdata.bin")
            StepCreateFormFile ;;
  match perr with
  | Some err => ret (Some err)
  | None =>
      a <- get_act ;;
      wf <- deref (workFile a) ;;
      emit (EvWriteChunkData (cafs_Size lib (file_data wf))
              (si_Perm syncinfo)) ;;
      progressCallbacks (env_progress env) ;;
      emit EvChunksDispose ;;
      match env_producer env StepWriteChunkData with
      | Some err => ret (Some err)
      | None =>
          (* WriteChunkData finished successfully.  Make sure all streams
             are closed. *)
          merr <- step EvMultipartClose StepMultipartClose ;;
          match merr with
          | Some err => ret (Some err)
          | None =>
              cerr <- step EvCompressorClose StepCompressorClose ;;
              match cerr with
              | Some err => ret (Some err)
              | None => ret None
              end
          end
      end
  end.

(** The producer of [sendMissingChunksAndReturnResult]. *)
Definition chunkProducer (syncinfo : SyncInfo) (compressed : bool)
    : Act unit :=
  log ("Transmitting chunk data (compressed: " +s+ fmt_bool compressed +s+
       ", permutation size: " +s+
       fmt_d (Z.of_nat (List.length (si_Perm syncinfo))) +s+ ")") ;;
  ferr <- writeChunks syncinfo ;;
  match ferr with
  | Some err =>
      emit (EvPipeCloseWithError err) ;;
      log ("Chunk data transmission resulted in error: " +s+ err)
  | None =>
      emit EvPipeClose ;;
      log "Missing chunk data transmitted successfully." ;;
      returnTransmissionToken ;;
      sellerId <- mustGetSellerId ;;
      emit (EvSetNodeInterested sellerId false)
  end.

Definition postAssistiveDownloadTicketToSeller (ticket : string) : Act unit :=
  ferr <- step (EvWriteField "assisturl" ticket) StepTicketField ;;
  match ferr with
  | Some err => log ("Error writing assisturl form field: " +s+ err)
  | None =>
      cerr <- step EvMultipartClose StepTicketClose ;;
      match cerr with
      | Some err => log ("Error closing multipart writer: " +s+ err)
      | None =>
          r <- postToSeller (PostTicket ticket)
                 (FormDataContentType (PostTicket ticket)) false ;;
          match snd r with
          | Some err => log ("Error sending assisturl to seller: " +s+ err)
          | None => log ("Sent assistive download ticket: " +s+ ticket)
          end
      end
  end.

End Buy.

(** ** Output feedback mode by its definition *)

(** Byte [j] of the key stream: byte [j mod 16] of the [(j / 16 + 1)]-th
    iterate of the block cipher on the initialization vector. *)
Definition ofb_key_byte (encrypt : list byte -> list byte) (iv : list byte)
    (j : nat) : byte :=
  nth (j mod BlockSize) (Nat.iter (S (j / BlockSize)) encrypt iv) 0.

(** The bytes of [src], from position [j] of the stream on, each xor-ed
    with its key stream byte. *)
Fixpoint ofb_xor_from (encrypt : list byte -> list byte) (iv : list byte)
    (j : nat) (src : list byte) : list byte :=
  match src with
  | [] => []
  | b :: src' =>
      Z.lxor b (ofb_key_byte encrypt iv j) :: ofb_xor_from encrypt iv (S j) src'
  end.

(** Encryption in output feedback mode; decryption is the same function. *)
Definition OFB_encrypt (encrypt : list byte -> list byte) (iv src : list byte)
    : list byte :=
  ofb_xor_from encrypt iv 0 src.

(** The stream after [j] bytes. *)
Definition ofb_at (encrypt : list byte -> list byte) (iv : list byte)
    (j : nat) : ofb :=
  match j with
  | O => NewOFB iv
  | S j' =>
      {| ofb_cipher := Nat.iter (S (j' / BlockSize)) encrypt iv;
         ofb_outUsed := S (j' mod BlockSize) |}
  end.

(** What a reader delivers before its first failure, and that failure. *)
Fixpoint reads_data (r : Reader) : list byte :=
  match r with
  | [] => []
  | ReadOk chunk :: r' => chunk ++ reads_data r'
  | ReadErr _ :: _ => []
  end.

Fixpoint reads_error (r : Reader) : option error :=
  match r with
  | [] => None
  | ReadOk _ :: r' => reads_error r'
  | ReadErr e :: _ => Some e
  end.

(** A plan under which every read of the file succeeds. *)
Fixpoint plan_succeeds (plan : list read_step) : bool :=
  match plan with
  | [] => true
  | Take _ :: plan' => plan_succeeds plan'
  | Fail _ :: _ => false
  end.

(** ** What a computation does to the activity and to the log *)

(** From [s] to [s']: the activity moved along [R], and the log grew by
    events that all satisfy [P]. *)
Definition related (R : BuyActivity -> BuyActivity -> Prop)
    (P : Event -> Prop) (s s' : State) : Prop :=
  R (act s) (act s') /\
  exists l, trace s' = trace s ++ l /\ Forall P l.

(** Every run of [m] is such a move, however it ends. *)
Definition steps {A : Type} (R : BuyActivity -> BuyActivity -> Prop)
    (P : Event -> Prop) (m : Act A) : Prop :=
  forall s, related R P s (snd (m s)).

(** A projection of the activity is kept. *)
Definition keeps {X : Type} (proj : BuyActivity -> X)
    : BuyActivity -> BuyActivity -> Prop :=
  fun a b => proj b = proj a.

(** ** Classes of events *)

(** What the linear transmission and the reception of the encrypted result
    may log: one uncompressed post of the work, the temporary, the
    receipt. *)
Definition linear_event (e : Event) : bool :=
  match e with
  | EvLog _ | EvGo GoWorkProducer | EvPost PostWork _ _ false | EvCloseBody
  | EvCreateTemp _ _ | EvCloseTemp _ | EvTempFile _ _ | EvDisposeTemp _
  | EvSignMessage _ | EvPostForm _ _ _ => true
  | _ => false
  end.

(** What the chunked transmission may log once the sync info is built. *)
Definition sync_event (e : Event) : bool :=
  match e with
  | EvLog _ | EvGo (GoSyncInfoProducer _ _ _) | EvGo (GoChunkProducer _ _ _)
  | EvPost PostSyncInfo _ _ _ | EvPost PostChunkData _ _ _ | EvCloseBody
  | EvPipeReaderClose | EvNewTicket _ _ => true
  | _ => false
  end.

(** The same, but for the start of the producer of the wish list
    request. *)
Definition sync_rest_event (e : Event) : bool :=
  match e with
  | EvGo (GoSyncInfoProducer _ _ _) => false
  | _ => sync_event e
  end.

(** What only the chunked transmission logs. *)
Definition chunked_event (e : Event) : bool :=
  match e with
  | EvGo (GoSyncInfoProducer _ _ _) | EvGo (GoChunkProducer _ _ _)
  | EvPost PostSyncInfo _ _ _ | EvPost PostChunkData _ _ _
  | EvPipeReaderClose | EvNewTicket _ _ | EvInitNode _ _ | EvExitNode _ =>
      true
  | _ => false
  end.

(** A request with a gzip-compressed body. *)
Definition gzip_event (e : Event) : bool :=
  match e with
  | EvPost _ _ _ true => true
  | _ => false
  end.

(** What the contact with the seller may log. *)
Definition seller_event (e : Event) : bool :=
  match e with
  | EvGo GoWatchdog | EvNewScopedTransport | EvRegisterTransport
  | EvCloseTransport | EvExitWatchdog | EvOptions _ | EvInitNode _ _
  | EvExitNode _ => true
  | _ => linear_event e || sync_event e
  end.

(** What [decryptResult] hands to [io.Copy], for the encrypted file [f]. *)
Definition decrypted_copy (lib : Lib) (env : Env) (k : list byte) (f : File)
    : list byte * option error :=
  io_Copy (env_temp_write env TempResult)
    (StreamReader (aes_Encrypt lib k) (NewOFB zero_iv)
       (file_reads (env_encrypted_plan env) (file_data f)))
    0 [].

(** The first failure on the way of [decryptResult], for the key [k] and
    the encrypted file [f]: making the cipher, copying the decrypted bytes
    (a read of the file or a write to the temporary fails), closing the
    temporary. *)
Definition decrypt_failure (lib : Lib) (env : Env) (k : list byte) (f : File)
    : option error :=
  match aes_NewCipher lib k with
  | inl err => Some err
  | inr block_ =>
      match
        snd (io_Copy (env_temp_write env TempResult)
               (StreamReader block_ (NewOFB zero_iv)
                  (file_reads (env_encrypted_plan env) (file_data f)))
               0 [])
      with
      | Some err => Some err
      | None => env_temp_close env TempResult
      end
  end.

(** Every temporary created in [l] is disposed in [l]. *)
Definition temps_disposed (l : list Event) : Prop :=
  forall id info, In (EvCreateTemp id info) l -> In (EvDisposeTemp id) l.

(** ** How the wait of a local buy ends *)

Inductive wait_end :=
| EndResult (rf : File)
| EndDied
| EndInterrupted
| EndNever.

(** The first wake-up that ends the wait: the sell has a result file, or it
    is dead, or the buy is interrupted. *)
Fixpoint wait_outcome (wakes : list wake) : wait_end :=
  match wakes with
  | [] => EndNever
  | Interrupt :: _ => EndInterrupted
  | Changed st :: wakes' =>
      match sell_resultFile st with
      | Some rf => EndResult rf
      | None => if sell_alive st then wait_outcome wakes' else EndDied
      end
  end.

(** The two ways a local buy is said to end: with a duplicate of a result
    file of the sell, installed as [resultFile], or with the failure of a
    sell that died without a result. *)
Definition local_buy_ends_with_sell (wakes : list wake) (sell : SellActivity)
    (r : outcome (option File * option error) * State) : Prop :=
  match fst r with
  | Returned (Some f, None) =>
      resultFile (act (snd r)) = Some f /\
      exists st rf,
        In (Changed st) wakes /\ sell_resultFile st = Some rf /\
        file_data f = file_data rf /\ file_handle f <> file_handle rf
  | Returned (None, Some err) =>
      err = "Sell didn't produce a result: #" +s+ sell_key sell /\
      exists st,
        In (Changed st) wakes /\ sell_alive st = false /\
        sell_resultFile st = None
  | _ => False
  end.

(** ** Error messages *)

(** [sub] occurs in [s]. *)
Definition contains (s sub : string) : Prop :=
  exists pre post, s = pre +s+ sub +s+ post.

(** The two failures of the TRANSMITTING phase as [doRemoteBuy] reports
    them. *)
Definition seller_failure (err : error) : error :=
  "Error transmitting work and receiving encrypted result: " +s+ err.

Definition phase_failure (err : error) : error :=
  "Error awaiting UNVERIFIED phase: " +s+ err.

(** The state in which the wait for the UNVERIFIED phase leaves [s]. *)
Definition after_wait_unverified (env : Env) (s : State) : State :=
  {| act := set_tx (fst (env_waitUnverified env)) (act s);
     next_handle := next_handle s;
     trace := trace s ++
              [EvWaitForPhase PhaseUnverified
                 [PhaseTransmitting; PhaseWorking]] |}.

(** The state in which [doRemoteBuy] calls [decryptResult], when the wait
    for the UNVERIFIED phase left it in [s]: the key that the transaction
    carries is captured as [encResultKey]. *)
Definition decrypting_state (s : State) : State :=
  {| act := set_encResultKey (tx_ResultDecryptionKey (tx (act s))) (act s);
     next_handle := next_handle s;
     trace := trace s |}.

(** ** The states of a remote buy *)

(** The work secret hash of [doRemoteBuy]. *)
Definition work_secret_hash (lib : Lib) (wf : File) (secret : Thash) : Thash :=
  SHA256 lib (cafs_Key lib (file_data wf) ++ secret).

(** The state in which [doRemoteBuy] enters the TRANSMITTING phase from
    [s], for the work file [wf] and the secret [secret]. *)
Definition transmitting_state (lib : Lib) (env : Env) (s : State) (wf : File)
    (secret : Thash) : State :=
  {| act := set_tx (fst (env_waitTransmitting env))
              (set_buyerSecret (Some secret) (act s));
     next_handle := next_handle s;
     trace := trace s ++
              [EvBeginRemoteTrade; EvLog "Computed buyer's secret.";
               EvGo GoPollTransaction;
               EvSendEstablishBuyer (txId (act s)) (identity (act s))
                 (cafs_Key lib (file_data wf))
                 (work_secret_hash lib wf secret);
               EvWaitForPhase PhaseTransmitting
                 [PhaseEstablishing; PhaseSellerEstablished;
                  PhaseBuyerEstablished]] |}.

(** The deferred calls of [doRemoteBuy] once polling has started. *)
Definition remote_buy_exit (s : State) : State :=
  {| act := act s; next_handle := next_handle s;
     trace := trace s ++ [EvAbortPolling; EvReturnTransmissionToken] |}.

(** The establish message to the coordinator. *)
Definition is_establish (e : Event) : bool :=
  match e with
  | EvSendEstablishBuyer _ _ _ _ => true
  | _ => false
  end.

(** What the claim on the secret hash says of an establish message: it
    carries the key of the work file and the digest of that key followed by
    the secret. *)
Definition hashes_secret (lib : Lib) (wf : File) (secret : Thash) (e : Event)
    : Prop :=
  match e with
  | EvSendEstablishBuyer _ _ workHash workSecretHash =>
      workHash = cafs_Key lib (file_data wf) /\
      workSecretHash = SHA256 lib (workHash ++ secret)
  | _ => True
  end.

(** The error of a work file with too many chunks. *)
Definition is_work_too_large (err : error) : bool :=
  prefix "Work file too big: " err.

(** Every run of [m] that returns, returns a value in [Q]. *)
Definition returns {A : Type} (Q : A -> Prop) (m : Act A) : Prop :=
  forall s a, fst (m s) = Returned a -> Q a.

(** A computation that adds events in [P] to the log. *)
Definition logs {A : Type} (P : Event -> Prop) (m : Act A) : Prop :=
  steps (fun _ _ => True) P m.

(** Every run of [m] logs [e] first, and then events in [P]. *)
Definition starts_with {A : Type} (P : Event -> Prop) (e : Event)
    (m : Act A) : Prop :=
  forall s, exists l, trace (snd (m s)) = trace s ++ e :: l /\ Forall P l.

(** The identifier of the seller for the ticket registry, when the worker
    URL [url] has the host [host]. *)
Definition seller_id (a : BuyActivity) (host : string) : string :=
  tx_Seller (tx a) +s+ "_" +s+ host.

(** [0, 1, ..., n-1]. *)
Definition interval (n : nat) : list Z := map Z.of_nat (seq 0 n).

(** ** The capability probe *)

(** The probe of the seller at [url] fails: the request cannot be made or
    errors, or the answer has another status than 200, or its body is not
    the JSON of the capabilities. *)
Definition probe_fails (lib : Lib) (env : Env) (url : string) : Prop :=
  NewRequest_error lib "OPTIONS" url <> None \/
  match env_options env with
  | inl _ => True
  | inr resp =>
      StatusCode resp <> StatusOK \/
      exists err, json_Decode_caps lib (rc_reads (Body resp)) = inl err
  end.

(** The state in which [interactWithSeller] probes the seller, and what it
    does after the transmission. *)
Definition probing_state (s : State) : State :=
  {| act := act s; next_handle := next_handle s;
     trace := trace s ++
              [EvGo GoWatchdog; EvNewScopedTransport; EvRegisterTransport] |}.

Definition contact_exit (s : State) : State :=
  {| act := act s; next_handle := next_handle s;
     trace := trace s ++ [EvCloseTransport; EvExitWatchdog] |}.

(** The contact with a seller without capabilities: the work is sent
    linearly, then the encrypted result is received. *)
Definition linearContact (lib : Lib) (env : Env) : Act (option error) :=
  (t <- transmitWorkLinear lib env ;;
   receiveEncryptedResult lib env (fst t) (snd t))%act.

(** What the probe itself logs. *)
Definition probe_event (e : Event) : bool :=
  match e with
  | EvOptions _ | EvCloseBody | EvLog _ => true
  | _ => false
  end.

Definition is_options (e : Event) : bool :=
  match e with
  | EvOptions _ => true
  | _ => false
  end.

(** ** The producer of the chunk data *)

(** The progress counters after the reports of the chunk data writer. *)
Definition after_progress (reports : list (Z * Z)) (a : BuyActivity)
    : BuyActivity :=
  fold_left (fun a r => set_progress (fst r) (snd r) a) reports a.

(** The first of the writes of the chunk producer that fails. *)
Definition chunk_producer_failure (env : Env) : option error :=
  match env_producer env StepCreateFormFile with
  | Some err => Some err
  | None =>
      match env_producer env StepWriteChunkData with
      | Some err => Some err
      | None =>
          match env_producer env StepMultipartClose with
          | Some err => Some err
          | None => env_producer env StepCompressorClose
          end
      end
  end.

(** What is said of the token in a log [l] of the chunk producer: it is
    returned when the request begins to be sent.  The HTTP client reads the
    request body from the pipe the producer writes to, so the request is on
    its way from the first write of the producer on: the token is to be
    returned before the chunk data are written. *)
Definition token_returned_when_sending_begins (l : list Event) : Prop :=
  forall pre size perm post,
    l = pre ++ EvWriteChunkData size perm :: post ->
    In EvReturnTransmissionToken pre.

(** ** States and results of the contact with the seller *)

(** The state [s] once the events [l] are logged. *)
Definition logged (l : list Event) (s : State) : State :=
  {| act := act s; next_handle := next_handle s; trace := trace s ++ l |}.


(** The error of [postToSeller] for an answer with another status than
    200: the status, and the first 1024 bytes of the body, quoted. *)
Definition bad_status (lib : Lib) (resp : Response) : error :=
  "Seller returned bad status '" +s+ Status resp +s+ "' [response: " +s+
  fmt_q lib (firstn 1024 (reads_data (rc_reads (Body resp)))) +s+ "]".

(** What a transmission of the work hands back: the body of the answer
    with status 200 that the seller gave to the request [kind], or an
    error, never both and never neither. *)
Definition transmitted (env : Env) (kind : PostKind)
    (t : option ReadCloser * option error) : Prop :=
  match t with
  | (Some body, None) =>
      exists resp,
        env_post env kind = inr resp /\ StatusCode resp = StatusOK /\
        body = Body resp
  | (None, Some _) => True
  | _ => False
  end.

(** The request whose answer carries the encrypted result: the one with
    the chunk data in a chunked transmission, the one with the work
    otherwise. *)
Definition result_request (chunked : bool) : PostKind :=
  if chunked then PostChunkData else PostWork.

(** What the contact with the seller logs between the registration of its
    transport and its deferred calls. *)
Definition contact_event (e : Event) : bool :=
  match e with
  | EvOptions _ | EvInitNode _ _ | EvExitNode _ => true
  | _ => linear_event e || sync_event e
  end.

Definition is_create_temp (e : Event) : bool :=
  match e with
  | EvCreateTemp _ _ => true
  | _ => false
  end.

(** What the chunked transmission logs, when it was asked to compress or
    not and to treat the seller as legacy or not: every request and every
    producer carries these two choices, and the ticket registry is only
    called for a seller that is not legacy. *)
Definition chunked_transmission_event (compressed legacy : bool) (e : Event)
    : bool :=
  match e with
  | EvLog _ | EvCloseBody | EvPipeReaderClose | EvNewTicket _ _ => true
  | EvInitNode _ _ | EvExitNode _ => negb legacy
  | EvGo (GoSyncInfoProducer _ l c) =>
      Bool.eqb l legacy && Bool.eqb c compressed
  | EvGo (GoChunkProducer _ c _) => Bool.eqb c compressed
  | EvPost PostSyncInfo _ _ c | EvPost PostChunkData _ _ c =>
      Bool.eqb c compressed
  | _ => false
  end.

(** The seller answered the OPTIONS request with status 200 and with
    capabilities that decode to [chunked], [compressed] and not [legacy]. *)
Definition advertised (lib : Lib) (env : Env) (chunked compressed legacy : bool)
    : Prop :=
  exists resp caps,
    env_options env = inr resp /\ StatusCode resp = StatusOK /\
    json_Decode_caps lib (rc_reads (Body resp)) = inr caps /\
    chunked = Adler32Chunking caps /\ compressed = GZIPCompression caps /\
    legacy = negb (SyncInfoCap caps).

(** A computation that never waits: every run of [m] returns or panics. *)
Definition ends {A : Type} (m : Act A) : Prop :=
  forall s, fst (m s) <> Blocked.

(** What [interactWithSeller] runs once the seller is probed. *)
Definition transmitWork (lib : Lib) (env : Env)
    (chunked compressed legacy : bool)
    : Act (option ReadCloser * option error) :=
  if chunked then transmitWorkChunked lib env compressed legacy
  else transmitWorkLinear lib env.

(** What the linear transmission logs: its producer, one request that is
    not compressed, and the closing of a body with a bad status. *)
Definition linear_transmission_event (e : Event) : bool :=
  match e with
  | EvGo GoWorkProducer | EvPost PostWork _ _ false | EvCloseBody => true
  | _ => false
  end.

(** What a transmission logs. *)
Definition transmission_event (chunked compressed legacy : bool) (e : Event)
    : bool :=
  if chunked then chunked_transmission_event compressed legacy e
  else linear_transmission_event e.

(** ** How a buy ends *)

(** The start of the goroutine that finishes a buy. *)
Definition is_finisher (e : Event) : bool :=
  match e with
  | EvGo GoFinishBuy => true
  | _ => false
  end.

(** From [s] to the end [r] of a buy, local or remote: a file is returned
    without an error, and it is the [resultFile] of the activity (after a
    remote buy the finisher was started); or an error is returned without
    a file, [resultFile] is as it was and no finisher was started, as when
    the buy panics or does not end. *)
Definition buy_shape (remote : bool) (s : State)
    (r : outcome (option File * option error) * State) : Prop :=
  exists l,
    trace (snd r) = trace s ++ l /\
    match fst r with
    | Returned (Some f, None) =>
        resultFile (act (snd r)) = Some f /\
        (remote = true -> In (EvGo GoFinishBuy) l)
    | Returned (None, Some _) | Panicked _ | Blocked =>
        resultFile (act (snd r)) = resultFile (act s) /\
        ~ In (EvGo GoFinishBuy) l
    | Returned _ => False
    end.

Definition shaped (remote : bool) (m : Act (option File * option error))
    : Prop :=
  forall s, buy_shape remote s (m s).

(** ** The remote buy before and around the contact with the seller *)

(** What the driver of a remote buy logs between the start of polling and
    its deferred calls. *)
Definition driver_event (e : Event) : bool :=
  match e with
  | EvSendEstablishBuyer _ _ _ _ | EvWaitForPhase _ _ | EvOpen _
  | EvCloseFileReader _ | EvGo GoFinishBuy => true
  | _ => seller_event e
  end.

(** The seller is contacted: a transport is opened for it or a request is
    sent to it. *)
Definition is_seller_contact (e : Event) : bool :=
  match e with
  | EvGo GoWatchdog | EvNewScopedTransport | EvRegisterTransport
  | EvOptions _ | EvPost _ _ _ _ | EvPostForm _ _ _ => true
  | _ => false
  end.

(** The first failure of a remote buy before it contacts the seller, as
    [doRemoteBuy] reports it: beginning the trade, drawing the secret,
    sending the establish message, waiting for the TRANSMITTING phase. *)
Definition establish_failure (env : Env) : option error :=
  match env_beginRemoteTrade env with
  | Some err => Some err
  | None =>
      match env_rand_error env with
      | Some err => Some err
      | None =>
          match env_SendEstablishBuyer env with
          | Some err => Some ("Error establishing buyer: " +s+ err)
          | None =>
              match snd (env_waitTransmitting env) with
              | Some err =>
                  Some ("Error awaiting TRANSMITTING phase: " +s+ err)
              | None => None
              end
          end
      end
  end.

(** What a buy logs without a seller: its own lines, the duplicates it
    makes, and the wait for clearance. *)
Definition local_event (e : Event) : bool :=
  match e with
  | EvLog _ | EvDuplicate _ _ | EvAwaitClearance => true
  | _ => false
  end.

(** ** The finisher *)

(** The predicate [finishBuy] waits on: the transaction is active. *)
Definition tx_active (t : Transaction) : bool :=
  TxState_eqb (tx_State t) StateActive.

(** The first transaction that is not active any more among the one the
    activity holds and the ones the poller brings. *)
Definition first_inactive (a : BuyActivity) (polls : list Transaction)
    : option Transaction :=
  find (fun t => negb (tx_active t)) (tx a :: polls).

(** ** The producers of the request bodies *)


(** The first of the writes of the producer of the wish list request that
    fails. *)
Definition sync_producer_failure (env : Env) : option error :=
  match env_producer env StepCreateFormFile with
  | Some err => Some err
  | None =>
      match env_producer env StepWriteSyncInfo with
      | Some err => Some err
      | None =>
          match env_producer env StepWriteBuyerSecret with
          | Some err => Some err
          | None =>
              match env_producer env StepMultipartClose with
              | Some err => Some err
              | None => env_producer env StepCompressorClose
              end
          end
      end
  end.

(** The pipe of a producer is closed, with or without an error. *)
Definition is_pipe_close (e : Event) : bool :=
  match e with
  | EvPipeClose | EvPipeCloseWithError _ => true
  | _ => false
  end.

(** ** Tickets *)

(** What [newTickets] logs for the tickets [tickets], numbered from [i]. *)
Fixpoint ticket_events (sellerId : string) (i : Z) (tickets : list string)
    : list Event :=
  match tickets with
  | [] => []
  | ticket :: rest =>
      EvLog ("Received assistive download ticket #" +s+ fmt_d i +s+ ": " +s+
             ticket)
      :: EvNewTicket ticket sellerId :: ticket_events sellerId (i + 1) rest
  end.

Definition is_new_ticket (e : Event) : bool :=
  match e with
  | EvNewTicket _ _ => true
  | _ => false
  end.

Definition is_log (e : Event) : bool :=
  match e with
  | EvLog _ => true
  | _ => false
  end.

(** What the chunked transmission logs before the chunk data are sent. *)
Definition before_chunk_data (e : Event) : Prop :=
  match e with
  | EvGo (GoChunkProducer _ _ _) | EvPost PostChunkData _ _ _ => False
  | _ => True
  end.

(** What the chunked transmission logs for the chunk data: the producer
    is started on the sync info [si] and the wish list [w], and the
    request is compressed as asked. *)
Definition sends_chunk_data (si : SyncInfo) (compressed : bool) (w : Reader)
    (e : Event) : Prop :=
  match e with
  | EvGo (GoChunkProducer si' c' w') =>
      si' = si /\ c' = compressed /\ w' = w
  | EvPost PostChunkData _ _ g => g = compressed
  | EvPost PostSyncInfo _ _ _ | EvGo (GoSyncInfoProducer _ _ _) => False
  | _ => True
  end.

(** A receipt: the message signed, or the form posted. *)
Definition is_receipt (e : Event) : bool :=
  match e with
  | EvSignMessage _ | EvPostForm _ _ _ => true
  | _ => false
  end.

(** What a receipt logged by the contact says of the state [s'] the
    contact ends in, for the response body [body]: the message signed is
    the key of the encrypted result stored in [s'], which holds the bytes
    of [body] read to its end; the form posted carries that key and the
    signature stored in [s'], made by the identity. *)
Definition receipt_for (lib : Lib) (env : Env) (body : Reader) (s' : State)
    (e : Event) : Prop :=
  match e with
  | EvSignMessage m =>
      exists f,
        encResultFile (act s') = Some f /\
        file_data f = reads_data body /\ reads_error body = None /\
        m = Thash_String lib (cafs_Key lib (file_data f))
  | EvPostForm u h g =>
      exists f,
        encResultFile (act s') = Some f /\
        h = Thash_String lib (cafs_Key lib (file_data f)) /\
        g = encResultHashSig (act s') /\
        env_SignMessage env = inr g /\
        tx_WorkerURL (tx (act s')) = Some u
  | _ => True
  end.

(** What a request of the chunked transmission logs between the start of
    its producer and the closing of the read end of its pipe: the request
    itself, of the kind [kind] and compressed as asked; the closing of a
    body with a bad status; lines of the log; tickets, which are only
    taken from an answer with status 200. *)
Definition request_event (env : Env) (kind : PostKind) (compressed : bool)
    (e : Event) : Prop :=
  match e with
  | EvPost k _ _ c => k = kind /\ c = compressed
  | EvCloseBody | EvLog _ => True
  | EvNewTicket _ _ =>
      exists resp,
        env_post env kind = inr resp /\ StatusCode resp = StatusOK /\
        AssistHeader resp <> ""%string
  | _ => False
  end.

(** An error of a request comes without a body and starts with [msg]. *)
Definition request_error (msg : string)
    (r : option ReadCloser * option error) : Prop :=
  forall x err, r = (x, Some err) -> x = None /\ prefix msg err = true.

(** * Example inputs *)

(** A toy instance of the libraries: the block cipher adds the first key
    byte to every byte of the block, the digest keeps the last bytes in
    reverse. *)
Definition toy_lib : Lib :=
  {| SHA256 := fun l => firstn 32 (rev l ++ repeat 0 32);
     aes_Encrypt := fun k b => map (fun x => (x + nth 0 k 0 + 1) mod 256) b;
     cafs_Key := fun d => firstn 32 (d ++ repeat 7 32);
     cafs_IsChunked := fun d => (1 <? Z.of_nat (List.length d));
     cafs_NumChunks := fun d => Z.of_nat (List.length d);
     cafs_Size := fun d => Z.of_nat (List.length d);
     cafs_Chunks :=
       fun d => map (fun b => {| ci_Key := [b]; ci_Size := 1 |}) d;
     TrivialPermutation := [0];
     HandprintFromSyncInfo :=
       fun si => fmt_d (Z.of_nat (List.length (si_Chunks si)));
     MaxNumberOfChunksInWorkFile := 16384;
     Thash_String := fun h => fmt_d (nth 0 h 0);
     fmt_q := fun _ => "?"%string;
     NewRequest_error := fun _ _ => None;
     url_Parse_Host := fun u => inr u;
     json_Decode_caps :=
       fun r =>
         match reads_data r with
         | [a; b; c] =>
             inr {| Adler32Chunking := (a =? 1);
                    GZIPCompression := (b =? 1);
                    SyncInfoCap := (c =? 1) |}
         | _ => inl "unexpected end of JSON input"%string
         end;
     json_Unmarshal_tickets := fun js => ([js], None);
     ErrInterrupted := "Interrupted"%string |}.

Definition ok_body (d : list byte) : ReadCloser :=
  {| rc_reads := [ReadOk d]; rc_close := None |}.

Definition ok_response (d : list byte) : Response :=
  {| StatusCode := 200; Status := "200 OK"; Body := ok_body d;
     AssistHeader := "" |}.

Definition toy_tx : Transaction :=
  {| tx_State := StateActive; tx_Phase := PhaseTransmitting;
     tx_WorkerURL := Some "http://seller/"%string; tx_Seller := "seller";
     tx_ResultDecryptionKey := repeat 3 32 |}.

(** An environment in which every collaborator succeeds; the seller has no
    capabilities and answers the work with the bytes 9, 8, 7. *)
Definition toy_env : Env :=
  {| env_awaitClearance := None;
     env_sell_wakes := [];
     env_beginRemoteTrade := None;
     env_rand := fun i => Z.of_nat i;
     env_rand_error := None;
     env_SendEstablishBuyer := None;
     env_waitTransmitting := (toy_tx, None);
     env_waitUnverified := (toy_tx, None);
     env_SendAcceptResult := None;
     env_finish_polls := [];
     env_options := inr (ok_response [0; 0; 0]);
     env_boundary := fun _ => "xyz"%string;
     env_post := fun _ => inr (ok_response [9; 8; 7]);
     env_SignMessage := inr "sig"%string;
     env_PostForm := inr (ok_response []);
     env_pseudorand_Perm := fun n => map Z.of_nat (rev (seq 0 n));
     env_encrypted_plan := [Take 2];
     env_temp_write := fun _ _ => None;
     env_temp_close := fun _ => None;
     env_producer := fun _ => None;
     env_progress := [(3, 1); (3, 3)] |}.

(** Environments that differ from a given one in one answer. *)
Definition with_sell_wakes (v : list wake) (e : Env) : Env :=
  {| env_awaitClearance := env_awaitClearance e;
     env_sell_wakes := v;
     env_beginRemoteTrade := env_beginRemoteTrade e;
     env_rand := env_rand e;
     env_rand_error := env_rand_error e;
     env_SendEstablishBuyer := env_SendEstablishBuyer e;
     env_waitTransmitting := env_waitTransmitting e;
     env_waitUnverified := env_waitUnverified e;
     env_SendAcceptResult := env_SendAcceptResult e;
     env_finish_polls := env_finish_polls e;
     env_options := env_options e;
     env_boundary := env_boundary e;
     env_post := env_post e;
     env_SignMessage := env_SignMessage e;
     env_PostForm := env_PostForm e;
     env_pseudorand_Perm := env_pseudorand_Perm e;
     env_encrypted_plan := env_encrypted_plan e;
     env_temp_write := env_temp_write e;
     env_temp_close := env_temp_close e;
     env_producer := env_producer e;
     env_progress := env_progress e |}.

Definition with_awaitClearance (v : option error) (e : Env) : Env :=
  {| env_awaitClearance := v;
     env_sell_wakes := env_sell_wakes e;
     env_beginRemoteTrade := env_beginRemoteTrade e;
     env_rand := env_rand e;
     env_rand_error := env_rand_error e;
     env_SendEstablishBuyer := env_SendEstablishBuyer e;
     env_waitTransmitting := env_waitTransmitting e;
     env_waitUnverified := env_waitUnverified e;
     env_SendAcceptResult := env_SendAcceptResult e;
     env_finish_polls := env_finish_polls e;
     env_options := env_options e;
     env_boundary := env_boundary e;
     env_post := env_post e;
     env_SignMessage := env_SignMessage e;
     env_PostForm := env_PostForm e;
     env_pseudorand_Perm := env_pseudorand_Perm e;
     env_encrypted_plan := env_encrypted_plan e;
     env_temp_write := env_temp_write e;
     env_temp_close := env_temp_close e;
     env_producer := env_producer e;
     env_progress := env_progress e |}.

Definition with_options (v : error + Response) (e : Env) : Env :=
  {| env_awaitClearance := env_awaitClearance e;
     env_sell_wakes := env_sell_wakes e;
     env_beginRemoteTrade := env_beginRemoteTrade e;
     env_rand := env_rand e;
     env_rand_error := env_rand_error e;
     env_SendEstablishBuyer := env_SendEstablishBuyer e;
     env_waitTransmitting := env_waitTransmitting e;
     env_waitUnverified := env_waitUnverified e;
     env_SendAcceptResult := env_SendAcceptResult e;
     env_finish_polls := env_finish_polls e;
     env_options := v;
     env_boundary := env_boundary e;
     env_post := env_post e;
     env_SignMessage := env_SignMessage e;
     env_PostForm := env_PostForm e;
     env_pseudorand_Perm := env_pseudorand_Perm e;
     env_encrypted_plan := env_encrypted_plan e;
     env_temp_write := env_temp_write e;
     env_temp_close := env_temp_close e;
     env_producer := env_producer e;
     env_progress := env_progress e |}.

Definition with_post (v : PostKind -> error + Response) (e : Env) : Env :=
  {| env_awaitClearance := env_awaitClearance e;
     env_sell_wakes := env_sell_wakes e;
     env_beginRemoteTrade := env_beginRemoteTrade e;
     env_rand := env_rand e;
     env_rand_error := env_rand_error e;
     env_SendEstablishBuyer := env_SendEstablishBuyer e;
     env_waitTransmitting := env_waitTransmitting e;
     env_waitUnverified := env_waitUnverified e;
     env_SendAcceptResult := env_SendAcceptResult e;
     env_finish_polls := env_finish_polls e;
     env_options := env_options e;
     env_boundary := env_boundary e;
     env_post := v;
     env_SignMessage := env_SignMessage e;
     env_PostForm := env_PostForm e;
     env_pseudorand_Perm := env_pseudorand_Perm e;
     env_encrypted_plan := env_encrypted_plan e;
     env_temp_write := env_temp_write e;
     env_temp_close := env_temp_close e;
     env_producer := env_producer e;
     env_progress := env_progress e |}.

Definition with_producer (v : ProducerStep -> option error) (e : Env) : Env :=
  {| env_awaitClearance := env_awaitClearance e;
     env_sell_wakes := env_sell_wakes e;
     env_beginRemoteTrade := env_beginRemoteTrade e;
     env_rand := env_rand e;
     env_rand_error := env_rand_error e;
     env_SendEstablishBuyer := env_SendEstablishBuyer e;
     env_waitTransmitting := env_waitTransmitting e;
     env_waitUnverified := env_waitUnverified e;
     env_SendAcceptResult := env_SendAcceptResult e;
     env_finish_polls := env_finish_polls e;
     env_options := env_options e;
     env_boundary := env_boundary e;
     env_post := env_post e;
     env_SignMessage := env_SignMessage e;
     env_PostForm := env_PostForm e;
     env_pseudorand_Perm := env_pseudorand_Perm e;
     env_encrypted_plan := env_encrypted_plan e;
     env_temp_write := env_temp_write e;
     env_temp_close := env_temp_close e;
     env_producer := v;
     env_progress := env_progress e |}.

Definition with_waitUnverified (v : Transaction * option error) (e : Env) : Env :=
  {| env_awaitClearance := env_awaitClearance e;
     env_sell_wakes := env_sell_wakes e;
     env_beginRemoteTrade := env_beginRemoteTrade e;
     env_rand := env_rand e;
     env_rand_error := env_rand_error e;
     env_SendEstablishBuyer := env_SendEstablishBuyer e;
     env_waitTransmitting := env_waitTransmitting e;
     env_waitUnverified := v;
     env_SendAcceptResult := env_SendAcceptResult e;
     env_finish_polls := env_finish_polls e;
     env_options := env_options e;
     env_boundary := env_boundary e;
     env_post := env_post e;
     env_SignMessage := env_SignMessage e;
     env_PostForm := env_PostForm e;
     env_pseudorand_Perm := env_pseudorand_Perm e;
     env_encrypted_plan := env_encrypted_plan e;
     env_temp_write := env_temp_write e;
     env_temp_close := env_temp_close e;
     env_producer := env_producer e;
     env_progress := env_progress e |}.

Definition toy_activity : BuyActivity :=
  {| key := "42"; txId := "tx1"; identity := "buyer";
     workFile := Some {| file_handle := 0; file_data := [1; 2; 3] |};
     alive := true; lastError := None; localMatch := None;
     buyerSecret := None; tx := toy_tx;
     encResultFile := None; encResultHashSig := "";
     encResultKey := []; resultFile := None;
     bytesToTransfer := 0; bytesTransferred := 0 |}.

Definition toy_key : list byte := repeat 3 32.

Definition toy_plain : list byte :=
  [72; 101; 108; 108; 111; 44; 32; 119; 111; 114; 108; 100; 33; 32; 79; 70;
   66; 32; 115; 112; 97; 110; 115; 32; 98; 108; 111; 99; 107; 115; 46].

Definition toy_cipher_file : File :=
  {| file_handle := 5;
     file_data := OFB_encrypt (aes_Encrypt toy_lib toy_key) zero_iv toy_plain |}.

(** The activity once the encrypted result and its key have arrived. *)
Definition toy_decrypting : State :=
  initial (set_encResultKey toy_key
             (set_encResultFile (Some toy_cipher_file) toy_activity)) 6.

Definition toy_sell : SellActivity := {| sell_key := "17" |}.

Definition toy_result : File :=
  {| file_handle := 0; file_data := [4; 5; 6] |}.

Definition sell_working : SellState :=
  {| sell_alive := true; sell_resultFile := None |}.

Definition sell_done : SellState :=
  {| sell_alive := true; sell_resultFile := Some toy_result |}.

(** The sell works, then publishes its result. *)
Definition env_local_success : Env :=
  with_sell_wakes [Changed sell_working; Changed sell_done] toy_env.

(** The buy is interrupted while the sell is still working. *)
Definition env_local_interrupted : Env :=
  with_sell_wakes [Changed sell_working; Interrupt; Changed sell_done] toy_env.

Definition toy_local_activity : BuyActivity :=
  {| key := "42"; txId := ""; identity := "buyer";
     workFile := Some {| file_handle := 1; file_data := [1; 2; 3] |};
     alive := true; lastError := None; localMatch := Some toy_sell;
     buyerSecret := None; tx := toy_tx;
     encResultFile := None; encResultHashSig := "";
     encResultKey := []; resultFile := None;
     bytesToTransfer := 0; bytesTransferred := 0 |}.

Definition retired_tx : Transaction :=
  {| tx_State := StateRetired; tx_Phase := PhaseTransmitting;
     tx_WorkerURL := Some "http://seller/"%string; tx_Seller := "seller";
     tx_ResultDecryptionKey := [] |}.

(** The seller refuses the connection and the transaction is retired
    before the UNVERIFIED phase. *)
Definition env_both_fail : Env :=
  with_post (fun _ => inl "connection refused"%string)
    (with_waitUnverified (retired_tx, Some "transaction retired"%string)
       toy_env).

Definition toy_transmitting : State := initial toy_activity 2.

(** The seller supports chunks, compression and sync info. *)
Definition env_modern : Env :=
  with_options (inr (ok_response [1; 1; 1])) toy_env.

(** A work file with more chunks than the toy bound allows. *)
Definition huge_work : File :=
  {| file_handle := 0; file_data := repeat 0 (Z.to_nat 16385) |}.

(** The activity with the huge work file, in the TRANSMITTING phase. *)
Definition toy_huge : State :=
  initial (set_workFile (Some huge_work) toy_activity) 2.

(** The activity in the TRANSMITTING phase, its secret drawn. *)
Definition toy_chunked : State :=
  initial (set_buyerSecret (Some (interval 32)) toy_activity) 2.

(** The seller answers the OPTIONS request with a server error. *)
Definition env_broken_options : Env :=
  with_options
    (inr {| StatusCode := 500; Status := "500 Internal Server Error";
            Body := ok_body []; AssistHeader := "" |})
    toy_env.

Definition toy_probing : State := toy_chunked.

(** The sync info of the toy work file for a seller with sync info. *)
Definition toy_syncinfo : SyncInfo :=
  {| si_Chunks := cafs_Chunks toy_lib [1; 2; 3];
     si_Perm := env_pseudorand_Perm toy_env 256 |}.

(** Writing the chunk data fails: the seller closed the connection. *)
Definition env_chunks_fail : Env :=
  with_producer
    (fun st => match st with
               | StepWriteChunkData => Some "io: read/write on closed pipe"%string
               | _ => None
               end)
    toy_env.

Definition toy_work : File := {| file_handle := 0; file_data := [1; 2; 3] |}.

(** The hashes of the toy buy. *)
Definition toy_workHash : Thash :=
  Eval vm_compute in cafs_Key toy_lib (file_data toy_work).

Definition toy_workSecretHash : Thash :=
  Eval vm_compute in work_secret_hash toy_lib toy_work (interval 32).

(** The coordinator refuses the clearance. *)
Definition env_not_cleared : Env :=
  with_awaitClearance (Some "insufficient funds"%string) toy_env.

(** The seller answers every request with a gateway error. *)
Definition bad_gateway : Response :=
  {| StatusCode := 502; Status := "502 Bad Gateway";
     Body := ok_body [60; 104; 49; 62]; AssistHeader := "" |}.

Definition env_bad_gateway : Env :=
  with_post (fun _ => inr bad_gateway) toy_env.

Definition with_SendEstablishBuyer (v : option error) (e : Env) : Env :=
  {| env_awaitClearance := env_awaitClearance e;
     env_sell_wakes := env_sell_wakes e;
     env_beginRemoteTrade := env_beginRemoteTrade e;
     env_rand := env_rand e;
     env_rand_error := env_rand_error e;
     env_SendEstablishBuyer := v;
     env_waitTransmitting := env_waitTransmitting e;
     env_waitUnverified := env_waitUnverified e;
     env_SendAcceptResult := env_SendAcceptResult e;
     env_finish_polls := env_finish_polls e;
     env_options := env_options e;
     env_boundary := env_boundary e;
     env_post := env_post e;
     env_SignMessage := env_SignMessage e;
     env_PostForm := env_PostForm e;
     env_pseudorand_Perm := env_pseudorand_Perm e;
     env_encrypted_plan := env_encrypted_plan e;
     env_temp_write := env_temp_write e;
     env_temp_close := env_temp_close e;
     env_producer := env_producer e;
     env_progress := env_progress e |}.

(** The coordinator refuses the establish message. *)
Definition env_establish_refused : Env :=
  with_SendEstablishBuyer (Some "bad signature"%string) toy_env.

Definition with_finisher (accept : option error) (polls : list Transaction)
    (e : Env) : Env :=
  {| env_awaitClearance := env_awaitClearance e;
     env_sell_wakes := env_sell_wakes e;
     env_beginRemoteTrade := env_beginRemoteTrade e;
     env_rand := env_rand e;
     env_rand_error := env_rand_error e;
     env_SendEstablishBuyer := env_SendEstablishBuyer e;
     env_waitTransmitting := env_waitTransmitting e;
     env_waitUnverified := env_waitUnverified e;
     env_SendAcceptResult := accept;
     env_finish_polls := polls;
     env_options := env_options e;
     env_boundary := env_boundary e;
     env_post := env_post e;
     env_SignMessage := env_SignMessage e;
     env_PostForm := env_PostForm e;
     env_pseudorand_Perm := env_pseudorand_Perm e;
     env_encrypted_plan := env_encrypted_plan e;
     env_temp_write := env_temp_write e;
     env_temp_close := env_temp_close e;
     env_producer := env_producer e;
     env_progress := env_progress e |}.

(** The coordinator does not answer the accept message. *)
Definition env_accept_refused : Env :=
  with_finisher (Some "timeout"%string) [] toy_env.

(** The poller sees the transaction active once more, then retired. *)
Definition env_retires : Env :=
  with_finisher None [toy_tx; retired_tx; toy_tx] toy_env.


(** An answer that carries one assistive download ticket. *)
Definition ticket_response : Response :=
  {| StatusCode := 200; Status := "200 OK"; Body := ok_body [];
     AssistHeader := "http://peer/t1" |}.

(** A transaction for which the seller has not published its URL. *)
Definition no_url_tx : Transaction :=
  {| tx_State := StateActive; tx_Phase := PhaseTransmitting;
     tx_WorkerURL := None; tx_Seller := "seller";
     tx_ResultDecryptionKey := [] |}.

(** * Properties *)

Unset Implicit Arguments.

(** ** The stream cipher *)

Lemma XORKeyStream_length encrypt src :
  forall x, List.length (fst (XORKeyStream encrypt x src)) = List.length src.
Proof.
  induction src as [|b src IH]; intros x; [reflexivity|].
  cbn [XORKeyStream].
  destruct (ofb_next encrypt x) as [k x1].
  specialize (IH x1). destruct (XORKeyStream encrypt x1 src) as [dst x2].
  cbn [fst List.length] in *. now f_equal.
Qed.

Lemma XORKeyStream_app encrypt a b :
  forall x,
    XORKeyStream encrypt x (a ++ b) =
    (fst (XORKeyStream encrypt x a) ++
       fst (XORKeyStream encrypt (snd (XORKeyStream encrypt x a)) b),
     snd (XORKeyStream encrypt (snd (XORKeyStream encrypt x a)) b)).
Proof.
  induction a as [|c a IH]; intros x.
  - cbn [app XORKeyStream fst snd]. now destruct (XORKeyStream encrypt x b).
  - cbn [app XORKeyStream].
    destruct (ofb_next encrypt x) as [k x1]. rewrite IH.
    destruct (XORKeyStream encrypt x1 a) as [d1 x2].
    reflexivity.
Qed.

Lemma ofb_next_at encrypt iv j :
  ofb_next encrypt (ofb_at encrypt iv j) =
  (ofb_key_byte encrypt iv j, ofb_at encrypt iv (S j)).
Proof.
  unfold ofb_next, ofb_refill, ofb_key_byte.
  destruct j as [|j'].
  - reflexivity.
  - cbn [ofb_at ofb_outUsed ofb_cipher].
    assert (Hb : BlockSize <> 0%nat) by discriminate.
    pose proof (Nat.div_mod_eq j' BlockSize) as Hj.
    pose proof (Nat.mod_upper_bound j' BlockSize Hb) as Hlt.
    pose proof (Nat.div_mod_eq (S j') BlockSize) as HSj.
    pose proof (Nat.mod_upper_bound (S j') BlockSize Hb) as HSlt.
    destruct (Nat.leb_spec BlockSize (S (j' mod BlockSize))) as [Hfull|Hroom].
    + (* the register is used up: next block *)
      assert (Hm : (j' mod BlockSize = BlockSize - 1)%nat)
        by (unfold BlockSize in *; lia).
      assert (Hq : (S j' / BlockSize = S (j' / BlockSize))%nat).
      { symmetry. apply (Nat.div_unique _ _ _ 0%nat); unfold BlockSize in *; lia. }
      assert (Hr : (S j' mod BlockSize = 0)%nat).
      { symmetry. apply (Nat.mod_unique _ _ (S (j' / BlockSize)));
          unfold BlockSize in *; lia. }
      cbn [ofb_outUsed ofb_cipher]. rewrite Hq, Hr. reflexivity.
    + assert (Hq : (S j' / BlockSize = j' / BlockSize)%nat).
      { symmetry. apply (Nat.div_unique _ _ _ (S (j' mod BlockSize)));
          unfold BlockSize in *; lia. }
      assert (Hr : (S j' mod BlockSize = S (j' mod BlockSize))%nat).
      { symmetry. apply (Nat.mod_unique _ _ (j' / BlockSize));
          unfold BlockSize in *; lia. }
      cbn [ofb_outUsed ofb_cipher]. rewrite Hq, Hr. reflexivity.
Qed.

(** The stream of the library computes output feedback mode. *)
Lemma XORKeyStream_at encrypt iv src :
  forall j,
    XORKeyStream encrypt (ofb_at encrypt iv j) src =
    (ofb_xor_from encrypt iv j src,
     ofb_at encrypt iv (j + List.length src)).
Proof.
  induction src as [|b src IH]; intros j.
  - simpl. now rewrite Nat.add_0_r.
  - cbn [XORKeyStream ofb_xor_from List.length].
    rewrite ofb_next_at, IH. now rewrite Nat.add_succ_r.
Qed.

Lemma XORKeyStream_OFB encrypt iv src :
  fst (XORKeyStream encrypt (NewOFB iv) src) = OFB_encrypt encrypt iv src.
Proof.
  change (NewOFB iv) with (ofb_at encrypt iv 0).
  now rewrite XORKeyStream_at.
Qed.

Lemma ofb_xor_from_involutive encrypt iv src :
  forall j,
    ofb_xor_from encrypt iv j (ofb_xor_from encrypt iv j src) = src.
Proof.
  induction src as [|b src IH]; intros j; simpl; [reflexivity|].
  rewrite IH. f_equal.
  now rewrite Z.lxor_assoc, Z.lxor_nilpotent, Z.lxor_0_r.
Qed.

Lemma OFB_encrypt_involutive encrypt iv src :
  OFB_encrypt encrypt iv (OFB_encrypt encrypt iv src) = src.
Proof. apply ofb_xor_from_involutive. Qed.

(** ** Readers and [io.Copy] *)

Lemma io_Copy_no_write_error wr :
  (forall j, wr j = None) ->
  forall r i written,
    io_Copy wr r i written = (written ++ reads_data r, reads_error r).
Proof.
  intros Hwr. induction r as [|[chunk|e] r IH]; intros i written.
  - simpl. now rewrite app_nil_r.
  - destruct chunk as [|b chunk].
    + cbn [io_Copy reads_data reads_error app]. apply IH.
    + cbn [io_Copy reads_data reads_error]. rewrite Hwr, IH.
      now rewrite <- app_assoc.
  - simpl. now rewrite app_nil_r.
Qed.

Lemma file_reads_succeeds plan :
  plan_succeeds plan = true ->
  forall d,
    reads_data (file_reads plan d) = d /\
    reads_error (file_reads plan d) = None.
Proof.
  induction plan as [|[n|e] plan IH]; intros Hok d.
  - destruct d; simpl; [easy|]. now rewrite app_nil_r.
  - cbn [file_reads reads_data reads_error].
    destruct (IH Hok (skipn n d)) as [Hd He].
    rewrite Hd, He. split; [apply firstn_skipn|reflexivity].
  - discriminate.
Qed.

Lemma StreamReader_error encrypt r :
  forall x, reads_error (StreamReader encrypt x r) = reads_error r.
Proof.
  induction r as [|[chunk|e] r IH]; intros x; cbn [StreamReader].
  - reflexivity.
  - destruct (XORKeyStream encrypt x chunk) as [dst x']. apply IH.
  - reflexivity.
Qed.

Lemma StreamReader_data encrypt r :
  reads_error r = None ->
  forall x,
    reads_data (StreamReader encrypt x r) =
    fst (XORKeyStream encrypt x (reads_data r)).
Proof.
  induction r as [|[chunk|e] r IH]; intros Hok x;
    cbn [StreamReader reads_data].
  - reflexivity.
  - rewrite XORKeyStream_app. cbn [fst].
    destruct (XORKeyStream encrypt x chunk) as [dst x'].
    cbn [reads_data fst snd]. f_equal. now apply IH.
  - discriminate.
Qed.

(** ** [decryptResult] *)

Lemma aes_NewCipher_256 lib k :
  List.length k = 32%nat -> aes_NewCipher lib k = inr (aes_Encrypt lib k).
Proof. intros H. unfold aes_NewCipher. now rewrite H. Qed.

Lemma decrypted_copy_succeeds lib env k f :
  plan_succeeds (env_encrypted_plan env) = true ->
  (forall i, env_temp_write env TempResult i = None) ->
  decrypted_copy lib env k f =
  (OFB_encrypt (aes_Encrypt lib k) zero_iv (file_data f), None).
Proof.
  intros Hplan Hwr. unfold decrypted_copy.
  destruct (file_reads_succeeds _ Hplan (file_data f)) as [Hd He].
  rewrite (io_Copy_no_write_error _ Hwr), StreamReader_error, He.
  rewrite (StreamReader_data _ _ He), Hd, XORKeyStream_OFB.
  reflexivity.
Qed.

Ltac norm_trace := repeat rewrite <- app_assoc; cbn [app].

Ltac run_act :=
  cbv beta iota delta
    [bind ret emit get_act execSync fresh_handle defer_ deref panic block log
     file_Duplicate file_Open storage_Create temp_Close temp_File
     temp_Dispose body_Close awaitClearance beginRemoteTrade
     returnTransmissionToken waitForTransactionPhase
     SendTxMessageEstablishBuyer SendTxMessageAcceptResult step];
  cbn [act next_handle trace fst snd].

(** The runs of [decryptResult], case by case. *)
Lemma decryptResult_run lib env s :
  decryptResult lib env s =
  match aes_NewCipher lib (encResultKey (act s)) with
  | inl err => (Returned (Some err), s)
  | inr _ =>
      let id := next_handle s in
      let create :=
        EvCreateTemp id ("Buy #" +s+ key (act s) +s+ ": result") in
      match encResultFile (act s) with
      | None =>
          (Panicked nil_dereference,
           {| act := act s; next_handle := S id;
              trace := trace s ++ [create; EvDisposeTemp id] |})
      | Some f =>
          let copied := decrypted_copy lib env (encResultKey (act s)) f in
          match snd copied with
          | Some err =>
              (Returned (Some err),
               {| act := act s; next_handle := S id;
                  trace := trace s ++
                    [create; EvOpen f; EvCloseFileReader f;
                     EvDisposeTemp id] |})
          | None =>
              match env_temp_close env TempResult with
              | Some err =>
                  (Returned (Some err),
                   {| act := act s; next_handle := S id;
                      trace := trace s ++
                        [create; EvOpen f; EvCloseTemp id;
                         EvCloseFileReader f; EvDisposeTemp id] |})
              | None =>
                  let rf := {| file_handle := S id;
                               file_data := fst copied |} in
                  (Returned None,
                   {| act := set_resultFile (Some rf) (act s);
                      next_handle := S (S id);
                      trace := trace s ++
                        [create; EvOpen f; EvCloseTemp id; EvTempFile id rf;
                         EvCloseFileReader f; EvDisposeTemp id] |})
              end
          end
      end
  end.
Proof.
  unfold decryptResult, decrypted_copy, aes_NewCipher.
  destruct s as [a h t]. run_act.
  destruct ((_ =? 16)%nat || _ || _); run_act; [|reflexivity].
  destruct (encResultFile a) as [f|]; run_act; norm_trace; [|reflexivity].
  match goal with |- context [io_Copy ?w ?r ?i ?l] =>
    destruct (snd (io_Copy w r i l)) end; run_act; norm_trace; [reflexivity|].
  destruct (env_temp_close env TempResult); run_act; norm_trace; reflexivity.
Qed.

Lemma decrypt_failure_copy lib env k f :
  decrypt_failure lib env k f =
  match aes_NewCipher lib k with
  | inl err => Some err
  | inr _ =>
      match snd (decrypted_copy lib env k f) with
      | Some err => Some err
      | None => env_temp_close env TempResult
      end
  end.
Proof.
  unfold decrypt_failure, decrypted_copy, aes_NewCipher.
  now destruct ((_ =? 16)%nat || _ || _).
Qed.

Lemma decryptResult_returns lib env s :
  fst (decryptResult lib env s) <> Blocked.
Proof.
  rewrite decryptResult_run. cbv zeta.
  destruct (aes_NewCipher lib (encResultKey (act s))); [discriminate|].
  destruct (encResultFile (act s)) as [f|]; [|discriminate].
  destruct (snd (decrypted_copy lib env (encResultKey (act s)) f));
    [discriminate|].
  destruct (env_temp_close env TempResult); discriminate.
Qed.

(** C7.  Round trip of AES-256 in output feedback mode with a zero
    initialization vector: when the encrypted result file holds the
    encryption of [P] under the 32-byte key [K] and neither the store nor
    the file fails, [decryptResult] returns without error and the result
    file it installs holds exactly [P], however the file is read in
    pieces. *)
Theorem decryptResult_roundtrip lib env s K P f :
  List.length K = 32%nat ->
  encResultKey (act s) = K ->
  encResultFile (act s) = Some f ->
  file_data f = OFB_encrypt (aes_Encrypt lib K) zero_iv P ->
  plan_succeeds (env_encrypted_plan env) = true ->
  (forall i, env_temp_write env TempResult i = None) ->
  env_temp_close env TempResult = None ->
  exists rf,
    fst (decryptResult lib env s) = Returned None /\
    resultFile (act (snd (decryptResult lib env s))) = Some rf /\
    file_data rf = P.
Proof.
  intros HK Hkey Hfile Hdata Hplan Hwr Hclose.
  rewrite decryptResult_run, Hkey, Hfile, (aes_NewCipher_256 _ _ HK).
  cbv zeta. rewrite (decrypted_copy_succeeds _ _ _ _ Hplan Hwr), Hclose.
  cbn [fst snd act resultFile set_resultFile].
  eexists. split; [reflexivity|]. split; [reflexivity|].
  cbn [file_data]. rewrite Hdata. apply OFB_encrypt_involutive.
Qed.

(** C10.  [decryptResult] and the [resultFile] field.  For an encrypted
    result file [f]: when making the cipher, copying the decrypted bytes or
    closing the temporary fails, [decryptResult] returns that error, the
    activity is left as it was and every temporary it created is disposed;
    otherwise it returns nil, and the file installed as [resultFile] is
    taken from the temporary after the temporary was closed. *)
Theorem decryptResult_atomic lib env s f :
  encResultFile (act s) = Some f ->
  let r := decryptResult lib env s in
  let id := next_handle s in
  match decrypt_failure lib env (encResultKey (act s)) f with
  | Some err =>
      fst r = Returned (Some err) /\
      act (snd r) = act s /\
      exists l, trace (snd r) = trace s ++ l /\ temps_disposed l /\
                forall t rf, ~ In (EvTempFile t rf) l
  | None =>
      fst r = Returned None /\
      exists rf l1 l2 l3,
        act (snd r) = set_resultFile (Some rf) (act s) /\
        trace (snd r) =
          trace s ++ l1 ++ EvCloseTemp id :: l2 ++ EvTempFile id rf :: l3 /\
        ~ In (EvTempFile id rf) (l1 ++ l2) /\
        In (EvDisposeTemp id) l3
  end.
Proof.
  intros Hfile r id. subst r id.
  rewrite decrypt_failure_copy, decryptResult_run, Hfile.
  destruct (aes_NewCipher lib (encResultKey (act s))) as [err|blk].
  - split; [reflexivity|]. split; [reflexivity|].
    exists []. rewrite app_nil_r. repeat split; intros; easy.
  - cbv zeta.
    destruct (snd (decrypted_copy lib env (encResultKey (act s)) f)) as [err|].
    + cbn [fst snd act trace]. repeat split.
      eexists. split; [reflexivity|]. split.
      * intros t info [H|[H|[H|[H|[]]]]]; inversion H; subst.
        cbn. tauto.
      * intros t rf [H|[H|[H|[H|[]]]]]; inversion H.
    + destruct (env_temp_close env TempResult) as [err|].
      * cbn [fst snd act trace]. repeat split.
        eexists. split; [reflexivity|]. split.
        -- intros t info [H|[H|[H|[H|[H|[]]]]]]; inversion H; subst.
           cbn. tauto.
        -- intros t rf [H|[H|[H|[H|[H|[]]]]]]; inversion H.
      * cbn [fst snd act trace]. split; [reflexivity|].
        eexists _, [_; _], [], [_; _]. split; [reflexivity|].
        split; [reflexivity|]. split.
        -- intros [H|[H|[]]]; inversion H.
        -- cbn. tauto.
Qed.

Lemma decryptResult_roundtrip_witness :
  exists rf,
    fst (decryptResult toy_lib toy_env toy_decrypting) = Returned None /\
    resultFile (act (snd (decryptResult toy_lib toy_env toy_decrypting)))
      = Some rf /\
    file_data rf = toy_plain.
Proof.
  apply (decryptResult_roundtrip toy_lib toy_env toy_decrypting toy_key
           toy_plain toy_cipher_file); try reflexivity.
Defined.

Lemma decryptResult_atomic_witness :
  fst (decryptResult toy_lib toy_env toy_decrypting) = Returned None /\
  exists rf l1 l2 l3,
    act (snd (decryptResult toy_lib toy_env toy_decrypting)) =
      set_resultFile (Some rf) (act toy_decrypting) /\
    trace (snd (decryptResult toy_lib toy_env toy_decrypting)) =
      trace toy_decrypting ++
      l1 ++ EvCloseTemp 6 :: l2 ++ EvTempFile 6 rf :: l3 /\
    ~ In (EvTempFile 6 rf) (l1 ++ l2) /\
    In (EvDisposeTemp 6) l3.
Proof.
  exact (decryptResult_atomic toy_lib toy_env toy_decrypting toy_cipher_file
           eq_refl).
Defined.

(** ** Rules for [steps] *)

Section Steps.

Variable R : BuyActivity -> BuyActivity -> Prop.
Variable P : Event -> Prop.
Context {R_pre : PreOrder R}.

Lemma related_refl s : related R P s s.
Proof.
  split; [reflexivity|]. exists []. now rewrite app_nil_r.
Qed.

Lemma related_trans s1 s2 s3 :
  related R P s1 s2 -> related R P s2 s3 -> related R P s1 s3.
Proof.
  intros [Ha (l1 & Ht1 & Hl1)] [Hb (l2 & Ht2 & Hl2)]. split.
  - now transitivity (act s2).
  - exists (l1 ++ l2). rewrite Ht2, Ht1, app_assoc. split; [reflexivity|].
    apply Forall_app. now split.
Qed.

Lemma related_In s s' e :
  related R P s s' -> In e (trace s') -> In e (trace s) \/ P e.
Proof.
  intros [_ (l & Ht & Hl)] Hin. rewrite Ht in Hin.
  apply in_app_or in Hin. destruct Hin as [Hin|Hin]; [now left|right].
  rewrite Forall_forall in Hl. now apply Hl.
Qed.

Lemma steps_ret {A} (a : A) : steps R P (ret a).
Proof. intros s. apply related_refl. Qed.

Lemma steps_panic {A} msg : steps R P (@panic A msg).
Proof. intros s. apply related_refl. Qed.

Lemma steps_block {A} : steps R P (@block A).
Proof. intros s. apply related_refl. Qed.

Lemma steps_get_act : steps R P get_act.
Proof. intros s. apply related_refl. Qed.

Lemma steps_fresh_handle : steps R P fresh_handle.
Proof.
  intros s. split; [reflexivity|]. exists []. cbn. now rewrite app_nil_r.
Qed.

Lemma steps_emit e : P e -> steps R P (emit e).
Proof.
  intros He s. split; [reflexivity|]. exists [e]. cbn. split; [reflexivity|].
  now constructor.
Qed.

Lemma steps_execSync f : (forall a, R a (f a)) -> steps R P (execSync f).
Proof.
  intros Hf s. split; [apply Hf|]. exists []. cbn. now rewrite app_nil_r.
Qed.

Lemma steps_deref {A} (p : option A) : steps R P (deref p).
Proof. destruct p; [apply steps_ret|apply steps_panic]. Qed.

Lemma steps_bind {A B} (m : Act A) (k : A -> Act B) :
  steps R P m -> (forall a, steps R P (k a)) -> steps R P (bind m k).
Proof.
  intros Hm Hk s. unfold bind. specialize (Hm s).
  destruct (m s) as [[a|msg|] s1]; cbn [snd] in *; try assumption.
  eapply related_trans; [exact Hm|apply Hk].
Qed.

Lemma steps_defer {A} (d : Act unit) (body : Act A) :
  steps R P d -> steps R P body -> steps R P (defer_ d body).
Proof.
  intros Hd Hb s. unfold defer_. specialize (Hb s).
  destruct (body s) as [[a|msg|] s1]; cbn [snd] in *; try assumption.
  - specialize (Hd s1). destruct (d s1) as [[u|m|] s2]; cbn [snd] in *;
      eapply related_trans; eassumption.
  - specialize (Hd s1). destruct (d s1) as [[u|m|] s2]; cbn [snd] in *;
      eapply related_trans; eassumption.
Qed.

End Steps.

#[export] Instance keeps_pre {X} (proj : BuyActivity -> X) : PreOrder (keeps proj).
Proof.
  split; [intros a; reflexivity|].
  intros a b c Hab Hbc. unfold keeps in *. congruence.
Qed.

Ltac steps_prim :=
  match goal with
  | |- steps _ _ (ret _) => apply steps_ret
  | |- steps _ _ (panic _) => apply steps_panic
  | |- steps _ _ block => apply steps_block
  | |- steps _ _ get_act => apply steps_get_act
  | |- steps _ _ fresh_handle => apply steps_fresh_handle
  | |- steps _ _ (deref _) => apply steps_deref
  | |- steps _ _ (emit _) => apply steps_emit
  | |- steps _ _ (execSync _) => apply steps_execSync
  | |- steps _ _ (bind _ _) => apply steps_bind
  | |- steps _ _ (defer_ _ _) => apply steps_defer
  | |- steps _ _ ((fun _ => _) _) => cbv beta
  end;
  try match goal with |- PreOrder _ => typeclasses eauto end.

Ltac steps_case :=
  match goal with
  | |- steps _ _ (match ?x with _ => _ end) => destruct x
  | |- steps _ _ (if ?x then _ else _) => destruct x
  | |- steps _ _ (let (_, _) := ?x in _) => destruct x
  | |- forall _, _ => intros ?
  end.

Ltac steps_go tac :=
  repeat first [ solve [tac] | steps_prim | steps_case ].

Ltac event_cases e :=
  destruct e;
  repeat match goal with
         | g : Goroutine |- _ => destruct g
         | k : PostKind |- _ => destruct k
         | b : bool |- _ => destruct b
         end;
  cbn in *; try congruence; try tauto.

(** ** The contact with the seller, step by step *)

Section SellerSteps.

Variable lib : Lib.
Variable env : Env.
Variable R : BuyActivity -> BuyActivity -> Prop.
Variable P : Event -> Prop.
Context {R_pre : PreOrder R}.

Hypothesis R_encResultFile : forall v a, R a (set_encResultFile v a).
Hypothesis R_encResultHashSig : forall v a, R a (set_encResultHashSig v a).

Lemma steps_mustGetSellerId : steps R P (mustGetSellerId lib).
Proof. unfold mustGetSellerId. steps_go idtac. Qed.

Lemma steps_postToSeller kind contentType compressed :
  (forall url, P (EvPost kind url contentType compressed)) ->
  P EvCloseBody ->
  steps R P (postToSeller lib env kind contentType compressed).
Proof.
  intros Hpost Hclose. unfold postToSeller, body_Close.
  steps_go ltac:(auto).
Qed.

Lemma steps_signReceipt :
  (forall m, P (EvSignMessage m)) -> (forall u h g, P (EvPostForm u h g)) ->
  steps R P (signReceipt lib env).
Proof.
  intros Hsign Hform. unfold signReceipt. steps_go ltac:(auto).
Qed.

Section Linear.

Hypothesis P_linear : forall e, linear_event e = true -> P e.

Lemma steps_transmitWorkLinear : steps R P (transmitWorkLinear lib env).
Proof.
  unfold transmitWorkLinear.
  steps_go ltac:(first [ apply P_linear; reflexivity
                       | apply steps_postToSeller; intros;
                         apply P_linear; reflexivity ]).
Qed.

Lemma steps_receiveEncryptedResult response transmissionError :
  steps R P (receiveEncryptedResult lib env response transmissionError).
Proof.
  unfold receiveEncryptedResult, log, body_Close, storage_Create,
    temp_Dispose, temp_Close, temp_File.
  steps_go ltac:(first [ apply P_linear; reflexivity
                       | apply R_encResultFile
                       | apply steps_signReceipt; intros;
                         apply P_linear; reflexivity ]).
Qed.

End Linear.

Section SyncRest.

Hypothesis P_rest : forall e, sync_rest_event e = true -> P e.

Lemma steps_newTickets sellerId tickets :
  forall i, steps R P (newTickets sellerId i tickets).
Proof.
  induction tickets as [|ticket rest IH]; intros i; cbn [newTickets].
  - steps_go idtac.
  - unfold log. steps_go ltac:(first [apply P_rest; reflexivity | apply IH]).
Qed.

Lemma steps_receiveAssistiveDownloadTickets response :
  steps R P (receiveAssistiveDownloadTickets lib response).
Proof.
  unfold receiveAssistiveDownloadTickets, log.
  steps_go ltac:(first [ apply P_rest; reflexivity
                       | apply steps_mustGetSellerId
                       | apply steps_newTickets ]).
Qed.

Lemma steps_sendMissingChunksAndReturnResult wishList compressed syncinfo :
  steps R P
    (sendMissingChunksAndReturnResult lib env wishList compressed syncinfo).
Proof.
  unfold sendMissingChunksAndReturnResult.
  steps_go ltac:(first [ apply P_rest; reflexivity
                       | apply steps_postToSeller; intros;
                         apply P_rest; reflexivity ]).
Qed.

(** [requestMissingChunks] once its producer is started. *)
Lemma steps_postSyncInfo compressed :
  steps R P
    (r <- postToSeller lib env PostSyncInfo
            (FormDataContentType env PostSyncInfo) compressed ;;
     match snd r with
     | Some err =>
         ret (None, Some ("Error sending work sync data to seller: " +s+ err))
     | None =>
         resp <- deref (fst r) ;;
         receiveAssistiveDownloadTickets lib resp ;;
         ret (Some (Body resp), None)
     end)%act.
Proof.
  steps_go ltac:(first [ apply steps_receiveAssistiveDownloadTickets
                       | apply steps_postToSeller; intros;
                         apply P_rest; reflexivity ]).
Qed.

(** [transmitSyncInfo] once the wish list is requested. *)
Lemma steps_sendAfterRequest compressed syncinfo
    (r : option ReadCloser * option error) :
  steps R P
    match snd r with
    | Some err =>
        ret (None, Some ("Transmitting work (chunked) failed: " +s+ err))
    | None =>
        (r <- deref (fst r) ;;
         defer_ (body_Close r ;; ret tt)
           (sendMissingChunksAndReturnResult lib env (rc_reads r) compressed
              syncinfo))%act
    end.
Proof.
  unfold body_Close.
  steps_go ltac:(first [ apply P_rest; reflexivity
                       | apply steps_sendMissingChunksAndReturnResult ]).
Qed.

End SyncRest.

Lemma sync_rest_sync e : sync_rest_event e = true -> sync_event e = true.
Proof. intros H. event_cases e. Qed.

Section Sync.

Hypothesis P_sync : forall e, sync_event e = true -> P e.

Lemma steps_requestMissingChunks syncinfo legacy compressed :
  steps R P (requestMissingChunks lib env syncinfo legacy compressed).
Proof.
  unfold requestMissingChunks.
  steps_go ltac:(first [ apply P_sync; reflexivity
                       | apply steps_postSyncInfo; intros;
                         apply P_sync, sync_rest_sync; assumption ]).
Qed.

Lemma steps_transmitSyncInfo syncinfo compressed legacy :
  steps R P (transmitSyncInfo lib env syncinfo compressed legacy).
Proof.
  unfold transmitSyncInfo.
  apply steps_bind; [typeclasses eauto|apply steps_requestMissingChunks|].
  intros r. apply steps_sendAfterRequest. intros.
  apply P_sync, sync_rest_sync; assumption.
Qed.

End Sync.

Lemma linear_seller_event e : linear_event e = true -> seller_event e = true.
Proof. intros H. event_cases e. Qed.

Lemma sync_seller_event e : sync_event e = true -> seller_event e = true.
Proof. intros H. event_cases e. Qed.

Section Seller.

Hypothesis P_seller : forall e, seller_event e = true -> P e.

Lemma steps_transmitWorkChunked compressed legacy :
  steps R P (transmitWorkChunked lib env compressed legacy).
Proof.
  unfold transmitWorkChunked, transmitChunks.
  steps_go ltac:(first [ apply P_seller; reflexivity
                       | apply steps_mustGetSellerId
                       | apply steps_transmitSyncInfo; intros;
                         apply P_seller, sync_seller_event; assumption ]).
Qed.

Lemma steps_testSellerForCapabilities :
  steps R P (testSellerForCapabilities lib env).
Proof.
  unfold testSellerForCapabilities, body_Close.
  steps_go ltac:(apply P_seller; reflexivity).
Qed.

Lemma steps_probeSeller : steps R P (probeSeller lib env).
Proof.
  unfold probeSeller, log.
  steps_go ltac:(first [ apply P_seller; reflexivity
                       | apply steps_testSellerForCapabilities ]).
Qed.

Lemma steps_interactWithSeller : steps R P (interactWithSeller lib env).
Proof.
  unfold interactWithSeller.
  steps_go ltac:(first [ apply P_seller; reflexivity
                       | apply steps_probeSeller
                       | apply steps_transmitWorkChunked
                       | apply steps_transmitWorkLinear; intros;
                         apply P_seller, linear_seller_event; assumption
                       | apply steps_receiveEncryptedResult; intros;
                         apply P_seller, linear_seller_event; assumption ]).
Qed.

End Seller.

End SellerSteps.

(** ** The [alive] flag *)

(** The deferred call of [PerformBuy]. *)
Lemma defer_clears_alive {A} (body : Act A) s :
  let r := defer_ (execSync (set_alive false) ;; log "Buy finished") body s in
  fst r <> Blocked -> alive (act (snd r)) = false.
Proof.
  unfold defer_. destruct (body s) as [[a|msg|] s1]; run_act; cbn; congruence.
Qed.

(** Waiting for the transaction to leave the active state does not touch
    the flag. *)
Lemma waitWhile_alive polls pred :
  forall s, alive (act (snd (waitWhile polls pred s))) = alive (act s).
Proof.
  induction polls as [|t polls IH]; intros s; cbn [waitWhile]; run_act.
  - now destruct (pred (act s)).
  - destruct (pred (act s)); [|reflexivity]. now rewrite IH.
Qed.

Lemma finishBuy_alive env s :
  let r := finishBuy env s in
  (fst r = Returned None -> alive (act (snd r)) = false) /\
  (alive (act s) = false -> alive (act (snd r)) = false).
Proof.
  unfold finishBuy. run_act.
  destruct (env_SendAcceptResult env); run_act; [split; [discriminate|auto]|].
  set (w := waitWhile _ _ _).
  assert (Hw : alive (act (snd w)) = alive (act s))
    by (subst w; now rewrite waitWhile_alive).
  destruct w as [[u|msg|] s1]; cbn [fst snd act trace] in *;
    split; try discriminate; try congruence; reflexivity.
Qed.

(** C9.  The [alive] flag is false whenever [PerformBuy] returns, with a
    file or with an error (and also when it panics); [PerformBuy] only fails
    to get there when it blocks forever.  The finalizer started by a
    successful remote buy clears the flag as well when it completes, and
    never sets it. *)
Theorem PerformBuy_clears_alive lib env workFile s :
  let r := PerformBuy lib env workFile s in
  (fst r <> Blocked -> alive (act (snd r)) = false) /\
  (forall s',
     let f := finishBuy_goroutine env s' in
     (fst (finishBuy env s') = Returned None ->
      alive (act (snd f)) = false) /\
     (alive (act s') = false -> alive (act (snd f)) = false)).
Proof.
  split.
  - unfold PerformBuy.
    set (body := bind (doPerformBuy lib env) _).
    set (d := bind (execSync (set_alive false)) _).
    run_act. subst d. apply defer_clears_alive.
  - intros s' f. subst f. unfold finishBuy_goroutine.
    pose proof (finishBuy_alive env s') as [H1 H2].
    unfold bind. destruct (finishBuy env s') as [[[err|]|msg|] s1];
      cbn [fst snd] in *; run_act; auto.
Qed.

(** ** The local buy *)

(** The wait of [doLocalBuy], wake-up by wake-up. *)
Lemma doLocalBuy_wait lib wakes :
  forall s,
    interruptibleWaitWhile lib wakes
      (fun st (resultFile : option File) =>
         if sell_alive st && is_nil (sell_resultFile st) then
           ret (true, resultFile)
         else
           match sell_resultFile st with
           | Some rf => d <- file_Duplicate rf ;; ret (false, Some d)
           | None => ret (false, resultFile)
           end)%act
      None s =
    match wait_outcome wakes with
    | EndResult rf =>
        let d := {| file_handle := next_handle s;
                    file_data := file_data rf |} in
        (Returned (None, Some d),
         {| act := act s; next_handle := S (next_handle s);
            trace := trace s ++ [EvDuplicate rf d] |})
    | EndDied => (Returned (None, None), s)
    | EndInterrupted => (Returned (Some (ErrInterrupted lib), None), s)
    | EndNever => (Blocked, s)
    end.
Proof.
  induction wakes as [|[|st] wakes IH]; intros s;
    cbn [interruptibleWaitWhile wait_outcome]; try reflexivity.
  destruct st as [al [rf|]]; cbn [sell_alive sell_resultFile is_nil].
  - rewrite andb_false_r. now destruct s.
  - destruct al; cbn [andb]; run_act; [apply IH|reflexivity].
Qed.

(** C8, as amended.  [doLocalBuy] goes through the wake-ups of its wait up
    to the first one that ends it.  When the sell has a result file then,
    it returns a duplicate of it, a new handle on the same content, stored
    as [resultFile] as well; when the sell is dead without a result, it
    fails with the error of a sell that produced no result; when the buy is
    interrupted first, it fails with the error of the wait and the activity
    is left as it was; as long as none of these happens, it does not
    return. *)
Theorem doLocalBuy_outcome lib env sell s :
  doLocalBuy lib env sell s =
  match wait_outcome (env_sell_wakes env) with
  | EndResult rf =>
      let d := {| file_handle := next_handle s;
                  file_data := file_data rf |} in
      (Returned (Some d, None),
       {| act := set_resultFile (Some d) (act s);
          next_handle := S (next_handle s);
          trace := trace s ++ [EvDuplicate rf d] |})
  | EndDied =>
      (Returned
         (None, Some ("Sell didn't produce a result: #" +s+ sell_key sell)),
       s)
  | EndInterrupted =>
      (Returned
         (None,
          Some ("Error waiting for local sell to complete: " +s+
                ErrInterrupted lib)),
       s)
  | EndNever => (Blocked, s)
  end.
Proof.
  unfold doLocalBuy. unfold bind at 1. rewrite doLocalBuy_wait.
  destruct (wait_outcome (env_sell_wakes env)); run_act; reflexivity.
Qed.

(** C8, as stated, fails when the buy is interrupted: the local buy ends
    while the sell is alive and has no result yet, with an error that is not
    the one of a sell without result. *)
Lemma doLocalBuy_interrupted :
  ~ local_buy_ends_with_sell (env_sell_wakes env_local_interrupted) toy_sell
      (doLocalBuy toy_lib env_local_interrupted toy_sell
         (initial toy_local_activity 2)).
Proof.
  unfold local_buy_ends_with_sell. vm_compute. intros [H _]. discriminate H.
Qed.

(** On a buy that is not interrupted, the local buy ends as stated. *)
Example doLocalBuy_success :
  local_buy_ends_with_sell (env_sell_wakes env_local_success) toy_sell
    (doLocalBuy toy_lib env_local_success toy_sell
       (initial toy_local_activity 2)).
Proof.
  unfold local_buy_ends_with_sell. vm_compute. split; [reflexivity|].
  exists sell_done, toy_result. repeat split; auto. discriminate.
Qed.

(** ** The failures of the TRANSMITTING phase *)

Lemma append_assoc (a b c : string) : (a +s+ b) +s+ c = a +s+ b +s+ c.
Proof. induction a as [|x a IH]; cbn; [reflexivity|now rewrite IH]. Qed.

Lemma contains_suffix (pre sub : string) : contains (pre +s+ sub) sub.
Proof.
  exists pre, ""%string. f_equal.
  induction sub as [|x sub IH]; cbn; [reflexivity|now rewrite <- IH].
Qed.

Lemma contains_prefix (sub post : string) : contains (sub +s+ post) sub.
Proof. now exists ""%string, post. Qed.

Lemma contains_append_l (s sub post : string) :
  contains s sub -> contains (s +s+ post) sub.
Proof.
  intros (pre & post' & ->). exists pre, (post' +s+ post).
  now rewrite !append_assoc.
Qed.

Lemma contains_append_r (s sub pre : string) :
  contains s sub -> contains (pre +s+ s) sub.
Proof.
  intros (pre' & post & ->). exists (pre +s+ pre'), post.
  now rewrite !append_assoc.
Qed.

(** The four cases of [transmitAndDecrypt]. *)
Lemma transmitAndDecrypt_cases lib env s ierr s1 :
  interactWithSeller lib env s = (Returned ierr, s1) ->
  let perr := snd (env_waitUnverified env) in
  let s2 := after_wait_unverified env s1 in
  let r := transmitAndDecrypt lib env s in
  match ierr, perr with
  | Some e1, None => r = (Returned (None, Some (seller_failure e1)), s2)
  | None, Some e2 => r = (Returned (None, Some (phase_failure e2)), s2)
  | Some e1, Some e2 =>
      exists msg,
        r = (Returned (None, Some msg), s2) /\
        msg = phase_failure e2 +s+ ". Additionally: " +s+ seller_failure e1 /\
        contains msg (seller_failure e1) /\ contains msg (phase_failure e2) /\
        contains msg e1 /\ contains msg e2
  | None, None => r = decryptAndReturn lib env s2
  end.
Proof.
  intros Hi perr s2 r. subst perr s2 r.
  assert (Hrun : transmitAndDecrypt lib env s =
                 (let seller := match ierr with
                                | Some e1 => Some (seller_failure e1)
                                | None => None
                                end in
                  let phase := match snd (env_waitUnverified env) with
                               | Some e2 => Some (phase_failure e2)
                               | None => None
                               end in
                  if is_nil seller && is_nil phase
                  then decryptAndReturn lib env
                  else if is_nil seller then ret (None, phase)
                  else if is_nil phase then ret (None, seller)
                  else ret (None,
                            Some (fmt_err phase +s+ ". Additionally: " +s+
                                  fmt_err seller)))
                   (after_wait_unverified env s1)).
  { unfold transmitAndDecrypt. unfold bind at 1. rewrite Hi. reflexivity. }
  rewrite Hrun. clear Hrun Hi.
  destruct ierr as [e1|], (snd (env_waitUnverified env)) as [e2|];
    cbn [is_nil andb fmt_err]; try reflexivity.
  eexists. split; [reflexivity|]. split; [reflexivity|].
  pose proof (contains_suffix
                "Error transmitting work and receiving encrypted result: "
                e1) as He1.
  pose proof (contains_suffix "Error awaiting UNVERIFIED phase: " e2) as He2.
  fold (seller_failure e1) in He1. fold (phase_failure e2) in He2.
  repeat split.
  - apply contains_append_r, contains_suffix.
  - apply contains_prefix.
  - apply contains_append_r, contains_append_r, He1.
  - apply contains_append_l, He2.
Qed.


(** [doRemoteBuy] up to the TRANSMITTING phase. *)
Lemma doRemoteBuy_transmitting lib env s wf secret :
  env_beginRemoteTrade env = None ->
  draw_secret env = inr secret ->
  workFile (act s) = Some wf ->
  env_SendEstablishBuyer env = None ->
  snd (env_waitTransmitting env) = None ->
  doRemoteBuy lib env s =
  match transmitAndDecrypt lib env (transmitting_state lib env s wf secret) with
  | (Blocked, s') => (Blocked, s')
  | (o, s') => (o, remote_buy_exit s')
  end.
Proof.
  intros Hb Hd Hw He Ht. unfold doRemoteBuy. run_act.
  rewrite Hb, Hd. run_act. cbn [workFile set_buyerSecret]. rewrite Hw.
  run_act. unfold establishAndTransmit. run_act. rewrite He, Ht.
  cbn [txId identity set_buyerSecret].
  match goal with
  | |- context [transmitAndDecrypt lib env ?st] =>
      replace st with (transmitting_state lib env s wf secret)
  end.
  - unfold remote_buy_exit.
    destruct (transmitAndDecrypt lib env _) as [[v|msg|] s']; run_act;
      norm_trace; reflexivity.
  - unfold transmitting_state, work_secret_hash, file_Key, hash_Sum,
      hash_Write, sha256_New.
    cbn [app act next_handle trace]. norm_trace. reflexivity.
Qed.

(** ** The remote buy after the establish message, step by step *)

Lemma seller_not_establish e :
  seller_event e = true -> is_establish e = false.
Proof. intros H. event_cases e. Qed.

Section RemoteSteps.

Variable lib : Lib.
Variable env : Env.
Variable R : BuyActivity -> BuyActivity -> Prop.
Variable P : Event -> Prop.
Context {R_pre : PreOrder R}.

Hypothesis R_tx : forall v a, R a (set_tx v a).
Hypothesis R_encResultFile : forall v a, R a (set_encResultFile v a).
Hypothesis R_encResultHashSig : forall v a, R a (set_encResultHashSig v a).
Hypothesis R_encResultKey : forall v a, R a (set_encResultKey v a).
Hypothesis R_resultFile : forall v a, R a (set_resultFile v a).
Hypothesis P_other : forall e, is_establish e = false -> P e.

Lemma steps_decryptResult : steps R P (decryptResult lib env).
Proof.
  unfold decryptResult, storage_Create, temp_Dispose, file_Open, temp_Close,
    temp_File.
  steps_go ltac:(first [apply P_other; reflexivity | apply R_resultFile]).
Qed.

Lemma steps_waitForTransactionPhase target transient answer :
  steps R P (waitForTransactionPhase target transient answer).
Proof.
  unfold waitForTransactionPhase.
  steps_go ltac:(first [apply P_other; reflexivity | apply R_tx]).
Qed.

Lemma steps_decryptAndReturn : steps R P (decryptAndReturn lib env).
Proof.
  unfold decryptAndReturn.
  steps_go ltac:(first [ apply P_other; reflexivity
                       | apply R_encResultKey
                       | apply steps_decryptResult ]).
Qed.

Lemma steps_transmitAndDecrypt : steps R P (transmitAndDecrypt lib env).
Proof.
  unfold transmitAndDecrypt.
  steps_go ltac:(first [ apply steps_decryptAndReturn
                       | apply steps_waitForTransactionPhase
                       | apply steps_interactWithSeller; auto; intros;
                         apply P_other, seller_not_establish; assumption ]).
Qed.

Lemma steps_establishAndTransmit workHash workSecretHash :
  (forall t i, P (EvSendEstablishBuyer t i workHash workSecretHash)) ->
  steps R P (establishAndTransmit lib env workHash workSecretHash).
Proof.
  intros Hsend. unfold establishAndTransmit, SendTxMessageEstablishBuyer.
  steps_go ltac:(first [ apply Hsend
                       | apply steps_transmitAndDecrypt
                       | apply steps_waitForTransactionPhase ]).
Qed.

End RemoteSteps.

(** ** The secret hash *)

Lemma draw_secret_length env secret :
  draw_secret env = inr secret -> List.length secret = HashSize.
Proof.
  unfold draw_secret. destruct (env_rand_error env); [discriminate|].
  intros H. injection H as H. subst secret. reflexivity.
Qed.

(** A remote buy from a fresh log: every event logged satisfies
    [hashes_secret], and the secret stays in place once it is stored. *)
Lemma doRemoteBuy_steps lib env a h :
  let r := doRemoteBuy lib env (initial a h) in
  forall e, In e (trace (snd r)) ->
    is_establish e = true ->
    exists wf secret,
      workFile a = Some wf /\ draw_secret env = inr secret /\
      buyerSecret (act (snd r)) = Some secret /\
      hashes_secret lib wf secret e.
Proof.
  intros r e Hin He. subst r. revert Hin.
  unfold doRemoteBuy, initial. run_act.
  destruct (env_beginRemoteTrade env) as [err|]; run_act.
  { cbn. intros [<-|[<-|[]]]; discriminate. }
  destruct (draw_secret env) as [err|secret]; run_act.
  { cbn. intros [<-|[<-|[]]]; discriminate. }
  cbn [workFile set_buyerSecret].
  destruct (workFile a) as [wf|]; run_act.
  2:{ cbn. intros [<-|[<-|[<-|[]]]]; discriminate. }
  unfold file_Key, hash_Sum, hash_Write, sha256_New. cbn [app].
  set (wh := cafs_Key lib (file_data wf)).
  set (wsh := SHA256 lib (wh ++ secret)).
  set (a1 := set_buyerSecret (Some secret) a).
  match goal with
  | |- context [establishAndTransmit lib env wh wsh ?st] => set (s1 := st)
  end.
  pose proof (@steps_establishAndTransmit lib env
                (keeps buyerSecret) (hashes_secret lib wf secret) _
                ltac:(reflexivity) ltac:(reflexivity) ltac:(reflexivity)
                ltac:(reflexivity) ltac:(reflexivity)
                ltac:(intros e' He'; destruct e'; try exact I; discriminate)
                wh wsh ltac:(intros; cbn; auto) s1) as Hsteps.
  destruct (establishAndTransmit lib env wh wsh s1) as [o s2].
  cbn [snd] in Hsteps.
  assert (Hs2 : In e (trace s2) ->
                exists wf0 secret0,
                  Some wf = Some wf0 /\
                  @inr error Thash secret = inr secret0 /\
                  buyerSecret (act s2) = Some secret0 /\
                  hashes_secret lib wf0 secret0 e).
  { intros Hin. exists wf, secret. repeat split.
    - destruct Hsteps as [Hk _]. unfold keeps in Hk. now rewrite Hk.
    - destruct (related_In _ _ _ _ _ Hsteps Hin) as [Hold|HP]; [|exact HP].
      subst s1. cbn in Hold. destruct Hold as [<-|[<-|[<-|[]]]]; discriminate. }
  destruct o as [v|msg|]; run_act; cbn [act trace]; intros Hin;
    try (apply Hs2; exact Hin);
    repeat (apply in_app_or in Hin; destruct Hin as [Hin|Hin]);
    try (apply Hs2; exact Hin);
    destruct Hin as [<-|[]]; discriminate.
Qed.

(** C1.  In a remote buy, the establish message sent to the coordinator
    carries as work hash the key of the work file and as work secret hash
    the SHA-256 digest of that key followed by the buyer's secret: the 32
    bytes just drawn from the random source, which are the ones stored as
    [buyerSecret]. *)
Theorem doRemoteBuy_secret_hash lib env a h txid ident workHash workSecretHash :
  let r := doRemoteBuy lib env (initial a h) in
  In (EvSendEstablishBuyer txid ident workHash workSecretHash)
     (trace (snd r)) ->
  exists wf secret,
    workFile a = Some wf /\
    draw_secret env = inr secret /\
    secret = map (env_rand env) (seq 0 32) /\
    List.length secret = 32%nat /\
    buyerSecret (act (snd r)) = Some secret /\
    workHash = cafs_Key lib (file_data wf) /\
    workSecretHash = SHA256 lib (workHash ++ secret).
Proof.
  intros r Hin.
  destruct (doRemoteBuy_steps lib env a h _ Hin eq_refl)
    as (wf & secret & Hwf & Hdraw & Hsec & Hwh & Hwsh).
  exists wf, secret. repeat split; try assumption.
  - unfold draw_secret in Hdraw.
    destruct (env_rand_error env); [discriminate|].
    injection Hdraw as Hdraw. now subst secret.
  - exact (draw_secret_length env secret Hdraw).
Qed.

(** ** Rules for [returns] and [starts_with] *)

Lemma returns_ret {A} (Q : A -> Prop) a : Q a -> returns Q (ret a).
Proof. intros HQ s a' H. now injection H as <-. Qed.

Lemma returns_panic {A} (Q : A -> Prop) msg : returns Q (panic msg).
Proof. intros s a H. discriminate H. Qed.

Lemma returns_bind {A B} (Q : B -> Prop) (m : Act A) (k : A -> Act B) :
  (forall a, returns Q (k a)) -> returns Q (bind m k).
Proof.
  intros Hk s b. unfold bind. destruct (m s) as [[a|msg|] s1]; cbn [fst];
    try discriminate.
  apply Hk.
Qed.

Lemma returns_defer {A} (Q : A -> Prop) (d : Act unit) (body : Act A) :
  returns Q body -> returns Q (defer_ d body).
Proof.
  intros Hb s a. unfold defer_. specialize (Hb s).
  destruct (body s) as [[a'|msg|] s1]; cbn [fst] in *; try discriminate.
  - destruct (d s1) as [[u|msg|] s2]; cbn [fst]; try discriminate. auto.
  - destruct (d s1) as [[u|msg'|] s2]; cbn [fst]; discriminate.
Qed.

Ltac returns_go tac :=
  repeat first
    [ solve [tac]
    | match goal with
      | |- returns _ (match ?x with _ => _ end) => destruct x
      | |- returns _ (if ?x then _ else _) => destruct x
      | |- returns _ (deref ?x) => destruct x
      | |- returns _ (ret _) => apply returns_ret
      | |- returns _ (panic _) => apply returns_panic
      | |- returns _ (defer_ _ _) => apply returns_defer
      | |- returns _ (bind _ _) => apply returns_bind; intros ?
      | |- returns _ ((fun _ => _) _) => cbv beta
      end ].

Lemma starts_emit {A} P e (k : unit -> Act A) :
  logs P (k tt) -> starts_with P e (bind (emit e) k).
Proof.
  intros Hk s. unfold bind, emit.
  match goal with
  | |- context [k tt ?st] => destruct (Hk st) as [_ (l & Hl & Hall)]
  end.
  exists l. rewrite Hl. cbn [trace]. now rewrite <- app_assoc.
Qed.

Lemma starts_bind {A B} P e (m : Act A) (k : A -> Act B) :
  starts_with P e m -> (forall a, logs P (k a)) -> starts_with P e (bind m k).
Proof.
  intros Hm Hk s. unfold bind. destruct (Hm s) as (l & Hl & Hall).
  destruct (m s) as [[a|msg|] s1]; cbn [snd] in *; try (now exists l).
  destruct (Hk a s1) as [_ (l' & Hl' & Hall')].
  exists (l ++ l'). rewrite Hl', Hl, <- app_assoc. split; [reflexivity|].
  apply Forall_app. now split.
Qed.

Lemma starts_defer {A} P e (d : Act unit) (body : Act A) :
  starts_with P e body -> logs P d -> starts_with P e (defer_ d body).
Proof.
  intros Hb Hd s. unfold defer_. destruct (Hb s) as (l & Hl & Hall).
  destruct (body s) as [[a|msg|] s1]; cbn [snd] in *; try (now exists l);
    destruct (Hd s1) as [_ (l' & Hl' & Hall')];
    destruct (d s1) as [[u|m|] s2]; cbn [snd] in *;
    exists (l ++ l'); rewrite Hl', Hl, <- app_assoc;
    (split; [reflexivity|apply Forall_app; now split]).
Qed.

#[export] Instance logs_pre : PreOrder (fun _ _ : BuyActivity => True).
Proof. split; [intros a|intros a b c _ _]; exact I. Qed.

(** ** The chunked transmission *)

Lemma starts_requestMissingChunks lib env si legacy compressed :
  starts_with (fun e => sync_rest_event e = true)
    (EvGo (GoSyncInfoProducer si legacy compressed))
    (requestMissingChunks lib env si legacy compressed).
Proof.
  unfold requestMissingChunks. apply starts_defer.
  - apply starts_emit. apply steps_postSyncInfo; auto. exact logs_pre.
  - apply steps_emit; [exact logs_pre|reflexivity].
Qed.

Lemma starts_transmitSyncInfo lib env si compressed legacy :
  starts_with (fun e => sync_rest_event e = true)
    (EvGo (GoSyncInfoProducer si legacy compressed))
    (transmitSyncInfo lib env si compressed legacy).
Proof.
  unfold transmitSyncInfo. apply starts_bind.
  - apply starts_requestMissingChunks.
  - intros r. apply steps_sendAfterRequest; auto. exact logs_pre.
Qed.

Lemma prefix_append (a b : string) : prefix a (a +s+ b) = true.
Proof.
  induction a as [|x a IH]; cbn.
  - now destruct b.
  - now destruct (ascii_dec x x).
Qed.

Lemma prefix_work_too_big lib n :
  is_work_too_large (work_too_big lib n) = true.
Proof. apply prefix_append. Qed.

(** Whatever fails once the sync info is built, it is not the bound on the
    number of chunks. *)
Lemma returns_transmitSyncInfo lib env si compressed legacy :
  returns (fun r => forall err, snd r = Some err ->
                                is_work_too_large err = false)
    (transmitSyncInfo lib env si compressed legacy).
Proof.
  unfold transmitSyncInfo, sendMissingChunksAndReturnResult.
  returns_go ltac:(cbn [snd]; intros err' [= <-]; reflexivity).
  all: cbn [snd]; intros; discriminate.
Qed.

Lemma returns_transmitChunks lib env wf compressed legacy :
  returns (fun r => forall err, snd r = Some err ->
                                is_work_too_large err = false)
    (transmitChunks lib env wf compressed legacy).
Proof.
  unfold transmitChunks. cbv zeta.
  returns_go ltac:(apply returns_transmitSyncInfo).
Qed.

Lemma transmitWorkChunked_run lib env compressed legacy s wf :
  workFile (act s) = Some wf ->
  transmitWorkChunked lib env compressed legacy s =
  if MaxNumberOfChunksInWorkFile lib <? cafs_NumChunks lib (file_data wf)
  then (Returned
          (None, Some (work_too_big lib (cafs_NumChunks lib (file_data wf)))),
        s)
  else transmitChunks lib env wf compressed legacy s.
Proof.
  intros Hwf. unfold transmitWorkChunked. run_act. rewrite Hwf. run_act.
  now destruct (_ <? _).
Qed.

Lemma mustGetSellerId_run lib s url host :
  tx_WorkerURL (tx (act s)) = Some url ->
  url_Parse_Host lib url = inr host ->
  mustGetSellerId lib s = (Returned (seller_id (act s) host), s).
Proof.
  intros Hu Hp. unfold mustGetSellerId. run_act. rewrite Hu, Hp. reflexivity.
Qed.

Lemma transmitSyncInfo_trace lib env si compressed legacy s :
  exists l,
    trace (snd (transmitSyncInfo lib env si compressed legacy s)) =
      trace s ++ EvGo (GoSyncInfoProducer si legacy compressed) :: l /\
    Forall (fun e => sync_rest_event e = true) l.
Proof. apply starts_transmitSyncInfo. Qed.

(** The chunked transmission past the bound: what it logs. *)
Lemma transmitChunks_trace lib env wf compressed legacy s url host :
  (legacy = false ->
   tx_WorkerURL (tx (act s)) = Some url /\ url_Parse_Host lib url = inr host) ->
  exists si l,
    trace (snd (transmitChunks lib env wf compressed legacy s)) =
      trace s ++
      (if legacy then []
       else [EvInitNode (seller_id (act s) host)
               (HandprintFromSyncInfo lib si)]) ++
      EvGo (GoSyncInfoProducer si legacy compressed) :: l /\
    si_Chunks si = cafs_Chunks lib (file_data wf) /\
    si_Perm si =
      (if legacy then TrivialPermutation lib else env_pseudorand_Perm env 256) /\
    Forall (fun e => sync_rest_event e = true \/
                     exists id, e = EvExitNode id) l.
Proof.
  intros Hurl. unfold transmitChunks. cbv zeta. destruct legacy.
  - destruct (transmitSyncInfo_trace lib env
                (SetTrivialPermutation lib
                   (SetChunksFromFile lib wf SyncInfo_zero))
                compressed true s) as (l & Hl & Hall).
    eexists _, l. split; [exact Hl|]. repeat split.
    eapply Forall_impl; [|exact Hall]. cbv beta. auto.
  - destruct (Hurl eq_refl) as [Hu Hp].
    unfold bind at 1. rewrite (mustGetSellerId_run lib s url host Hu Hp).
    run_act.
    set (si := SetPermutation (env_pseudorand_Perm env 256)
                 (SetChunksFromFile lib wf SyncInfo_zero)).
    match goal with
    | |- context [transmitSyncInfo lib env si compressed false ?st] =>
        destruct (transmitSyncInfo_trace lib env si compressed false st)
          as (l & Hl & Hall);
        destruct (transmitSyncInfo lib env si compressed false st)
          as [[v|msg|] s2]
    end; cbn [snd trace] in *.
    + exists si, (l ++ [EvExitNode (seller_id (act s) host)]).
      rewrite Hl. norm_trace. repeat split.
      apply Forall_app. split.
      * eapply Forall_impl; [|exact Hall]. cbv beta. auto.
      * constructor; [right; now eexists|constructor].
    + exists si, (l ++ [EvExitNode (seller_id (act s) host)]).
      rewrite Hl. norm_trace. repeat split.
      apply Forall_app. split.
      * eapply Forall_impl; [|exact Hall]. cbv beta. auto.
      * constructor; [right; now eexists|constructor].
    + exists si, l. rewrite Hl. norm_trace. repeat split.
      eapply Forall_impl; [|exact Hall]. cbv beta. auto.
Qed.

(** C2.  The chunked transmission of the work file [wf] fails with the
    error of a work file that is too big exactly when the number of chunks
    of [wf] exceeds [MaxNumberOfChunksInWorkFile]; it then does nothing
    else.  When the number of chunks is within the bound, no error it
    returns is that one, and it goes on to build the sync info from the
    chunks of [wf] and to hand it to the producer of the wish list request
    (unless, for a seller with sync info, the worker URL cannot be
    parsed). *)
Theorem transmitWorkChunked_bound lib env compressed legacy s wf :
  workFile (act s) = Some wf ->
  let n := cafs_NumChunks lib (file_data wf) in
  let bound := MaxNumberOfChunksInWorkFile lib in
  let r := transmitWorkChunked lib env compressed legacy s in
  ((exists resp err,
      fst r = Returned (resp, Some err) /\ is_work_too_large err = true)
   <-> bound < n) /\
  (bound < n -> r = (Returned (None, Some (work_too_big lib n)), s)) /\
  (n <= bound ->
   r = transmitChunks lib env wf compressed legacy s /\
   forall url host,
     (legacy = false ->
      tx_WorkerURL (tx (act s)) = Some url /\
      url_Parse_Host lib url = inr host) ->
     exists si l1 l2,
       trace (snd r) =
         trace s ++ l1 ++ EvGo (GoSyncInfoProducer si legacy compressed) :: l2
       /\ si_Chunks si = cafs_Chunks lib (file_data wf)).
Proof.
  intros Hwf n bound r. subst n bound r.
  rewrite (transmitWorkChunked_run lib env compressed legacy s wf Hwf).
  destruct (Z.ltb_spec (MaxNumberOfChunksInWorkFile lib)
              (cafs_NumChunks lib (file_data wf))) as [Hbig|Hok].
  - split; [|split].
    + split; [intros _; exact Hbig|]. intros _.
      eexists _, _. split; [reflexivity|]. apply prefix_work_too_big.
    + reflexivity.
    + intros Hle. exfalso. apply (Z.lt_irrefl _ (Z.lt_le_trans _ _ _ Hbig Hle)).
  - split; [|split].
    + split.
      * intros (resp & err & Hr & Htoo).
        pose proof (returns_transmitChunks lib env wf compressed legacy
                      s (resp, Some err) Hr err eq_refl) as Hnot.
        rewrite Hnot in Htoo. discriminate.
      * intros Hlt. exfalso.
        apply (Z.lt_irrefl _ (Z.lt_le_trans _ _ _ Hlt Hok)).
    + intros Hlt. exfalso.
      apply (Z.lt_irrefl _ (Z.lt_le_trans _ _ _ Hlt Hok)).
    + intros _. split; [reflexivity|]. intros url host Hurl.
      destruct (transmitChunks_trace lib env wf compressed legacy s url host
                  Hurl) as (si & l & Hl & Hc & _).
      eexists si, _, l. split; [exact Hl|exact Hc].
Qed.

Lemma transmitWorkChunked_bound_witness :
  (exists resp err,
     fst (transmitWorkChunked toy_lib toy_env false true toy_huge) =
       Returned (resp, Some err) /\
     is_work_too_large err = true) /\
  transmitWorkChunked toy_lib toy_env false true toy_huge =
    (Returned
       (None,
        Some "Work file too big: 16385 chunks (only 16384 allowed)."%string),
     toy_huge).
Proof.
  pose proof (transmitWorkChunked_bound toy_lib toy_env false true toy_huge
                huge_work eq_refl) as (Hiff & Hbig & _).
  cbv zeta in *.
  assert (Hlt : MaxNumberOfChunksInWorkFile toy_lib <
                cafs_NumChunks toy_lib (file_data huge_work))
    by (vm_compute; reflexivity).
  split; [apply Hiff; exact Hlt|]. rewrite (Hbig Hlt).
  vm_compute. reflexivity.
Defined.

(** C5.  In a chunked transmission (the work file [wf] is within the bound
    and, for a seller that is not legacy, the worker URL has a host), one
    sync info is handed to the producer of the wish list request.  It holds the chunks of [wf] and, for a
    legacy seller, the trivial permutation, otherwise the permutation just
    drawn by [pseudorand.Perm(256)], a permutation of [0, 256).  For a
    seller that is not legacy a node is registered with the ticket
    registry, once, under the identifier of the seller and the handprint of
    that sync info; for a legacy seller no node is registered. *)
Theorem transmitWorkChunked_permutation lib env compressed legacy s wf url host :
  workFile (act s) = Some wf ->
  cafs_NumChunks lib (file_data wf) <= MaxNumberOfChunksInWorkFile lib ->
  (legacy = false ->
   tx_WorkerURL (tx (act s)) = Some url /\ url_Parse_Host lib url = inr host) ->
  Permutation (env_pseudorand_Perm env 256) (interval 256) ->
  exists si l,
    trace (snd (transmitWorkChunked lib env compressed legacy s)) =
      trace s ++ l /\
    (forall si' legacy' compressed',
       In (EvGo (GoSyncInfoProducer si' legacy' compressed')) l <->
       si' = si /\ legacy' = legacy /\ compressed' = compressed) /\
    si_Chunks si = cafs_Chunks lib (file_data wf) /\
    (legacy = true ->
     si_Perm si = TrivialPermutation lib /\
     forall id handprint, ~ In (EvInitNode id handprint) l) /\
    (legacy = false ->
     si_Perm si = env_pseudorand_Perm env 256 /\
     Permutation (si_Perm si) (interval 256) /\
     forall id handprint,
       In (EvInitNode id handprint) l <->
       id = seller_id (act s) host /\
       handprint = HandprintFromSyncInfo lib si).
Proof.
  intros Hwf Hn Hurl Hperm.
  rewrite (transmitWorkChunked_run lib env compressed legacy s wf Hwf).
  destruct (Z.ltb_spec (MaxNumberOfChunksInWorkFile lib)
              (cafs_NumChunks lib (file_data wf))) as [Hbig|_].
  { exfalso. apply (Z.lt_irrefl _ (Z.lt_le_trans _ _ _ Hbig Hn)). }
  destruct (transmitChunks_trace lib env wf compressed legacy s url host
              Hurl) as (si & l & Hl & Hc & Hpm & Hall).
  rewrite Forall_forall in Hall.
  assert (Hrest : forall e, In e l ->
                            match e with
                            | EvGo (GoSyncInfoProducer _ _ _)
                            | EvInitNode _ _ => False
                            | _ => True
                            end).
  { intros e Hin. destruct (Hall e Hin) as [He|[id ->]]; [|exact I].
    destruct e; try exact I; try discriminate He.
    destruct g; try exact I. discriminate He. }
  exists si. eexists. split; [exact Hl|].
  split; [|split; [exact Hc|]].
  - intros si' legacy' compressed'. split.
    + intros Hin. apply in_app_or in Hin. destruct Hin as [Hin|Hin].
      * destruct legacy; [destruct Hin|].
        destruct Hin as [Hin|[]]. discriminate Hin.
      * destruct Hin as [Hin|Hin]; [injection Hin; auto|].
        destruct (Hrest _ Hin).
    + intros (-> & -> & ->). apply in_or_app. right. now left.
  - split.
    + intros ->. split; [exact Hpm|]. intros id hp Hin.
      cbn [app] in Hin. destruct Hin as [Hin|Hin]; [discriminate Hin|].
      exact (Hrest _ Hin).
    + intros ->. split; [exact Hpm|]. split; [now rewrite Hpm|].
      intros id hp. split.
      * intros Hin. cbn [app] in Hin.
        destruct Hin as [Hin|[Hin|Hin]];
          [injection Hin; auto|discriminate Hin|destruct (Hrest _ Hin)].
      * intros (-> & ->). now left.
Qed.

Lemma transmitWorkChunked_permutation_witness :
  exists si l,
    trace (snd (transmitWorkChunked toy_lib env_modern true false
                  toy_chunked)) = l /\
    In (EvGo (GoSyncInfoProducer si false true)) l /\
    si_Perm si = map Z.of_nat (rev (seq 0 256)) /\
    In (EvInitNode "seller_http://seller/" "3") l.
Proof.
  assert (Hperm : Permutation (env_pseudorand_Perm env_modern 256)
                    (interval 256)).
  { unfold interval. cbn [env_pseudorand_Perm env_modern with_options toy_env].
    apply Permutation_map, Permutation_sym, Permutation_rev. }
  destruct (transmitWorkChunked_permutation toy_lib env_modern true false
              toy_chunked {| file_handle := 0; file_data := [1; 2; 3] |}
              "http://seller/"%string "http://seller/"%string
              eq_refl ltac:(vm_compute; discriminate)
              (fun _ => conj eq_refl eq_refl) Hperm)
    as (si & l & Hl & Hgo & Hc & _ & Hmodern).
  destruct (Hmodern eq_refl) as (Hpm & _ & Hinit).
  exists si, l. split; [exact Hl|]. split; [now apply Hgo|].
  split; [exact Hpm|].
  apply Hinit. split; [reflexivity|].
  unfold toy_lib, HandprintFromSyncInfo. rewrite Hc. reflexivity.
Defined.

(** ** The capability probe *)

Lemma probeSeller_not_chunked lib env s wf :
  workFile (act s) = Some wf ->
  cafs_IsChunked lib (file_data wf) = false ->
  probeSeller lib env s = (Returned (false, false, true), s).
Proof.
  intros Hwf Hc. unfold probeSeller. run_act. rewrite Hwf. run_act.
  now rewrite Hc.
Qed.

Lemma probeSeller_fails lib env s wf url :
  workFile (act s) = Some wf ->
  cafs_IsChunked lib (file_data wf) = true ->
  tx_WorkerURL (tx (act s)) = Some url ->
  probe_fails lib env url ->
  exists l,
    probeSeller lib env s =
      (Returned (false, false, true),
       {| act := act s; next_handle := next_handle s;
          trace := trace s ++ l |}) /\
    Forall (fun e => probe_event e = true) l.
Proof.
  intros Hwf Hc Hu Hfail. unfold probeSeller, testSellerForCapabilities.
  run_act. rewrite Hwf. run_act. rewrite Hc. run_act. rewrite Hu. run_act.
  unfold probe_fails in Hfail.
  destruct (NewRequest_error lib "OPTIONS" url) as [err|]; run_act.
  { eexists. split; [reflexivity|]. repeat constructor. }
  destruct Hfail as [Hfail|Hfail]; [congruence|].
  destruct (env_options env) as [err|resp]; run_act; norm_trace.
  { eexists. split; [reflexivity|]. repeat constructor. }
  destruct (Z.eqb_spec (StatusCode resp) StatusOK) as [Hok|Hbad];
    cbn [negb]; run_act; norm_trace.
  2:{ eexists. split; [reflexivity|]. repeat constructor. }
  destruct Hfail as [Hfail|(err & Herr)]; [congruence|].
  rewrite Herr. run_act. norm_trace.
  eexists. split; [reflexivity|]. repeat constructor.
Qed.

(** [interactWithSeller] around its probe. *)
Lemma interactWithSeller_run lib env s :
  interactWithSeller lib env s =
  match probeSeller lib env (probing_state s) with
  | (Returned (chunked, compressed, legacy), s1) =>
      match
        (t <- (if chunked then transmitWorkChunked lib env compressed legacy
               else transmitWorkLinear lib env) ;;
         receiveEncryptedResult lib env (fst t) (snd t))%act s1
      with
      | (Blocked, s2) => (Blocked, s2)
      | (o, s2) => (o, contact_exit s2)
      end
  | (Panicked msg, s1) => (Panicked msg, contact_exit s1)
  | (Blocked, s1) => (Blocked, s1)
  end.
Proof.
  unfold interactWithSeller, probing_state, contact_exit. run_act.
  norm_trace.
  destruct (probeSeller lib env _) as [[[[chunked compressed] legacy]|msg|] s1];
    run_act; norm_trace; try reflexivity.
  match goal with
  | |- context [match ?x with _ => _ end] =>
      destruct x as [[[resp terr]|msg|] s2]
  end; run_act; norm_trace; try reflexivity.
  destruct (receiveEncryptedResult lib env resp terr s2) as [[v|msg|] s3];
    run_act; norm_trace; reflexivity.
Qed.

Lemma linearContact_trace lib env s :
  exists l,
    trace (snd (linearContact lib env s)) =
      trace s ++ EvGo GoWorkProducer :: l /\
    Forall (fun e => linear_event e = true) l.
Proof.
  revert s. change (starts_with (fun e => linear_event e = true)
                      (EvGo GoWorkProducer) (linearContact lib env)).
  unfold linearContact, transmitWorkLinear.
  apply starts_bind.
  { apply starts_emit. unfold logs.
    steps_go ltac:(first [ exact logs_pre
                         | apply steps_postToSeller; intros;
                           first [exact logs_pre | reflexivity] ]). }
  intros t. apply steps_receiveEncryptedResult; auto. exact logs_pre.
Qed.

(** The contact when the probe leaves the seller without capabilities. *)
Lemma interactWithSeller_linear lib env s s1 lp :
  probeSeller lib env (probing_state s) = (Returned (false, false, true), s1) ->
  trace s1 = trace (probing_state s) ++ lp ->
  fst (interactWithSeller lib env s) = fst (linearContact lib env s1) /\
  exists l,
    trace (snd (interactWithSeller lib env s)) =
      trace s ++
      [EvGo GoWatchdog; EvNewScopedTransport; EvRegisterTransport] ++ lp ++
      EvGo GoWorkProducer :: l /\
    Forall (fun e => linear_event e = true \/ e = EvCloseTransport \/
                     e = EvExitWatchdog) l.
Proof.
  intros Hprobe Hlp. rewrite interactWithSeller_run, Hprobe.
  fold (linearContact lib env).
  destruct (linearContact_trace lib env s1) as (l & Hl & Hall).
  assert (Hall' : Forall (fun e => linear_event e = true \/
                                   e = EvCloseTransport \/
                                   e = EvExitWatchdog) l)
    by (eapply Forall_impl; [|exact Hall]; cbv beta; auto).
  destruct (linearContact lib env s1) as [[v|msg|] s2];
    cbn [fst snd trace contact_exit] in *; (split; [reflexivity|]);
    rewrite Hl, Hlp; cbn [probing_state trace]; norm_trace.
  - exists (l ++ [EvCloseTransport; EvExitWatchdog]). norm_trace.
    split; [reflexivity|]. apply Forall_app. split; [exact Hall'|].
    constructor; [auto|constructor; [auto|constructor]].
  - exists (l ++ [EvCloseTransport; EvExitWatchdog]). norm_trace.
    split; [reflexivity|]. apply Forall_app. split; [exact Hall'|].
    constructor; [auto|constructor; [auto|constructor]].
  - exists l. split; [reflexivity|exact Hall'].
Qed.

Lemma linear_not_chunked e :
  linear_event e = true \/ e = EvCloseTransport \/ e = EvExitWatchdog ->
  chunked_event e = false /\ gzip_event e = false /\ is_options e = false.
Proof.
  intros [H|[->| ->]]; [|now repeat split..]. event_cases e.
Qed.

Lemma probe_not_chunked e :
  probe_event e = true -> chunked_event e = false /\ gzip_event e = false.
Proof. intros H. event_cases e. Qed.

(** C3.  The capability probe in [interactWithSeller], for the work file
    [wf].  An OPTIONS request is only made when [wf] is chunked.  When the
    probe fails (see [probe_fails]), it still returns, with all three
    capabilities taken as absent: not chunked, not compressed, legacy; the
    activity is as before, the contact goes on as for a seller without
    capabilities and returns what the linear contact returns: the producer
    of the linear transmission is started, and nothing of the chunked
    transmission and no compressed request is logged. *)
Theorem interactWithSeller_probe lib env s wf :
  workFile (act s) = Some wf ->
  let r := interactWithSeller lib env s in
  exists l,
    trace (snd r) = trace s ++ l /\
    ((exists e, In e l /\ is_options e = true) ->
     cafs_IsChunked lib (file_data wf) = true) /\
    (forall url,
       cafs_IsChunked lib (file_data wf) = true ->
       tx_WorkerURL (tx (act s)) = Some url ->
       probe_fails lib env url ->
       exists s1,
         probeSeller lib env (probing_state s) =
           (Returned (false, false, true), s1) /\
         act s1 = act s /\
         fst r = fst (linearContact lib env s1) /\
         In (EvGo GoWorkProducer) l /\
         forall e, In e l -> chunked_event e = false /\ gzip_event e = false).
Proof.
  intros Hwf r. subst r.
  destruct (cafs_IsChunked lib (file_data wf)) eqn:Hc.
  - (* a chunked work file *)
    pose proof (@steps_interactWithSeller lib env (fun _ _ => True)
                  (fun _ => True) logs_pre (fun _ _ => I) (fun _ _ => I)
                  (fun _ _ => I) s) as [_ (l & Hl & _)].
    exists l. split; [exact Hl|]. split; [reflexivity|].
    intros url _ Hu Hfail.
    destruct (probeSeller_fails lib env (probing_state s) wf url Hwf Hc Hu
                Hfail) as (lp & Hprobe & Hlp).
    eexists. split; [exact Hprobe|]. split; [reflexivity|].
    destruct (interactWithSeller_linear lib env s _ lp Hprobe eq_refl)
      as (Hfst & l' & Hl' & Hall).
    split; [exact Hfst|].
    rewrite Hl' in Hl. apply app_inv_head in Hl. subst l.
    split.
    + cbn [app]. do 3 right. apply in_or_app. right. now left.
    + intros e Hin. rewrite Forall_forall in Hlp, Hall.
      cbn [app] in Hin. destruct Hin as [<-|[<-|[<-|Hin]]];
        try (now split).
      apply in_app_or in Hin. destruct Hin as [Hin|[<-|Hin]].
      * apply probe_not_chunked, Hlp, Hin.
      * now split.
      * destruct (linear_not_chunked e (Hall e Hin)) as (H1 & H2 & _).
        now split.
  - (* a work file that is not chunked: no probe *)
    pose proof (probeSeller_not_chunked lib env (probing_state s) wf Hwf Hc)
      as Hprobe.
    destruct (interactWithSeller_linear lib env s _ [] Hprobe
                (eq_sym (app_nil_r _))) as (_ & l' & Hl' & Hall).
    eexists. split; [exact Hl'|]. split; [|discriminate].
    intros (e & Hin & He). exfalso. rewrite Forall_forall in Hall.
    cbn [app] in Hin. destruct Hin as [<-|[<-|[<-|[<-|Hin]]]];
      try discriminate He.
    destruct (linear_not_chunked e (Hall e Hin)) as (_ & _ & H3).
    congruence.
Qed.

Lemma interactWithSeller_probe_witness :
  exists l s1,
    trace (snd (interactWithSeller toy_lib env_broken_options toy_probing))
      = l /\
    probeSeller toy_lib env_broken_options (probing_state toy_probing) =
      (Returned (false, false, true), s1) /\
    In (EvOptions "http://seller/") l /\
    In (EvGo GoWorkProducer) l /\
    forall e, In e l -> chunked_event e = false /\ gzip_event e = false.
Proof.
  destruct (interactWithSeller_probe toy_lib env_broken_options toy_probing
              {| file_handle := 0; file_data := [1; 2; 3] |} eq_refl)
    as (l & Hl & _ & Hfail).
  destruct (Hfail "http://seller/"%string eq_refl eq_refl)
    as (s1 & Hprobe & _ & _ & Hgo & Hall).
  { right. left. discriminate. }
  exists l, s1. split; [exact Hl|]. split; [exact Hprobe|].
  split; [|split; [exact Hgo|exact Hall]].
  cbn [trace toy_probing toy_chunked initial app] in Hl. rewrite <- Hl.
  vm_compute. do 3 right. left. reflexivity.
Defined.

(** ** The producer of the chunk data *)

Lemma progressCallbacks_run reports :
  forall s,
    progressCallbacks reports s =
    (Returned tt,
     {| act := after_progress reports (act s);
        next_handle := next_handle s; trace := trace s |}).
Proof.
  induction reports as [|[total done] reports IH]; intros s;
    cbn [progressCallbacks after_progress fold_left].
  - now destruct s.
  - run_act. rewrite IH. reflexivity.
Qed.

Lemma after_progress_frame reports :
  forall a,
    tx (after_progress reports a) = tx a /\
    workFile (after_progress reports a) = workFile a.
Proof.
  induction reports as [|[total done] reports IH]; intros a;
    cbn [after_progress fold_left]; [now split|].
  destruct (IH (set_progress total done a)) as [H1 H2].
  unfold after_progress in *. cbn [fst snd]. rewrite H1, H2. now split.
Qed.

(** C6, as amended.  The producer of the chunk body (the work file is set
    and the worker URL has a host) writes the part header, the chunk data,
    closes the multipart writer, the compressor and the pipe; only then,
    when the whole request body has been handed over without error, does it
    return the transmission token to the scheduler, and right after it sets
    the interested flag of the node of the seller to false.  When one of its
    writes fails, it closes the pipe with that error and does neither. *)
Theorem chunkProducer_token lib env syncinfo compressed s wf url host :
  workFile (act s) = Some wf ->
  tx_WorkerURL (tx (act s)) = Some url ->
  url_Parse_Host lib url = inr host ->
  exists started l,
    started =
      EvLog ("Transmitting chunk data (compressed: " +s+ fmt_bool compressed
             +s+ ", permutation size: " +s+
             fmt_d (Z.of_nat (List.length (si_Perm syncinfo))) +s+ ")") /\
    trace (snd (chunkProducer lib env syncinfo compressed s)) =
      trace s ++ started :: l /\
    match chunk_producer_failure env with
    | None =>
        l = [EvCreateFormFile "chunkdata" "chunkdata.bin";
             EvWriteChunkData (cafs_Size lib (file_data wf))
               (si_Perm syncinfo);
             EvChunksDispose;
             EvMultipartClose; EvCompressorClose; EvPipeClose;
             EvLog "Missing chunk data transmitted successfully.";
             EvReturnTransmissionToken;
             EvSetNodeInterested (seller_id (act s) host) false]
    | Some err =>
        ~ In EvReturnTransmissionToken l /\
        (forall id b, ~ In (EvSetNodeInterested id b) l) /\
        exists l',
          l = l' ++ [EvPipeCloseWithError err;
                     EvLog ("Chunk data transmission resulted in error: "
                            +s+ err)]
    end.
Proof.
  intros Hwf Hu Hp.
  unfold chunkProducer, writeChunks, chunk_producer_failure. run_act.
  destruct (env_producer env StepCreateFormFile) as [err|]; run_act.
  { eexists _, _. split; [reflexivity|]. norm_trace.
    split; [reflexivity|]. repeat split.
    - intros [H|[H|[H|[]]]]; discriminate H.
    - intros id b [H|[H|[H|[]]]]; discriminate H.
    - now exists [EvCreateFormFile "chunkdata" "chunkdata.bin"]. }
  rewrite Hwf. run_act. rewrite progressCallbacks_run. run_act.
  destruct (env_producer env StepWriteChunkData) as [err|]; run_act.
  { eexists _, _. split; [reflexivity|]. norm_trace.
    split; [reflexivity|]. repeat split.
    - intros [H|[H|[H|[H|[H|[]]]]]]; discriminate H.
    - intros id b [H|[H|[H|[H|[H|[]]]]]]; discriminate H.
    - now eexists [_; _; _]. }
  destruct (env_producer env StepMultipartClose) as [err|]; run_act.
  { eexists _, _. split; [reflexivity|]. norm_trace.
    split; [reflexivity|]. repeat split.
    - intros [H|[H|[H|[H|[H|[H|[]]]]]]]; discriminate H.
    - intros id b [H|[H|[H|[H|[H|[H|[]]]]]]]; discriminate H.
    - now eexists [_; _; _; _]. }
  destruct (env_producer env StepCompressorClose) as [err|]; run_act.
  { eexists _, _. split; [reflexivity|]. norm_trace.
    split; [reflexivity|]. repeat split.
    - intros [H|[H|[H|[H|[H|[H|[H|[]]]]]]]]; discriminate H.
    - intros id b [H|[H|[H|[H|[H|[H|[H|[]]]]]]]]; discriminate H.
    - now eexists [_; _; _; _; _]. }
  destruct (after_progress_frame (env_progress env) (act s)) as [Htx _].
  unfold mustGetSellerId. run_act. rewrite Htx, Hu, Hp. run_act. rewrite Htx.
  eexists _, _. split; [reflexivity|]. norm_trace. split; reflexivity.
Qed.

Lemma chunkProducer_token_witness :
  exists l,
    trace (snd (chunkProducer toy_lib env_chunks_fail toy_syncinfo true
                  toy_chunked)) = l /\
    ~ In EvReturnTransmissionToken l /\
    In (EvWriteChunkData 3 (si_Perm toy_syncinfo)) l.
Proof.
  destruct (chunkProducer_token toy_lib env_chunks_fail toy_syncinfo true
              toy_chunked {| file_handle := 0; file_data := [1; 2; 3] |}
              "http://seller/"%string "http://seller/"%string
              eq_refl eq_refl eq_refl) as (started & l & Hs & Hl & Hcase).
  change (chunk_producer_failure env_chunks_fail)
    with (Some "io: read/write on closed pipe"%string) in Hcase.
  destruct Hcase as (Htoken & _ & _).
  exists (started :: l). split; [exact Hl|]. split.
  - intros [H|H]; [subst started; discriminate H|exact (Htoken H)].
  - cbn [trace toy_chunked initial app] in Hl. rewrite <- Hl.
    vm_compute. do 2 right. left. reflexivity.
Defined.

(** C6, as stated, fails: in a run of the chunk producer where every write
    succeeds, the transmission token is returned after the chunk data were
    written and the pipe was closed, not when sending begins. *)
Lemma chunkProducer_token_returned_late :
  ~ token_returned_when_sending_begins
      (trace (snd (chunkProducer toy_lib toy_env toy_syncinfo true
                     toy_chunked))).
Proof.
  intros H.
  specialize (H [EvLog "Transmitting chunk data (compressed: true, permutation size: 256)";
                 EvCreateFormFile "chunkdata" "chunkdata.bin"]
                3 (si_Perm toy_syncinfo)
                [EvChunksDispose; EvMultipartClose; EvCompressorClose;
                 EvPipeClose;
                 EvLog "Missing chunk data transmitted successfully.";
                 EvReturnTransmissionToken;
                 EvSetNodeInterested "seller_http://seller/" false]).
  assert (Hin : In EvReturnTransmissionToken
                  [EvLog "Transmitting chunk data (compressed: true, permutation size: 256)";
                   EvCreateFormFile "chunkdata" "chunkdata.bin"])
    by (apply H; vm_compute; reflexivity).
  destruct Hin as [Hin|[Hin|[]]]; discriminate Hin.
Qed.

(** ** Runs of the toy buy *)

Lemma doRemoteBuy_secret_hash_witness :
  exists wf secret,
    workFile toy_activity = Some wf /\
    draw_secret toy_env = inr secret /\
    secret = map (env_rand toy_env) (seq 0 32) /\
    List.length secret = 32%nat /\
    buyerSecret (act (snd (doRemoteBuy toy_lib toy_env
                             (initial toy_activity 1))))
      = Some secret /\
    toy_workHash = cafs_Key toy_lib (file_data wf) /\
    toy_workSecretHash = SHA256 toy_lib (toy_workHash ++ secret).
Proof.
  apply (doRemoteBuy_secret_hash toy_lib toy_env toy_activity 1
           "tx1"%string "buyer"%string toy_workHash toy_workSecretHash).
  vm_compute. do 3 right. left. reflexivity.
Defined.

Lemma PerformBuy_clears_alive_witness :
  fst (PerformBuy toy_lib toy_env toy_work (initial toy_activity 1)) =
    Returned (Some {| file_handle := 5; file_data := [13; 12; 3] |}, None) /\
  alive (act (snd (PerformBuy toy_lib toy_env toy_work
                     (initial toy_activity 1)))) = false.
Proof.
  split; [vm_compute; reflexivity|].
  apply (proj1 (PerformBuy_clears_alive toy_lib toy_env toy_work
                  (initial toy_activity 1))).
  vm_compute. discriminate.
Defined.

(** A buy that is not cleared returns the error, with the flag cleared and
    the error recorded. *)
Example PerformBuy_not_cleared :
  let r := PerformBuy toy_lib env_not_cleared toy_work
             (initial toy_activity 1) in
  fst r = Returned (None, Some "insufficient funds"%string) /\
  alive (act (snd r)) = false /\
  lastError (act (snd r)) = Some "insufficient funds"%string.
Proof. vm_compute. repeat split. Qed.

(** A local buy returns the duplicate of the result of the sell. *)
Example PerformBuy_local :
  let r := PerformBuy toy_lib env_local_success toy_work
             (initial toy_local_activity 1) in
  fst r = Returned (Some {| file_handle := 2; file_data := [4; 5; 6] |}, None)
  /\ alive (act (snd r)) = false.
Proof. vm_compute. repeat split. Qed.

(** The producer of the linear transmission returns the token in the same
    way: once the work is copied into the request, before the secret. *)
Example workProducer_token :
  trace (snd (workProducer toy_lib toy_env toy_chunked)) =
  [EvCreateFormFile "work" "workfile.bin"; EvOpen toy_work;
   EvLog "Sending work data to seller [http://seller/]."; EvCopyWork;
   EvCloseFileReader toy_work; EvReturnTransmissionToken;
   EvLog "Sending buyer's secret to seller.";
   EvWriteField "buyersecret" "0"; EvMultipartClose; EvPipeClose;
   EvLog "Work transmitted successfully."].
Proof. vm_compute. reflexivity. Qed.

(** ** [postToSeller] *)

Lemma io_ReadFull_bytes_data n r :
  io_ReadFull_bytes n r = firstn n (reads_data r).
Proof.
  unfold io_ReadFull_bytes.
  now rewrite (io_Copy_no_write_error no_write_error (fun _ => eq_refl)).
Qed.

Lemma postToSeller_run lib env kind contentType compressed s url :
  tx_WorkerURL (tx (act s)) = Some url ->
  NewRequest_error lib "POST" url = None ->
  postToSeller lib env kind contentType compressed s =
  match env_post env kind with
  | inl err =>
      (Returned (None, Some err),
       logged [EvPost kind url contentType compressed] s)
  | inr resp =>
      if StatusCode resp =? StatusOK
      then (Returned (Some resp, None),
            logged [EvPost kind url contentType compressed] s)
      else (Returned (None, Some (bad_status lib resp)),
            logged [EvPost kind url contentType compressed; EvCloseBody] s)
  end.
Proof.
  intros Hu Hn. unfold postToSeller, logged, bad_status. run_act.
  rewrite Hu. run_act. rewrite Hn. run_act.
  destruct (env_post env kind) as [err|resp]; run_act; [reflexivity|].
  destruct (StatusCode resp =? StatusOK); cbn [negb]; run_act; norm_trace;
    [reflexivity|].
  now rewrite io_ReadFull_bytes_data.
Qed.

(** The runs of [postToSeller], case by case. *)
Lemma postToSeller_cases lib env kind contentType compressed s :
  postToSeller lib env kind contentType compressed s =
  match tx_WorkerURL (tx (act s)) with
  | None => (Panicked nil_dereference, s)
  | Some url =>
      match NewRequest_error lib "POST" url with
      | Some err =>
          (Returned (None, Some ("Error creating transmit request: " +s+ err)),
           s)
      | None =>
          match env_post env kind with
          | inl err =>
              (Returned (None, Some err),
               logged [EvPost kind url contentType compressed] s)
          | inr resp =>
              if StatusCode resp =? StatusOK
              then (Returned (Some resp, None),
                    logged [EvPost kind url contentType compressed] s)
              else (Returned (None, Some (bad_status lib resp)),
                    logged [EvPost kind url contentType compressed;
                            EvCloseBody] s)
          end
      end
  end.
Proof.
  destruct (tx_WorkerURL (tx (act s))) as [url|] eqn:Hu.
  - destruct (NewRequest_error lib "POST" url) as [err|] eqn:Hn.
    + unfold postToSeller. run_act. rewrite Hu. run_act. now rewrite Hn.
    + rewrite (postToSeller_run _ _ _ _ _ _ _ Hu Hn). reflexivity.
  - unfold postToSeller. run_act. now rewrite Hu.
Qed.

(** X1.  [postToSeller], in every run.  Without a worker URL in the
    transaction it panics on the nil pointer and nothing is sent.
    Otherwise it returns, with the response or with an error, never both
    and never neither, and the activity is not touched.  When the request
    cannot be made, nothing is sent and the error says so.  When it can,
    exactly one request is sent, to the worker URL, with the content type
    given and marked as gzip exactly when [compressed]; the response is
    handed back exactly when the seller answered with status 200; on
    another status, and only then, [postToSeller] closes the body of the
    response itself, and the error quotes the status and at most the first
    1024 bytes of the body; an error of the transport is returned as it
    is. *)
Theorem postToSeller_status lib env kind contentType compressed s :
  match tx_WorkerURL (tx (act s)) with
  | None =>
      postToSeller lib env kind contentType compressed s =
        (Panicked nil_dereference, s)
  | Some url =>
      exists o e l,
        postToSeller lib env kind contentType compressed s =
          (Returned (o, e), logged l s) /\
        is_nil o = negb (is_nil e) /\
        (forall resp,
           o = Some resp <->
           NewRequest_error lib "POST" url = None /\
           env_post env kind = inr resp /\ StatusCode resp = StatusOK) /\
        match NewRequest_error lib "POST" url with
        | Some err =>
            l = [] /\
            e = Some ("Error creating transmit request: " +s+ err)
        | None =>
            exists l',
              l = EvPost kind url contentType compressed :: l' /\
              (l' = [] \/ l' = [EvCloseBody]) /\
              (forall resp,
                 env_post env kind = inr resp ->
                 StatusCode resp <> StatusOK ->
                 e = Some (bad_status lib resp) /\ l' = [EvCloseBody]) /\
              (l' = [EvCloseBody] ->
               exists resp,
                 env_post env kind = inr resp /\
                 StatusCode resp <> StatusOK) /\
              (forall err, env_post env kind = inl err -> e = Some err)
        end
  end.
Proof.
  rewrite postToSeller_cases.
  destruct (tx_WorkerURL (tx (act s))) as [url|]; [|reflexivity].
  destruct (NewRequest_error lib "POST" url) as [nerr|].
  { exists None, (Some ("Error creating transmit request: " +s+ nerr)), [].
    split; [unfold logged; rewrite app_nil_r; now destruct s|].
    split; [reflexivity|]. split; [|now split].
    intros resp. split; [discriminate|]. intros [H _]. discriminate H. }
  destruct (env_post env kind) as [err|resp].
  - exists None, (Some err), [EvPost kind url contentType compressed].
    split; [reflexivity|]. split; [reflexivity|]. split.
    { intros resp. split; [discriminate|]. intros (_ & H & _).
      discriminate H. }
    exists []. split; [reflexivity|]. split; [now left|].
    split; [discriminate|]. split; [discriminate|].
    now intros err' [= <-].
  - destruct (Z.eqb_spec (StatusCode resp) StatusOK) as [Hok|Hbad].
    + exists (Some resp), None, [EvPost kind url contentType compressed].
      split; [reflexivity|]. split; [reflexivity|]. split.
      { intros resp'. split.
        - intros [= <-]. now repeat split.
        - intros (_ & [= <-] & _). reflexivity. }
      exists []. split; [reflexivity|]. split; [now left|].
      split; [intros resp' [= <-] H; contradiction|].
      split; discriminate.
    + exists None, (Some (bad_status lib resp)),
        [EvPost kind url contentType compressed; EvCloseBody].
      split; [reflexivity|]. split; [reflexivity|]. split.
      { intros resp'. split; [discriminate|].
        intros (_ & [= <-] & H). contradiction. }
      exists [EvCloseBody]. split; [reflexivity|]. split; [now right|].
      split; [intros resp' [= <-] _; now split|].
      split; [intros _; now exists resp|discriminate].
Qed.

Lemma postToSeller_status_witness :
  exists o e l,
    postToSeller toy_lib env_bad_gateway PostWork "multipart/form-data" false
      toy_chunked =
    (Returned (o, e),
     logged (EvPost PostWork "http://seller/" "multipart/form-data" false :: l)
       toy_chunked) /\
    e = Some "Seller returned bad status '502 Bad Gateway' [response: ?]"%string
    /\ l = [EvCloseBody].
Proof.
  pose proof (postToSeller_status toy_lib env_bad_gateway PostWork
                "multipart/form-data" false toy_chunked) as H.
  change (tx_WorkerURL (tx (act toy_chunked)))
    with (Some "http://seller/"%string) in H.
  cbv iota beta in H.
  destruct H as (o & e & l & Hr & _ & _ & Hl).
  change (NewRequest_error toy_lib "POST" "http://seller/")
    with (@None error) in Hl.
  cbv iota beta in Hl.
  destruct Hl as (l' & -> & _ & Hbad & _).
  destruct (Hbad bad_gateway eq_refl ltac:(discriminate)) as [-> ->].
  eexists o, _, _. split; [exact Hr|]. split; reflexivity.
Defined.

(** ** What the transmissions hand back *)

Lemma returns_bind_with {A B} (Qa : A -> Prop) (Q : B -> Prop) (m : Act A)
    (k : A -> Act B) :
  returns Qa m -> (forall a, Qa a -> returns Q (k a)) -> returns Q (bind m k).
Proof.
  intros Hm Hk s b. unfold bind. specialize (Hm s).
  destruct (m s) as [[a|msg|] s1]; cbn [fst] in *; try discriminate.
  apply Hk. now apply Hm.
Qed.

Lemma returns_postToSeller lib env kind contentType compressed :
  returns (fun r => match r with
                    | (Some resp, None) =>
                        env_post env kind = inr resp /\
                        StatusCode resp = StatusOK
                    | (None, Some _) => True
                    | _ => False
                    end)
    (postToSeller lib env kind contentType compressed).
Proof.
  intros s r. unfold postToSeller. run_act.
  destruct (tx_WorkerURL (tx (act s))) as [url|]; run_act; [|discriminate].
  destruct (NewRequest_error lib "POST" url); run_act; [now intros [= <-]|].
  destruct (env_post env kind) as [err|resp] eqn:Hpost; run_act;
    [now intros [= <-]|].
  destruct (Z.eqb_spec (StatusCode resp) StatusOK) as [Hok|Hbad];
    cbn [negb]; run_act; now intros [= <-].
Qed.

(** The last step of the transmissions: the body of the response. *)
Lemma returns_body lib env kind contentType compressed (wrap : error -> error) :
  returns (transmitted env kind)
    (r <- postToSeller lib env kind contentType compressed ;;
     match snd r with
     | Some err => ret (None, Some (wrap err))
     | None => resp <- deref (fst r) ;; ret (Some (Body resp), None)
     end).
Proof.
  eapply returns_bind_with; [apply returns_postToSeller|].
  intros [[resp|] [err|]] H; cbn [fst snd deref]; try contradiction.
  - intros s a. unfold bind, ret. cbn. intros [= <-].
    destruct H as [Hpost Hok]. now exists resp.
  - now apply returns_ret.
Qed.

Lemma returns_transmitWorkLinear lib env :
  returns (transmitted env PostWork) (transmitWorkLinear lib env).
Proof.
  unfold transmitWorkLinear. apply returns_bind; intros _.
  apply (returns_body lib env PostWork _ false (fun e => e)).
Qed.

Lemma returns_sendMissingChunksAndReturnResult lib env wishList compressed si :
  returns (transmitted env PostChunkData)
    (sendMissingChunksAndReturnResult lib env wishList compressed si).
Proof.
  unfold sendMissingChunksAndReturnResult. apply returns_defer.
  apply returns_bind; intros _. apply returns_body.
Qed.

Lemma returns_transmitWorkChunked lib env compressed legacy :
  returns (transmitted env PostChunkData)
    (transmitWorkChunked lib env compressed legacy).
Proof.
  unfold transmitWorkChunked, transmitChunks, transmitSyncInfo. cbv zeta.
  returns_go ltac:(first [ exact I
                         | apply returns_sendMissingChunksAndReturnResult ]).
Qed.

(** ** Receiving the encrypted result *)

Lemma io_Copy_complete wr r :
  forall i written,
    snd (io_Copy wr r i written) = None ->
    fst (io_Copy wr r i written) = written ++ reads_data r /\
    reads_error r = None.
Proof.
  induction r as [|[chunk|e] r IH]; intros i written.
  - cbn. now rewrite app_nil_r.
  - destruct chunk as [|b chunk].
    + cbn [io_Copy reads_data reads_error app]. apply IH.
    + cbn [io_Copy reads_data reads_error].
      destruct (wr i); [discriminate|]. intros H.
      destruct (IH _ _ H) as [Hd He]. rewrite Hd, <- app_assoc. now split.
  - discriminate.
Qed.

(** A transmission that failed is not received. *)
Lemma receiveEncryptedResult_failed lib env response err s :
  fst (receiveEncryptedResult lib env response (Some err) s) <> Returned None.
Proof.
  unfold receiveEncryptedResult. run_act.
  destruct response as [body|]; run_act; discriminate.
Qed.

(** The run of [receiveEncryptedResult] that returns nil. *)
Lemma receiveEncryptedResult_ok lib env body s s' :
  receiveEncryptedResult lib env (Some body) None s = (Returned None, s') ->
  exists f sig url,
    let id := next_handle s in
    let h := Thash_String lib (cafs_Key lib (file_data f)) in
    f = {| file_handle := S id; file_data := reads_data (rc_reads body) |} /\
    reads_error (rc_reads body) = None /\
    env_SignMessage env = inr sig /\
    tx_WorkerURL (tx (act s)) = Some url /\
    act s' = set_encResultHashSig sig (set_encResultFile (Some f) (act s)) /\
    trace s' =
      trace s ++
      [EvLog "Received result from seller (error: <nil>)";
       EvCreateTemp id ("Buy #" +s+ key (act s) +s+ ": encrypted result");
       EvCloseBody; EvCloseTemp id; EvTempFile id f;
       EvSignMessage h; EvPostForm url h sig;
       EvDisposeTemp id; EvCloseBody].
Proof.
  unfold receiveEncryptedResult, signReceipt, file_Key. run_act.
  match goal with |- context [io_Copy ?w ?r ?i ?l] =>
    pose proof (io_Copy_complete w r i l) as Hcopy;
    destruct (io_Copy w r i l) as [data [cerr|]] end;
    cbn [fst snd] in *; run_act; [discriminate|].
  destruct (Hcopy eq_refl) as [Hdata Herr]. cbn [app] in Hdata. subst data.
  destruct (rc_close body); run_act; [discriminate|].
  destruct (env_temp_close env TempEncryptedResult); run_act; [discriminate|].
  cbn [encResultFile set_encResultFile file_data].
  destruct (env_SignMessage env) as [err|sig]; run_act; [discriminate|].
  cbn [tx set_encResultHashSig set_encResultFile encResultHashSig].
  destruct (tx_WorkerURL (tx (act s))) as [url|]; run_act; [|discriminate].
  destruct (env_PostForm env) as [err|resp]; run_act; [discriminate|].
  destruct (StatusCode resp =? StatusOK); cbn [negb]; run_act;
    [|discriminate].
  norm_trace. intros [= <-]. cbn [act trace].
  eexists _, sig, url. cbv zeta. repeat split; assumption.
Qed.

Ltac temps_disposed_tac :=
  let id := fresh "id" in
  let info := fresh "info" in
  let Hin := fresh "Hin" in
  intros id info Hin; cbn [In] in Hin;
  repeat (destruct Hin as [Hin|Hin]; [inversion Hin; subst; cbn [In]; tauto|]);
  destruct Hin.

(** Whatever [receiveEncryptedResult] is given, it ends, and the temporary
    it created, if any, is disposed by then. *)
Lemma receiveEncryptedResult_temps lib env response transmissionError s :
  let r := receiveEncryptedResult lib env response transmissionError s in
  fst r <> Blocked /\
  exists l,
    trace (snd r) = trace s ++ l /\
    Forall (fun e => linear_event e = true) l /\
    temps_disposed l.
Proof.
  unfold receiveEncryptedResult, signReceipt, file_Key.
  destruct transmissionError as [terr|], response as [body|]; run_act.
  3:{ repeat (match goal with
              | |- context [io_Copy ?w ?r ?i ?l] =>
                  destruct (io_Copy w r i l) as [? [?|]]
              | |- context [rc_close ?b] => destruct (rc_close b)
              | |- context [env_temp_close ?e ?k] =>
                  destruct (env_temp_close e k)
              | |- context [env_SignMessage ?e] => destruct (env_SignMessage e)
              | |- context [tx_WorkerURL ?t] => destruct (tx_WorkerURL t)
              | |- context [env_PostForm ?e] => destruct (env_PostForm e)
              | |- context [StatusCode ?r =? StatusOK] =>
                  destruct (StatusCode r =? StatusOK)
              end;
              cbn [negb encResultFile set_encResultFile tx
                   set_encResultHashSig encResultHashSig];
              run_act;
              cbn [negb encResultFile set_encResultFile tx
                   set_encResultHashSig encResultHashSig]).
      all: split; [discriminate|].
      all: eexists; norm_trace; (split; [reflexivity|]).
      all: split; [repeat constructor|temps_disposed_tac]. }
  all: split; [discriminate|].
  all: eexists; norm_trace; (split; [reflexivity|]).
  all: split; [repeat constructor|temps_disposed_tac].
Qed.

(** ** The chunked transmission, event by event *)

Ltac ev_tac H := apply H; cbn; rewrite ?eqb_reflx; reflexivity.

Section ChunkedSteps.

Variable lib : Lib.
Variable env : Env.
Variable R : BuyActivity -> BuyActivity -> Prop.
Variable P : Event -> Prop.
Context {R_pre : PreOrder R}.

Lemma steps_newTickets_ev sellerId tickets :
  (forall m, P (EvLog m)) -> (forall t, P (EvNewTicket t sellerId)) ->
  forall i, steps R P (newTickets sellerId i tickets).
Proof.
  intros Hlog Hnew.
  induction tickets as [|ticket rest IH]; intros i; cbn [newTickets].
  - steps_go idtac.
  - unfold log. steps_go ltac:(first [apply Hlog | apply Hnew | apply IH]).
Qed.

Lemma steps_receiveAssistiveDownloadTickets_ev response :
  (forall m, P (EvLog m)) -> (forall t id, P (EvNewTicket t id)) ->
  steps R P (receiveAssistiveDownloadTickets lib response).
Proof.
  intros Hlog Hnew. unfold receiveAssistiveDownloadTickets, log.
  steps_go ltac:(first [ apply Hlog
                       | apply (@steps_mustGetSellerId lib R P R_pre)
                       | apply steps_newTickets_ev; auto ]).
Qed.

Lemma steps_requestMissingChunks_ev syncinfo legacy compressed :
  (forall e, chunked_transmission_event compressed legacy e = true -> P e) ->
  steps R P (requestMissingChunks lib env syncinfo legacy compressed).
Proof.
  intros HP. unfold requestMissingChunks.
  steps_go ltac:(first [ ev_tac HP
                       | apply (@steps_postToSeller lib env R P R_pre);
                         intros; ev_tac HP
                       | apply steps_receiveAssistiveDownloadTickets_ev;
                         intros; ev_tac HP ]).
Qed.

Lemma steps_sendMissingChunksAndReturnResult_ev wishList compressed legacy si :
  (forall e, chunked_transmission_event compressed legacy e = true -> P e) ->
  steps R P (sendMissingChunksAndReturnResult lib env wishList compressed si).
Proof.
  intros HP. unfold sendMissingChunksAndReturnResult.
  steps_go ltac:(first [ ev_tac HP
                       | apply (@steps_postToSeller lib env R P R_pre);
                         intros; ev_tac HP ]).
Qed.

Lemma steps_transmitSyncInfo_ev syncinfo compressed legacy :
  (forall e, chunked_transmission_event compressed legacy e = true -> P e) ->
  steps R P (transmitSyncInfo lib env syncinfo compressed legacy).
Proof.
  intros HP. unfold transmitSyncInfo, body_Close.
  steps_go ltac:(first [ ev_tac HP
                       | apply steps_requestMissingChunks_ev; exact HP
                       | eapply steps_sendMissingChunksAndReturnResult_ev;
                         exact HP ]).
Qed.

Lemma steps_transmitWorkChunked_ev compressed legacy :
  (forall e, chunked_transmission_event compressed legacy e = true -> P e) ->
  steps R P (transmitWorkChunked lib env compressed legacy).
Proof.
  intros HP. unfold transmitWorkChunked, transmitChunks. cbv zeta.
  destruct legacy;
    steps_go ltac:(first [ ev_tac HP
                         | apply (@steps_mustGetSellerId lib R P R_pre)
                         | apply steps_transmitSyncInfo_ev; exact HP ]).
Qed.

Lemma steps_probeSeller_ev :
  (forall e, probe_event e = true -> P e) -> steps R P (probeSeller lib env).
Proof.
  intros HP. unfold probeSeller, testSellerForCapabilities, log, body_Close.
  steps_go ltac:(ev_tac HP).
Qed.

End ChunkedSteps.

(** What the probe answers when it finds a capability. *)
Lemma returns_probeSeller lib env :
  returns (fun caps =>
             let '(chunked, compressed, legacy) := caps in
             chunked = true \/ compressed = true \/ legacy = false ->
             advertised lib env chunked compressed legacy)
    (probeSeller lib env).
Proof.
  intros s caps. unfold probeSeller, testSellerForCapabilities, advertised.
  run_act.
  destruct (workFile (act s)) as [wf|]; run_act; [|discriminate].
  destruct (cafs_IsChunked lib (file_data wf)); run_act.
  2:{ intros [= <-]. intros [H|[H|H]]; discriminate H. }
  destruct (tx_WorkerURL (tx (act s))) as [url|]; run_act; [|discriminate].
  destruct (NewRequest_error lib "OPTIONS" url); run_act.
  { intros [= <-]. intros [H|[H|H]]; discriminate H. }
  destruct (env_options env) as [err|resp]; run_act.
  { intros [= <-]. intros [H|[H|H]]; discriminate H. }
  destruct (Z.eqb_spec (StatusCode resp) StatusOK) as [Hok|Hbad];
    cbn [negb]; run_act.
  2:{ intros [= <-]. intros [H|[H|H]]; discriminate H. }
  destruct (json_Decode_caps lib (rc_reads (Body resp))) as [err|c] eqn:Hc;
    run_act.
  { intros [= <-]. intros [H|[H|H]]; discriminate H. }
  intros [= <-]. intros _. exists resp, c. repeat split; assumption.
Qed.

(** ** Computations that never wait *)

Lemma ends_ret {A} (a : A) : ends (ret a).
Proof. intros s. discriminate. Qed.

Lemma ends_panic {A} msg : ends (@panic A msg).
Proof. intros s. discriminate. Qed.

Lemma ends_emit e : ends (emit e).
Proof. intros s. discriminate. Qed.

Lemma ends_get_act : ends get_act.
Proof. intros s. discriminate. Qed.

Lemma ends_execSync f : ends (execSync f).
Proof. intros s. discriminate. Qed.

Lemma ends_fresh_handle : ends fresh_handle.
Proof. intros s. discriminate. Qed.

Lemma ends_deref {A} (p : option A) : ends (deref p).
Proof. destruct p; intros s; discriminate. Qed.

Lemma ends_bind {A B} (m : Act A) (k : A -> Act B) :
  ends m -> (forall a, ends (k a)) -> ends (bind m k).
Proof.
  intros Hm Hk s. unfold bind. specialize (Hm s).
  destruct (m s) as [[a|msg|] s1]; cbn [fst] in *;
    [apply Hk|discriminate|congruence].
Qed.

Lemma ends_defer {A} (d : Act unit) (body : Act A) :
  ends d -> ends body -> ends (defer_ d body).
Proof.
  intros Hd Hb s. unfold defer_. specialize (Hb s).
  destruct (body s) as [[a|msg|] s1]; cbn [fst] in *; try congruence;
    specialize (Hd s1); destruct (d s1) as [[u|m|] s2]; cbn [fst] in *;
    congruence.
Qed.

Ltac ends_go tac :=
  repeat first
    [ solve [tac]
    | match goal with
      | |- ends (ret _) => apply ends_ret
      | |- ends (panic _) => apply ends_panic
      | |- ends (emit _) => apply ends_emit
      | |- ends (log _) => apply ends_emit
      | |- ends get_act => apply ends_get_act
      | |- ends (execSync _) => apply ends_execSync
      | |- ends fresh_handle => apply ends_fresh_handle
      | |- ends (deref _) => apply ends_deref
      | |- ends (bind _ _) => apply ends_bind
      | |- ends (defer_ _ _) => apply ends_defer
      | |- ends ((fun _ => _) _) => cbv beta
      | |- ends (match ?x with _ => _ end) => destruct x
      | |- ends (if ?x then _ else _) => destruct x
      | |- ends (let (_, _) := ?x in _) => destruct x
      | |- forall _, _ => intros ?
      end ].

Lemma ends_mustGetSellerId lib : ends (mustGetSellerId lib).
Proof. unfold mustGetSellerId. ends_go idtac. Qed.

Lemma ends_postToSeller lib env kind contentType compressed :
  ends (postToSeller lib env kind contentType compressed).
Proof. unfold postToSeller, body_Close. ends_go idtac. Qed.

Lemma ends_newTickets sellerId tickets :
  forall i, ends (newTickets sellerId i tickets).
Proof.
  induction tickets as [|ticket rest IH]; intros i; cbn [newTickets];
    ends_go ltac:(apply IH).
Qed.

Lemma ends_transmitWork lib env chunked compressed legacy :
  ends (transmitWork lib env chunked compressed legacy).
Proof.
  unfold transmitWork, transmitWorkChunked, transmitChunks, transmitSyncInfo,
    requestMissingChunks, sendMissingChunksAndReturnResult,
    receiveAssistiveDownloadTickets, transmitWorkLinear, body_Close.
  cbv zeta.
  ends_go ltac:(first [ apply ends_mustGetSellerId
                      | apply ends_postToSeller
                      | apply ends_newTickets ]).
Qed.

Lemma ends_probeSeller lib env : ends (probeSeller lib env).
Proof.
  unfold probeSeller, testSellerForCapabilities, body_Close.
  ends_go idtac.
Qed.

(** ** The parts of the contact with the seller *)

Lemma steps_transmitWork lib env chunked compressed legacy :
  steps (keeps (fun a => a))
    (fun e => transmission_event chunked compressed legacy e = true)
    (transmitWork lib env chunked compressed legacy).
Proof.
  unfold transmitWork, transmission_event. destruct chunked.
  - now apply steps_transmitWorkChunked_ev; [typeclasses eauto|].
  - unfold transmitWorkLinear.
    steps_go ltac:(first [ reflexivity
                         | apply steps_postToSeller;
                           [typeclasses eauto|reflexivity..] ]).
Qed.

Lemma returns_transmitWork lib env chunked compressed legacy :
  returns (transmitted env (result_request chunked))
    (transmitWork lib env chunked compressed legacy).
Proof.
  unfold transmitWork, result_request. destruct chunked.
  - apply returns_transmitWorkChunked.
  - apply returns_transmitWorkLinear.
Qed.

(** [interactWithSeller] is its probe, its transmission and the reception
    of the result, between the registration of the transport and the
    deferred calls. *)
Lemma interactWithSeller_parts lib env s :
  exists o1 s1 lp,
    probeSeller lib env (probing_state s) = (o1, s1) /\
    act s1 = act s /\
    trace s1 = trace (probing_state s) ++ lp /\
    Forall (fun e => probe_event e = true) lp /\
    match o1 with
    | Returned (chunked, compressed, legacy) =>
        (chunked = true \/ compressed = true \/ legacy = false ->
         advertised lib env chunked compressed legacy) /\
        exists o2 s2 lt,
          transmitWork lib env chunked compressed legacy s1 = (o2, s2) /\
          act s2 = act s /\
          trace s2 = trace s1 ++ lt /\
          Forall (fun e => transmission_event chunked compressed legacy e
                           = true) lt /\
          match o2 with
          | Returned t =>
              transmitted env (result_request chunked) t /\
              interactWithSeller lib env s =
                (fst (receiveEncryptedResult lib env (fst t) (snd t) s2),
                 contact_exit
                   (snd (receiveEncryptedResult lib env (fst t) (snd t) s2)))
          | Panicked msg =>
              interactWithSeller lib env s = (Panicked msg, contact_exit s2)
          | Blocked => False
          end
    | Panicked msg =>
        interactWithSeller lib env s = (Panicked msg, contact_exit s1)
    | Blocked => False
    end.
Proof.
  rewrite interactWithSeller_run.
  pose proof (@steps_probeSeller_ev lib env (keeps (fun a => a))
                (fun e => probe_event e = true) _ (fun e H => H)
                (probing_state s)) as [Ha (lp & Hlp & Hallp)].
  pose proof (returns_probeSeller lib env (probing_state s)) as Hret.
  pose proof (ends_probeSeller lib env (probing_state s)) as Hend.
  destruct (probeSeller lib env (probing_state s)) as [o1 s1].
  cbn [fst snd] in *. exists o1, s1, lp.
  split; [reflexivity|]. split; [exact Ha|]. split; [exact Hlp|].
  split; [exact Hallp|].
  destruct o1 as [[[chunked compressed] legacy]|msg|];
    [|reflexivity|now apply Hend].
  split; [exact (Hret _ eq_refl)|].
  change (if chunked then transmitWorkChunked lib env compressed legacy
          else transmitWorkLinear lib env)
    with (transmitWork lib env chunked compressed legacy).
  pose proof (steps_transmitWork lib env chunked compressed legacy s1)
    as [Ha2 (lt & Hlt & Hallt)].
  pose proof (returns_transmitWork lib env chunked compressed legacy s1)
    as Hret2.
  pose proof (ends_transmitWork lib env chunked compressed legacy s1) as Hend2.
  unfold bind.
  destruct (transmitWork lib env chunked compressed legacy s1) as [o2 s2].
  cbn [fst snd] in *. exists o2, s2, lt.
  split; [reflexivity|]. split.
  { unfold keeps, probing_state in *. cbn [act] in *. congruence. }
  split; [exact Hlt|]. split; [exact Hallt|].
  destruct o2 as [t|msg|]; [|reflexivity|now apply Hend2].
  split; [exact (Hret2 _ eq_refl)|].
  pose proof (receiveEncryptedResult_temps lib env (fst t) (snd t) s2)
    as [Hend3 _].
  destruct (receiveEncryptedResult lib env (fst t) (snd t) s2)
    as [[v|msg|] s3]; cbn [fst snd] in *; [reflexivity..|now destruct Hend3].
Qed.

(** ** The contact with the seller as a whole *)

Lemma probe_contact_event e :
  probe_event e = true -> contact_event e = true /\ is_create_temp e = false.
Proof. intros H. event_cases e; now split. Qed.

Lemma transmission_contact_event chunked compressed legacy e :
  transmission_event chunked compressed legacy e = true ->
  contact_event e = true /\ is_create_temp e = false.
Proof.
  unfold transmission_event. intros H.
  destruct chunked; event_cases e; now split.
Qed.

Lemma linear_contact_event e : linear_event e = true -> contact_event e = true.
Proof. intros H. event_cases e. Qed.

Lemma temps_disposed_after l1 l2 :
  Forall (fun e => is_create_temp e = false) l1 ->
  temps_disposed l2 -> temps_disposed (l1 ++ l2).
Proof.
  intros H1 H2 id info Hin. apply in_or_app. right.
  apply in_app_or in Hin. destruct Hin as [Hin|Hin].
  - rewrite Forall_forall in H1. now apply H1 in Hin.
  - exact (H2 id info Hin).
Qed.

(** The log of [interactWithSeller]: the probe, the transmission for the
    capabilities found (if the probe returned), the reception of the
    result. *)
Lemma interactWithSeller_trace lib env s :
  exists caps lp lt lr,
    trace (snd (interactWithSeller lib env s)) =
      trace s ++
      [EvGo GoWatchdog; EvNewScopedTransport; EvRegisterTransport] ++
      lp ++ lt ++ lr ++ [EvCloseTransport; EvExitWatchdog] /\
    Forall (fun e => probe_event e = true) lp /\
    Forall (fun e => linear_event e = true) lr /\
    temps_disposed lr /\
    match caps with
    | Some (chunked, compressed, legacy) =>
        (chunked = true \/ compressed = true \/ legacy = false ->
         advertised lib env chunked compressed legacy) /\
        Forall (fun e => transmission_event chunked compressed legacy e = true)
          lt
    | None => lt = []
    end.
Proof.
  destruct (interactWithSeller_parts lib env s)
    as (o1 & s1 & lp & _ & _ & Hlp & Hallp & Hcase).
  cbn [probing_state trace] in Hlp.
  destruct o1 as [[[chunked compressed] legacy]|msg|]; [| |destruct Hcase].
  2:{ rewrite Hcase. cbn [snd contact_exit trace]. rewrite Hlp.
      exists None, lp, [], []. norm_trace. repeat split; try assumption.
      - constructor.
      - intros id info []. }
  destruct Hcase as (Hadv & o2 & s2 & lt & _ & _ & Hlt & Hallt & Hcase).
  exists (Some (chunked, compressed, legacy)), lp, lt.
  destruct o2 as [t|msg|]; [| |destruct Hcase].
  2:{ rewrite Hcase. cbn [snd contact_exit trace]. rewrite Hlt, Hlp.
      exists []. norm_trace. repeat split; try assumption.
      - constructor.
      - intros id info []. }
  destruct Hcase as [_ Hr]. rewrite Hr.
  destruct (receiveEncryptedResult_temps lib env (fst t) (snd t) s2)
    as [_ (lr & Hlr & Hallr & Htemps)].
  cbn [snd contact_exit trace]. rewrite Hlr, Hlt, Hlp.
  exists lr. norm_trace. repeat split; assumption.
Qed.

(** X2.  Every run of [interactWithSeller] starts the watchdog and
    registers the scoped transport first, and whatever happens in between
    (the probe, the transmission, the reception of the result, an error, a
    panic) its last two calls close the transport and tell the watchdog to
    exit; every temporary created in between is disposed by then. *)
Theorem interactWithSeller_cleanup lib env s :
  exists l,
    trace (snd (interactWithSeller lib env s)) =
      trace s ++
      [EvGo GoWatchdog; EvNewScopedTransport; EvRegisterTransport] ++ l ++
      [EvCloseTransport; EvExitWatchdog] /\
    Forall (fun e => contact_event e = true) l /\
    temps_disposed l.
Proof.
  destruct (interactWithSeller_trace lib env s)
    as (caps & lp & lt & lr & Hl & Hallp & Hallr & Htemps & Hcaps).
  assert (Hp : Forall (fun e => contact_event e = true /\
                                is_create_temp e = false) lp)
    by (eapply Forall_impl; [|exact Hallp]; apply probe_contact_event).
  assert (Ht : Forall (fun e => contact_event e = true /\
                                is_create_temp e = false) lt).
  { destruct caps as [[[chunked compressed] legacy]|]; [|subst lt; constructor].
    destruct Hcaps as [_ Hallt].
    eapply Forall_impl; [|exact Hallt]. apply transmission_contact_event. }
  exists (lp ++ lt ++ lr). split; [rewrite Hl; now norm_trace|]. split.
  - apply Forall_app. split; [|apply Forall_app; split].
    + eapply Forall_impl; [|exact Hp]. now intros e [H _].
    + eapply Forall_impl; [|exact Ht]. now intros e [H _].
    + eapply Forall_impl; [|exact Hallr]. apply linear_contact_event.
  - apply temps_disposed_after.
    { eapply Forall_impl; [|exact Hp]. now intros e [_ H]. }
    apply temps_disposed_after; [|exact Htemps].
    eapply Forall_impl; [|exact Ht]. now intros e [_ H].
Qed.


(** The run of [interactWithSeller] that returns nil, as the driver sees
    it. *)
Lemma interactWithSeller_nil lib env s s' :
  interactWithSeller lib env s = (Returned None, s') ->
  exists chunked resp f sig url,
    env_post env (result_request chunked) = inr resp /\
    StatusCode resp = StatusOK /\
    reads_error (rc_reads (Body resp)) = None /\
    file_data f = reads_data (rc_reads (Body resp)) /\
    env_SignMessage env = inr sig /\
    tx_WorkerURL (tx (act s)) = Some url /\
    act s' = set_encResultHashSig sig (set_encResultFile (Some f) (act s)) /\
    let h := Thash_String lib (cafs_Key lib (file_data f)) in
    exists l1 l2 l3,
      trace s' =
        trace s ++ l1 ++ EvSignMessage h :: l2 ++ EvPostForm url h sig :: l3.
Proof.
  intros Hrun.
  destruct (interactWithSeller_parts lib env s)
    as (o1 & s1 & lp & _ & Ha1 & Hlp & _ & Hcase).
  destruct o1 as [[[chunked compressed] legacy]|msg|];
    [|congruence|destruct Hcase].
  destruct Hcase as (_ & o2 & s2 & lt & _ & Ha2 & Hlt & _ & Hcase).
  destruct o2 as [t|msg|]; [|congruence|destruct Hcase].
  destruct Hcase as [Htr Hr]. rewrite Hr in Hrun.
  injection Hrun as Hfst Hsnd.
  destruct t as [[body|] [err|]]; cbn [transmitted fst snd] in *;
    try contradiction.
  2:{ now apply receiveEncryptedResult_failed in Hfst. }
  destruct Htr as (resp & Hpost & Hok & ->).
  destruct (receiveEncryptedResult lib env (Some (Body resp)) None s2)
    as [o3 s3] eqn:Hrecv.
  cbn [fst snd] in *. subst o3 s'.
  destruct (receiveEncryptedResult_ok lib env _ _ _ Hrecv)
    as (f & sig & url & Hf & Herr & Hsig & Hurl & Hact & Htrace).
  cbv zeta in *. rewrite Ha2 in Hurl, Hact, Htrace.
  exists chunked, resp, f, sig, url.
  split; [exact Hpost|]. split; [exact Hok|]. split; [exact Herr|].
  split; [now rewrite Hf|]. split; [exact Hsig|]. split; [exact Hurl|].
  split; [exact Hact|].
  cbn [contact_exit trace]. rewrite Htrace, Hlt, Hlp.
  cbn [probing_state trace]. norm_trace.
  eexists (_ :: _ :: _ :: lp ++ lt ++ [_; _; _; _; _]), [], _.
  cbn [app]. norm_trace. reflexivity.
Qed.



(** ** From the contact with the seller to the decryption *)

(** [doRemoteBuy] once the contact with the seller and the wait for the
    UNVERIFIED phase have both succeeded: the key is captured,
    [decryptResult] runs, and its outcome decides. *)
Lemma doRemoteBuy_decrypting lib env s wf secret s1 :
  env_beginRemoteTrade env = None ->
  draw_secret env = inr secret ->
  workFile (act s) = Some wf ->
  env_SendEstablishBuyer env = None ->
  snd (env_waitTransmitting env) = None ->
  interactWithSeller lib env (transmitting_state lib env s wf secret) =
    (Returned None, s1) ->
  snd (env_waitUnverified env) = None ->
  doRemoteBuy lib env s =
  match
    decryptResult lib env (decrypting_state (after_wait_unverified env s1))
  with
  | (Returned None, s4) =>
      (Returned (resultFile (act s4), None),
       remote_buy_exit (logged [EvGo GoFinishBuy] s4))
  | (Returned (Some err), s4) =>
      (Returned (None, Some ("Error decrypting result: " +s+ err)),
       remote_buy_exit s4)
  | (Panicked msg, s4) => (Panicked msg, remote_buy_exit s4)
  | (Blocked, s4) => (Blocked, s4)
  end.
Proof.
  intros Hb Hd Hw He Ht Hi Hp.
  rewrite (doRemoteBuy_transmitting lib env s wf secret Hb Hd Hw He Ht).
  pose proof (transmitAndDecrypt_cases lib env _ None s1 Hi) as H.
  cbv zeta in H. rewrite Hp in H. rewrite H. clear H.
  assert (Hrun : decryptAndReturn lib env (after_wait_unverified env s1) =
                 (derr <- decryptResult lib env ;;
                  match derr with
                  | Some err =>
                      ret (None, Some ("Error decrypting result: " +s+ err))
                  | None =>
                      emit (EvGo GoFinishBuy) ;;
                      a <- get_act ;;
                      ret (resultFile a, None)
                  end)%act
                   (decrypting_state (after_wait_unverified env s1)))
    by reflexivity.
  rewrite Hrun. clear Hrun. unfold bind at 1.
  destruct (decryptResult lib env _) as [[[err|]|msg|] s4]; run_act;
    reflexivity.
Qed.

(** C4.  In the TRANSMITTING phase, with [ierr] what the contact with the
    seller returns and [perr] what the wait for the UNVERIFIED phase
    returns: when only the contact fails, [doRemoteBuy] returns that
    failure; when only the wait fails, it returns that failure; when both
    fail, it returns one error whose message is the failure of the wait,
    then that of the contact, and so contains both messages.  When neither
    fails and the transaction carries a key of 256 bits, it proceeds to
    the decryption: the key of the transaction as the wait left it is
    captured as [encResultKey], and [decryptResult] runs in that state on
    the encrypted result that the contact stored (the temporary for the
    result is created and that file is opened).  When [decryptResult]
    returns nil, the finisher is started and the [resultFile] that
    [decryptResult] installed, which holds the decrypted bytes, is
    returned; when it returns an error, that error is returned with the
    prefix of the decryption, [resultFile] is as the contact left it and
    no finisher is started.  Either way the deferred calls of
    [doRemoteBuy] come last. *)
Theorem doRemoteBuy_transmitting_failures lib env s wf secret ierr s1 :
  env_beginRemoteTrade env = None ->
  draw_secret env = inr secret ->
  workFile (act s) = Some wf ->
  env_SendEstablishBuyer env = None ->
  snd (env_waitTransmitting env) = None ->
  interactWithSeller lib env (transmitting_state lib env s wf secret) =
    (Returned ierr, s1) ->
  let perr := snd (env_waitUnverified env) in
  let r := fst (doRemoteBuy lib env s) in
  match ierr, perr with
  | Some e1, None => r = Returned (None, Some (seller_failure e1))
  | None, Some e2 => r = Returned (None, Some (phase_failure e2))
  | Some e1, Some e2 =>
      exists msg,
        r = Returned (None, Some msg) /\
        msg = phase_failure e2 +s+ ". Additionally: " +s+ seller_failure e1 /\
        contains msg (seller_failure e1) /\ contains msg (phase_failure e2) /\
        contains msg e1 /\ contains msg e2
  | None, None =>
      let K := tx_ResultDecryptionKey (fst (env_waitUnverified env)) in
      let d :=
        decryptResult lib env
          (decrypting_state (after_wait_unverified env s1)) in
      let s' := snd (doRemoteBuy lib env s) in
      List.length K = 32%nat ->
      exists fenc l,
        encResultFile (act s1) = Some fenc /\
        encResultKey (act s') = K /\
        trace (snd d) =
          trace s1 ++
          EvWaitForPhase PhaseUnverified [PhaseTransmitting; PhaseWorking]
          :: EvCreateTemp (next_handle s1)
               ("Buy #" +s+ key (act s1) +s+ ": result")
          :: EvOpen fenc :: l /\
        ~ In (EvGo GoFinishBuy) l /\
        match fst d with
        | Returned None =>
            exists f,
              file_data f = fst (decrypted_copy lib env K fenc) /\
              r = Returned (Some f, None) /\
              resultFile (act s') = Some f /\
              trace s' =
                trace (snd d) ++
                [EvGo GoFinishBuy; EvAbortPolling; EvReturnTransmissionToken]
        | Returned (Some err) =>
            r = Returned (None, Some ("Error decrypting result: " +s+ err)) /\
            resultFile (act s') = resultFile (act s1) /\
            trace s' =
              trace (snd d) ++ [EvAbortPolling; EvReturnTransmissionToken]
        | _ => False
        end
  end.
Proof.
  intros Hb Hd Hw He Ht Hi perr r. subst perr r.
  destruct ierr as [e1|], (snd (env_waitUnverified env)) as [e2|] eqn:Hp.
  1-3: rewrite (doRemoteBuy_transmitting lib env s wf secret Hb Hd Hw He Ht);
    pose proof (transmitAndDecrypt_cases lib env _ _ s1 Hi) as H;
    cbv zeta in H; rewrite Hp in H.
  - destruct H as (msg & Hr & Hrest). exists msg. now rewrite Hr.
  - now rewrite H.
  - now rewrite H.
  - cbv zeta. intros HK.
    rewrite (doRemoteBuy_decrypting lib env s wf secret s1 Hb Hd Hw He Ht Hi
               Hp).
    destruct (interactWithSeller_nil lib env _ _ Hi)
      as (chunked & resp & fenc & sig & url & _ & _ & _ & _ & _ & _ & Hact
          & _).
    assert (Hfile : encResultFile (act s1) = Some fenc)
      by (now rewrite Hact).
    rewrite decryptResult_run.
    cbn [decrypting_state after_wait_unverified act next_handle trace
         encResultKey set_encResultKey encResultFile set_tx tx key].
    rewrite (aes_NewCipher_256 _ _ HK), Hfile. cbv zeta.
    set (K := tx_ResultDecryptionKey (fst (env_waitUnverified env))) in *.
    destruct (decrypted_copy lib env K fenc) as [data [cerr|]] eqn:Hcopy;
      cbn [fst snd].
    { exists fenc, [EvCloseFileReader fenc; EvDisposeTemp (next_handle s1)].
      cbn [remote_buy_exit act trace fst snd encResultKey set_encResultKey
           resultFile set_tx].
      norm_trace. split; [reflexivity|]. split; [reflexivity|].
      split; [reflexivity|].
      split; [intros [E|[E|[]]]; discriminate E|].
      split; [reflexivity|]. split; reflexivity. }
    destruct (env_temp_close env TempResult) as [cerr|].
    { exists fenc, [EvCloseTemp (next_handle s1); EvCloseFileReader fenc;
                    EvDisposeTemp (next_handle s1)].
      cbn [remote_buy_exit act trace fst snd encResultKey set_encResultKey
           resultFile set_tx].
      norm_trace. split; [reflexivity|]. split; [reflexivity|].
      split; [reflexivity|].
      split; [intros [E|[E|[E|[]]]]; discriminate E|].
      split; [reflexivity|]. split; reflexivity. }
    eexists fenc, [_; _; _; _].
    cbn [remote_buy_exit logged act trace fst snd encResultKey
         set_encResultKey set_resultFile resultFile set_tx].
    norm_trace. split; [reflexivity|]. split; [reflexivity|].
    split; [reflexivity|].
    split; [intros [E|[E|[E|[E|[]]]]]; discriminate E|].
    eexists. split; [|split; [reflexivity|split; reflexivity]].
    cbn [file_data]. now rewrite Hcopy.
Qed.

Lemma doRemoteBuy_transmitting_failures_witness :
  (exists msg,
     fst (doRemoteBuy toy_lib env_both_fail toy_transmitting) =
       Returned (None, Some msg) /\
     msg = ("Error awaiting UNVERIFIED phase: transaction retired. " +s+
            "Additionally: Error transmitting work and receiving " +s+
            "encrypted result: connection refused")%string) /\
  (exists f,
     fst (doRemoteBuy toy_lib toy_env toy_transmitting) =
       Returned (Some f, None) /\
     resultFile (act (snd (doRemoteBuy toy_lib toy_env toy_transmitting))) =
       Some f /\
     In (EvGo GoFinishBuy)
       (trace (snd (doRemoteBuy toy_lib toy_env toy_transmitting)))).
Proof.
  split.
  - pose proof (doRemoteBuy_transmitting_failures toy_lib env_both_fail
                  toy_transmitting
                  {| file_handle := 0; file_data := [1; 2; 3] |}
                  (map Z.of_nat (seq 0 32))
                  (Some "connection refused"%string)
                  (snd (interactWithSeller toy_lib env_both_fail
                          (transmitting_state toy_lib env_both_fail
                             toy_transmitting
                             {| file_handle := 0; file_data := [1; 2; 3] |}
                             (map Z.of_nat (seq 0 32)))))
                  eq_refl eq_refl eq_refl eq_refl eq_refl
                  ltac:(vm_compute; reflexivity)) as H.
    cbv zeta in H. change (snd (env_waitUnverified env_both_fail))
      with (Some "transaction retired"%string) in H.
    destruct H as (msg & Hr & Hmsg & _). exists msg. rewrite Hr.
    split; [reflexivity|]. rewrite Hmsg. reflexivity.
  - pose proof (doRemoteBuy_transmitting_failures toy_lib toy_env
                  toy_transmitting
                  {| file_handle := 0; file_data := [1; 2; 3] |}
                  (map Z.of_nat (seq 0 32))
                  None
                  (snd (interactWithSeller toy_lib toy_env
                          (transmitting_state toy_lib toy_env
                             toy_transmitting
                             {| file_handle := 0; file_data := [1; 2; 3] |}
                             (map Z.of_nat (seq 0 32)))))
                  eq_refl eq_refl eq_refl eq_refl eq_refl
                  ltac:(vm_compute; reflexivity)) as H.
    cbv zeta in H. change (snd (env_waitUnverified toy_env))
      with (@None error) in H. cbv iota in H.
    destruct (H eq_refl) as (fenc & l & _ & _ & _ & _ & Hcase).
    destruct (fst (decryptResult toy_lib toy_env _)) as [[err|]|msg|];
      try contradiction.
    + exfalso. destruct Hcase as [Hrun _]. revert Hrun.
      vm_compute. discriminate.
    + destruct Hcase as (f & _ & Hrun & Hres & Htrace). exists f.
      split; [exact Hrun|]. split; [exact Hres|].
      rewrite Htrace. apply in_or_app. right. now left.
Defined.

Lemma chunked_transmission_caps compressed legacy e :
  chunked_transmission_event compressed legacy e = true ->
  (gzip_event e = true -> compressed = true) /\
  ((exists id h, e = EvInitNode id h) -> legacy = false).
Proof.
  intros H. split.
  - intros Hg. destruct e; try discriminate Hg.
    destruct gzip; [|discriminate Hg].
    destruct kind; try discriminate H; cbn in H; now destruct compressed.
  - intros (id & h & ->). cbn in H. now destruct legacy.
Qed.

Lemma linear_transmission_plain e :
  linear_transmission_event e = true ->
  chunked_event e = false /\ gzip_event e = false.
Proof. intros H. event_cases e; now split. Qed.

(** X4.  [interactWithSeller] uses only what the seller advertised.
    Whenever it logs a call of the chunked transmission (a request with
    the sync info or the chunk data, their producers, the ticket registry)
    or a request with a gzip-compressed body, the seller had answered the
    OPTIONS request with status 200 and with capabilities that list the
    chunked transmission; a compressed request is then only made when the
    capabilities list gzip as well, and a node is only registered with the
    ticket registry when they list the sync info. *)
Theorem interactWithSeller_advertised lib env s :
  exists l,
    trace (snd (interactWithSeller lib env s)) = trace s ++ l /\
    forall e,
      In e l -> chunked_event e = true \/ gzip_event e = true ->
      exists resp caps,
        env_options env = inr resp /\ StatusCode resp = StatusOK /\
        json_Decode_caps lib (rc_reads (Body resp)) = inr caps /\
        Adler32Chunking caps = true /\
        (gzip_event e = true -> GZIPCompression caps = true) /\
        ((exists id h, e = EvInitNode id h) -> SyncInfoCap caps = true).
Proof.
  destruct (interactWithSeller_trace lib env s)
    as (caps & lp & lt & lr & Hl & Hallp & Hallr & _ & Hcaps).
  eexists. split; [exact Hl|]. intros e Hin He.
  rewrite Forall_forall in Hallp, Hallr.
  assert (Hlt : In e lt).
  { cbn [app] in Hin. destruct Hin as [<-|[<-|[<-|Hin]]];
      try (destruct He as [He|He]; discriminate He).
    apply in_app_or in Hin. destruct Hin as [Hin|Hin].
    { destruct (probe_not_chunked e (Hallp e Hin)) as [H1 H2].
      destruct He; congruence. }
    apply in_app_or in Hin. destruct Hin as [Hin|Hin]; [exact Hin|].
    apply in_app_or in Hin. destruct Hin as [Hin|Hin].
    { destruct (linear_not_chunked e (or_introl (Hallr e Hin)))
        as (H1 & H2 & _).
      destruct He; congruence. }
    destruct Hin as [<-|[<-|[]]]; destruct He as [He|He]; discriminate He. }
  destruct caps as [[[chunked compressed] legacy]|]; [|now subst lt].
  destruct Hcaps as [Hadv Hallt]. rewrite Forall_forall in Hallt.
  pose proof (Hallt e Hlt) as Hev. unfold transmission_event in Hev.
  destruct chunked.
  2:{ destruct (linear_transmission_plain e Hev). destruct He; congruence. }
  destruct (Hadv (or_introl eq_refl))
    as (resp & c & Hopt & Hok & Hdec & Hc & Hz & Hy).
  destruct (chunked_transmission_caps compressed legacy e Hev) as [Hgz Hinit].
  exists resp, c. repeat split; try assumption.
  - now symmetry.
  - intros Hg. rewrite <- Hz. now apply Hgz.
  - intros Hi. apply Hinit in Hi. rewrite Hi in Hy.
    now destruct (SyncInfoCap c).
Qed.

(** ** How a buy ends *)

Lemma not_finisher_In l :
  Forall (fun e => is_finisher e = false) l -> ~ In (EvGo GoFinishBuy) l.
Proof.
  intros H Hin. rewrite Forall_forall in H. now apply H in Hin.
Qed.

Lemma shaped_fail remote err : shaped remote (ret (None, Some err)).
Proof.
  intros s. exists []. cbn. rewrite app_nil_r. repeat split. intros [].
Qed.

Lemma shaped_bind {A} remote (m : Act A) k :
  steps (keeps resultFile) (fun e => is_finisher e = false) m ->
  (forall a, shaped remote (k a)) -> shaped remote (bind m k).
Proof.
  intros Hm Hk s. unfold bind. destruct (Hm s) as [Hr (l & Hl & Hall)].
  pose proof (not_finisher_In l Hall) as Hnot.
  destruct (m s) as [[a|msg|] s1]; cbn [fst snd] in *;
    try (exists l; now repeat split).
  destruct (Hk a s1) as (l' & Hl' & Hcase). exists (l ++ l').
  split; [now rewrite Hl', Hl, app_assoc|].
  destruct (fst (k a s1)) as [[[f|] [e|]]|msg|]; try contradiction;
    destruct Hcase as [H1 H2].
  - split; [exact H1|]. intros Hrem. apply in_or_app. right. auto.
  - split; [unfold keeps in Hr; congruence|].
    intros Hin. apply in_app_or in Hin. tauto.
  - split; [unfold keeps in Hr; congruence|].
    intros Hin. apply in_app_or in Hin. tauto.
  - split; [unfold keeps in Hr; congruence|].
    intros Hin. apply in_app_or in Hin. tauto.
Qed.

Lemma shaped_defer remote e body :
  is_finisher e = false -> shaped remote body ->
  shaped remote (defer_ (emit e) body).
Proof.
  intros He Hb s. unfold defer_, emit. destruct (Hb s) as (l & Hl & Hcase).
  assert (Hne : ~ In (EvGo GoFinishBuy) [e]).
  { intros [->|[]]. discriminate He. }
  destruct (body s) as [[[[f|] [err|]]|msg|] s1]; cbn [fst snd act trace] in *;
    try contradiction; try (exists l; now split);
    exists (l ++ [e]); (split; [now rewrite Hl, app_assoc|]);
    destruct Hcase as [H1 H2]; (split; [exact H1|]).
  - intros Hrem. apply in_or_app. left. auto.
  - intros Hin. apply in_app_or in Hin. tauto.
  - intros Hin. apply in_app_or in Hin. tauto.
Qed.

Lemma shaped_decryptAndReturn lib env : shaped true (decryptAndReturn lib env).
Proof.
  intros s. unfold decryptAndReturn, buy_shape. run_act.
  rewrite decryptResult_run. cbv zeta.
  cbn [act next_handle trace encResultKey set_encResultKey encResultFile].
  destruct (aes_NewCipher lib _) as [err|blk]; run_act.
  { exists []. rewrite app_nil_r. repeat split. intros []. }
  destruct (encResultFile (act s)) as [f|]; run_act.
  2:{ eexists. split; [reflexivity|]. split; [reflexivity|].
      intros [H|[H|[]]]; discriminate H. }
  destruct (snd (decrypted_copy lib env _ f)) as [err|]; run_act.
  { eexists. split; [reflexivity|]. split; [reflexivity|].
    intros [H|[H|[H|[H|[]]]]]; discriminate H. }
  destruct (env_temp_close env TempResult) as [err|]; run_act.
  { eexists. split; [reflexivity|]. split; [reflexivity|].
    intros [H|[H|[H|[H|[H|[]]]]]]; discriminate H. }
  norm_trace. eexists. split; [reflexivity|]. split; [reflexivity|].
  intros _. cbn. tauto.
Qed.

Lemma seller_not_finisher e : seller_event e = true -> is_finisher e = false.
Proof. intros H. event_cases e. Qed.

Lemma shaped_transmitAndDecrypt lib env :
  shaped true (transmitAndDecrypt lib env).
Proof.
  unfold transmitAndDecrypt. apply shaped_bind.
  { apply steps_interactWithSeller;
      first [typeclasses eauto | reflexivity | apply seller_not_finisher]. }
  intros ierr. apply shaped_bind.
  { unfold waitForTransactionPhase. steps_go ltac:(reflexivity). }
  intros perr. destruct ierr as [e1|], perr as [e2|]; cbn [is_nil andb];
    first [apply shaped_fail | apply shaped_decryptAndReturn].
Qed.

Lemma shaped_doRemoteBuy lib env : shaped true (doRemoteBuy lib env).
Proof.
  unfold doRemoteBuy, establishAndTransmit, returnTransmissionToken,
    beginRemoteTrade, SendTxMessageEstablishBuyer.
  apply shaped_defer; [reflexivity|].
  apply shaped_bind; [steps_go ltac:(reflexivity)|]. intros berr.
  destruct berr as [err|]; [apply shaped_fail|].
  destruct (draw_secret env) as [err|secret]; [apply shaped_fail|].
  apply shaped_bind; [steps_go ltac:(reflexivity)|]. intros _.
  apply shaped_bind; [unfold log; steps_go ltac:(reflexivity)|]. intros _.
  apply shaped_bind; [steps_go ltac:(reflexivity)|]. intros a.
  apply shaped_bind; [steps_go ltac:(reflexivity)|]. intros wf.
  cbv zeta. apply shaped_defer; [reflexivity|].
  apply shaped_bind; [steps_go ltac:(reflexivity)|]. intros _.
  apply shaped_bind; [steps_go ltac:(reflexivity)|]. intros a'.
  apply shaped_bind; [steps_go ltac:(reflexivity)|]. intros eerr.
  destruct eerr as [err|]; [apply shaped_fail|].
  apply shaped_bind.
  { unfold waitForTransactionPhase. steps_go ltac:(reflexivity). }
  intros werr. destruct werr as [err|]; [apply shaped_fail|].
  apply shaped_transmitAndDecrypt.
Qed.

(** X5.  The goroutine that finishes the buy (the accept message and the
    wait for the transaction to leave the active state) is started exactly
    in the runs of [doRemoteBuy] that return a file and no error; the file
    returned is then the [resultFile] of the activity.  In every other run
    (an error, a panic) [resultFile] is as it was, and a run that returns
    gives either a file or an error, never both or neither. *)
Theorem doRemoteBuy_finisher lib env s :
  let r := doRemoteBuy lib env s in
  exists l,
    trace (snd r) = trace s ++ l /\
    (In (EvGo GoFinishBuy) l <-> exists f, fst r = Returned (Some f, None)) /\
    (forall f, fst r = Returned (Some f, None) ->
               resultFile (act (snd r)) = Some f) /\
    ((forall f, fst r <> Returned (Some f, None)) ->
     resultFile (act (snd r)) = resultFile (act s)) /\
    (forall f e, fst r = Returned (f, e) -> is_nil f = negb (is_nil e)).
Proof.
  intros r. subst r.
  destruct (shaped_doRemoteBuy lib env s) as (l & Hl & Hcase).
  exists l. split; [exact Hl|].
  destruct (fst (doRemoteBuy lib env s)) as [[[f|] [e|]]|msg|];
    try contradiction; destruct Hcase as [H1 H2].
  - split; [split; [now exists f|auto]|]. split; [now intros f' [= <-]|].
    split; [intros H; now destruct (H f)|]. now intros f' e' [= <- <-].
  - split; [split; [tauto|intros [f' H]; discriminate H]|].
    split; [discriminate|]. split; [auto|]. now intros f' e' [= <- <-].
  - split; [split; [tauto|intros [f' H]; discriminate H]|].
    split; [discriminate|]. split; [auto|]. discriminate.
  - split; [split; [tauto|intros [f' H]; discriminate H]|].
    split; [discriminate|]. split; [auto|]. discriminate.
Qed.

Lemma shaped_weaken m : shaped true m -> shaped false m.
Proof.
  intros H s. destruct (H s) as (l & Hl & Hcase). exists l.
  split; [exact Hl|].
  destruct (fst (m s)) as [[[f|] [e|]]|msg|]; try assumption.
  split; [apply Hcase|discriminate].
Qed.

Lemma bind_run {A B} (m : Act A) (k : A -> Act B) s :
  bind m k s =
  match fst (m s) with
  | Returned a => k a (snd (m s))
  | Panicked msg => (Panicked msg, snd (m s))
  | Blocked => (Blocked, snd (m s))
  end.
Proof. unfold bind. now destruct (m s) as [[a|msg|] s1]. Qed.

Lemma shaped_doLocalBuy lib env sell : shaped false (doLocalBuy lib env sell).
Proof.
  intros s. unfold doLocalBuy, buy_shape.
  rewrite bind_run, doLocalBuy_wait.
  destruct (wait_outcome (env_sell_wakes env)); run_act.
  - eexists. split; [reflexivity|]. split; [reflexivity|discriminate].
  - exists []. rewrite app_nil_r. repeat split. intros [].
  - exists []. rewrite app_nil_r. repeat split. intros [].
  - exists []. rewrite app_nil_r. repeat split. intros [].
Qed.

Lemma shaped_doPerformBuy lib env : shaped false (doPerformBuy lib env).
Proof.
  unfold doPerformBuy, awaitClearance.
  apply shaped_bind; [steps_go ltac:(reflexivity)|]. intros cerr.
  destruct cerr as [err|]; [apply shaped_fail|].
  apply shaped_bind; [steps_go ltac:(reflexivity)|]. intros a.
  destruct (localMatch a) as [sell|].
  - apply shaped_doLocalBuy.
  - apply shaped_weaken, shaped_doRemoteBuy.
Qed.

(** ** What a buy leaves alone *)

Lemma steps_interruptibleWaitWhile lib R P {R_pre : PreOrder R} {L} wakes
    (pred : SellState -> L -> Act (bool * L)) :
  (forall st l, steps R P (pred st l)) ->
  forall l, steps R P (interruptibleWaitWhile lib wakes pred l).
Proof.
  intros Hpred. induction wakes as [|[|st] wakes IH]; intros l;
    cbn [interruptibleWaitWhile].
  - steps_prim.
  - steps_prim.
  - steps_go ltac:(first [apply Hpred | apply IH]).
Qed.

Lemma steps_doLocalBuy lib env R P {R_pre : PreOrder R} sell :
  (forall v a, R a (set_resultFile v a)) ->
  (forall src dup, P (EvDuplicate src dup)) ->
  steps R P (doLocalBuy lib env sell).
Proof.
  intros HR HP. unfold doLocalBuy.
  steps_go ltac:(first [ apply HR
                       | apply steps_interruptibleWaitWhile;
                         [exact R_pre|]; intros st l;
                         unfold file_Duplicate; steps_go ltac:(apply HP) ]).
Qed.

Section Frame.

Variable lib : Lib.
Variable env : Env.
Variable R : BuyActivity -> BuyActivity -> Prop.
Context {R_pre : PreOrder R}.

Hypothesis R_tx : forall v a, R a (set_tx v a).
Hypothesis R_encResultFile : forall v a, R a (set_encResultFile v a).
Hypothesis R_encResultHashSig : forall v a, R a (set_encResultHashSig v a).
Hypothesis R_encResultKey : forall v a, R a (set_encResultKey v a).
Hypothesis R_resultFile : forall v a, R a (set_resultFile v a).
Hypothesis R_buyerSecret : forall v a, R a (set_buyerSecret v a).

Lemma frame_doLocalBuy sell :
  steps R (fun _ => True) (doLocalBuy lib env sell).
Proof.
  apply steps_doLocalBuy;
    first [exact R_pre | exact R_resultFile | intros; exact I].
Qed.

Lemma frame_doRemoteBuy : steps R (fun _ => True) (doRemoteBuy lib env).
Proof.
  unfold doRemoteBuy, returnTransmissionToken, beginRemoteTrade, log.
  steps_go ltac:(first [ exact I
                       | apply R_buyerSecret
                       | apply steps_establishAndTransmit;
                         first [ exact R_pre | assumption
                               | intros; exact I ] ]).
Qed.

Lemma frame_doPerformBuy : steps R (fun _ => True) (doPerformBuy lib env).
Proof.
  unfold doPerformBuy, awaitClearance.
  steps_go ltac:(first [ exact I | apply frame_doLocalBuy
                       | apply frame_doRemoteBuy ]).
Qed.

End Frame.

(** The run of [PerformBuy] around [doPerformBuy]. *)
Lemma PerformBuy_run lib env wf s :
  let dup := {| file_handle := next_handle s; file_data := file_data wf |} in
  let s0 := {| act := set_workFile (Some dup) (act s);
               next_handle := S (next_handle s);
               trace := trace s ++ [EvLog "Buy started"; EvDuplicate wf dup] |}
  in
  PerformBuy lib env wf s =
  match doPerformBuy lib env s0 with
  | (Returned (f, Some err), s1) =>
      (Returned (f, Some err),
       {| act := set_alive false (set_lastError (Some err) (act s1));
          next_handle := next_handle s1;
          trace := trace s1 ++ [EvLog "Buy finished"] |})
  | (Returned (f, None), s1) =>
      (Returned (f, None),
       {| act := set_alive false (act s1);
          next_handle := next_handle s1;
          trace := trace s1 ++ [EvLog "Buy finished"] |})
  | (Panicked msg, s1) =>
      (Panicked msg,
       {| act := set_alive false (act s1);
          next_handle := next_handle s1;
          trace := trace s1 ++ [EvLog "Buy finished"] |})
  | (Blocked, s1) => (Blocked, s1)
  end.
Proof.
  unfold PerformBuy. run_act. norm_trace.
  destruct (doPerformBuy lib env _) as [[[f [err|]]|msg|] s1]; run_act;
    reflexivity.
Qed.

(** X6.  What [PerformBuy] returns.  A run that returns gives either a
    file and no error, or an error and no file.  The file is the
    [resultFile] of the activity, and [lastError] is then as it was before
    the buy; the error is recorded as [lastError], and [resultFile] is then
    as it was before the buy. *)
Theorem PerformBuy_result lib env wf s f e :
  fst (PerformBuy lib env wf s) = Returned (f, e) ->
  let a' := act (snd (PerformBuy lib env wf s)) in
  match f, e with
  | Some rf, None =>
      resultFile a' = Some rf /\ lastError a' = lastError (act s)
  | None, Some err =>
      lastError a' = Some err /\ resultFile a' = resultFile (act s)
  | _, _ => False
  end.
Proof.
  rewrite PerformBuy_run. cbv zeta.
  match goal with
  | |- context [doPerformBuy lib env ?st] =>
      pose proof (shaped_doPerformBuy lib env st) as (l & _ & Hshape);
      pose proof (@frame_doPerformBuy lib env (keeps lastError) _
                    ltac:(reflexivity) ltac:(reflexivity) ltac:(reflexivity)
                    ltac:(reflexivity) ltac:(reflexivity) ltac:(reflexivity)
                    st) as [Hkeep _];
      destruct (doPerformBuy lib env st) as [[[f' e']|msg|] s1]
  end; cbn [fst snd act] in *.
  - unfold keeps in Hkeep. cbn in Hkeep.
    destruct f' as [rf|], e' as [err|]; try contradiction;
      cbn [fst snd act]; intros [= <- <-]; destruct Hshape as [H1 _];
      cbn; now split.
  - discriminate.
  - discriminate.
Qed.

Lemma PerformBuy_result_witness :
  resultFile
    (act (snd (PerformBuy toy_lib toy_env toy_work (initial toy_activity 1))))
    = Some {| file_handle := 5; file_data := [13; 12; 3] |} /\
  lastError
    (act (snd (PerformBuy toy_lib toy_env toy_work (initial toy_activity 1))))
    = None.
Proof.
  exact (PerformBuy_result toy_lib toy_env toy_work (initial toy_activity 1)
           (Some {| file_handle := 5; file_data := [13; 12; 3] |}) None
           ltac:(vm_compute; reflexivity)).
Defined.



(** X8.  A buy with a local match stays local: from its start to its
    end [PerformBuy] logs its own lines, the duplicates it makes and the
    wait for clearance, and nothing else; no remote trade is begun, no
    token is returned, neither the coordinator nor a seller is contacted,
    no temporary is created and no goroutine is started. *)
Theorem PerformBuy_local_only lib env wf s sell :
  localMatch (act s) = Some sell ->
  exists l,
    trace (snd (PerformBuy lib env wf s)) = trace s ++ l /\
    Forall (fun e => local_event e = true) l.
Proof.
  intros Hm. rewrite PerformBuy_run. cbv zeta.
  match goal with
  | |- context [doPerformBuy lib env ?st] =>
      assert (Hsteps : related (fun _ _ => True)
                         (fun e => local_event e = true) st
                         (snd (doPerformBuy lib env st)))
  end.
  { unfold doPerformBuy, awaitClearance. run_act.
    destruct (env_awaitClearance env); run_act.
    - split; [exact I|]. exists [EvAwaitClearance]. cbn [trace].
      split; [reflexivity|repeat constructor].
    - cbn [localMatch set_workFile]. rewrite Hm.
      match goal with
      | |- context [doLocalBuy lib env sell ?st] =>
          destruct (@steps_doLocalBuy lib env (fun _ _ => True)
                      (fun e => local_event e = true) logs_pre sell
                      (fun _ _ => I) (fun _ _ => eq_refl) st)
            as [_ (l & Hl & Hall)]
      end.
      cbn [trace] in Hl. split; [exact I|].
      exists (EvAwaitClearance :: l). cbn [trace]. rewrite Hl.
      norm_trace. split; [reflexivity|]. now constructor. }
  destruct Hsteps as [_ (l & Hl & Hall)].
  destruct (doPerformBuy lib env _) as [[[f [err|]]|msg|] s1];
    cbn [snd trace] in *; rewrite Hl; norm_trace; eexists;
    (split; [reflexivity|]); repeat constructor;
    try (apply Forall_app; split; [exact Hall|now repeat constructor]);
    exact Hall.
Qed.

Lemma PerformBuy_local_only_witness :
  exists l,
    trace (snd (PerformBuy toy_lib env_local_success toy_work
                  (initial toy_local_activity 1))) = l /\
    Forall (fun e => local_event e = true) l.
Proof.
  exact (PerformBuy_local_only toy_lib env_local_success toy_work
           (initial toy_local_activity 1) toy_sell eq_refl).
Defined.

(** X9.  A buy that is not cleared: [PerformBuy] returns the error of the
    clearance as it is, records it as [lastError] and clears [alive]; it
    has then duplicated the work file and asked for clearance, and nothing
    else: no trade is begun, no token is taken or returned, neither the
    coordinator nor a seller is contacted. *)
Theorem PerformBuy_refused lib env wf s err :
  env_awaitClearance env = Some err ->
  let dup := {| file_handle := next_handle s; file_data := file_data wf |} in
  PerformBuy lib env wf s =
  (Returned (None, Some err),
   {| act := set_alive false
               (set_lastError (Some err) (set_workFile (Some dup) (act s)));
      next_handle := S (next_handle s);
      trace := trace s ++
               [EvLog "Buy started"; EvDuplicate wf dup; EvAwaitClearance;
                EvLog "Buy finished"] |}).
Proof.
  intros Hc. rewrite PerformBuy_run. cbv zeta.
  unfold doPerformBuy. run_act. rewrite Hc. run_act. norm_trace. reflexivity.
Qed.

Lemma PerformBuy_refused_witness :
  fst (PerformBuy toy_lib env_not_cleared toy_work (initial toy_activity 1)) =
    Returned (None, Some "insufficient funds"%string) /\
  trace (snd (PerformBuy toy_lib env_not_cleared toy_work
                (initial toy_activity 1))) =
    [EvLog "Buy started";
     EvDuplicate toy_work {| file_handle := 1; file_data := [1; 2; 3] |};
     EvAwaitClearance; EvLog "Buy finished"].
Proof.
  rewrite (PerformBuy_refused toy_lib env_not_cleared toy_work
             (initial toy_activity 1) "insufficient funds"%string eq_refl).
  split; reflexivity.
Defined.

(** ** The driver of the remote buy, event by event *)

Section DriverSteps.

Variable lib : Lib.
Variable env : Env.
Variable R : BuyActivity -> BuyActivity -> Prop.
Variable P : Event -> Prop.
Context {R_pre : PreOrder R}.

Hypothesis R_tx : forall v a, R a (set_tx v a).
Hypothesis R_encResultFile : forall v a, R a (set_encResultFile v a).
Hypothesis R_encResultHashSig : forall v a, R a (set_encResultHashSig v a).
Hypothesis R_encResultKey : forall v a, R a (set_encResultKey v a).
Hypothesis R_resultFile : forall v a, R a (set_resultFile v a).
Hypothesis P_driver : forall e, driver_event e = true -> P e.

Lemma seller_driver_event e : seller_event e = true -> driver_event e = true.
Proof. intros H. event_cases e. Qed.

Lemma driver_decryptResult : steps R P (decryptResult lib env).
Proof.
  unfold decryptResult, storage_Create, temp_Dispose, file_Open, temp_Close,
    temp_File.
  steps_go ltac:(first [apply P_driver; reflexivity | apply R_resultFile]).
Qed.

Lemma driver_waitForTransactionPhase target transient answer :
  steps R P (waitForTransactionPhase target transient answer).
Proof.
  unfold waitForTransactionPhase.
  steps_go ltac:(first [apply P_driver; reflexivity | apply R_tx]).
Qed.

Lemma driver_transmitAndDecrypt : steps R P (transmitAndDecrypt lib env).
Proof.
  unfold transmitAndDecrypt, decryptAndReturn.
  steps_go ltac:(first [ apply P_driver; reflexivity
                       | apply R_encResultKey
                       | apply driver_decryptResult
                       | apply driver_waitForTransactionPhase
                       | apply steps_interactWithSeller; auto; intros;
                         apply P_driver, seller_driver_event; assumption ]).
Qed.

Lemma driver_establishAndTransmit workHash workSecretHash :
  steps R P (establishAndTransmit lib env workHash workSecretHash).
Proof.
  unfold establishAndTransmit, SendTxMessageEstablishBuyer.
  steps_go ltac:(first [ apply P_driver; reflexivity
                       | apply driver_transmitAndDecrypt
                       | apply driver_waitForTransactionPhase ]).
Qed.

End DriverSteps.

Lemma driver_event_inner e :
  driver_event e = true ->
  e <> EvReturnTransmissionToken /\ e <> EvAbortPolling /\
  e <> EvGo GoPollTransaction.
Proof. intros H. repeat split; intros ->; discriminate H. Qed.

(** X10.  The deferred calls of [doRemoteBuy].  In every run that returns
    or panics, the last call returns the transmission token to the
    scheduler, and it is the only such call of the driver; when the
    polling of the transaction was started, it is aborted right before
    that, after everything else the remote buy did. *)
Theorem doRemoteBuy_cleanup lib env s :
  let r := doRemoteBuy lib env s in
  fst r <> Blocked ->
  exists l,
    trace (snd r) =
      trace s ++ EvBeginRemoteTrade :: l ++ [EvReturnTransmissionToken] /\
    ~ In EvReturnTransmissionToken l /\
    (In (EvGo GoPollTransaction) l ->
     exists l1 l2,
       l = l1 ++ EvGo GoPollTransaction :: l2 ++ [EvAbortPolling] /\
       ~ In (EvGo GoPollTransaction) l1 /\
       Forall (fun e => driver_event e = true) l2).
Proof.
  cbv zeta. unfold doRemoteBuy. run_act.
  destruct (env_beginRemoteTrade env) as [err|]; run_act.
  { intros _. exists []. norm_trace. split; [reflexivity|].
    split; intros []. }
  destruct (draw_secret env) as [err|secret]; run_act.
  { intros _. exists []. norm_trace. split; [reflexivity|].
    split; intros []. }
  cbn [workFile set_buyerSecret].
  destruct (workFile (act s)) as [wf|]; run_act.
  2:{ intros _. exists [EvLog "Computed buyer's secret."]. norm_trace.
      split; [reflexivity|]. split; intros [H|[]]; discriminate H. }
  match goal with
  | |- context [establishAndTransmit lib env ?wh ?wsh ?st] =>
      pose proof (@driver_establishAndTransmit lib env (fun _ _ => True)
                    (fun e => driver_event e = true) logs_pre
                    (fun _ _ => I) (fun _ _ => I) (fun _ _ => I)
                    (fun _ _ => I) (fun _ _ => I) (fun e H => H) wh wsh st)
        as [_ (l & Hl & Hall)];
      destruct (establishAndTransmit lib env wh wsh st) as [[v|msg|] s1]
  end; cbn [snd trace] in Hl; run_act; intros Hnb;
    try (now destruct Hnb).
  all: exists (EvLog "Computed buyer's secret." :: EvGo GoPollTransaction
               :: l ++ [EvAbortPolling]).
  all: rewrite Hl; norm_trace; norm_trace; (split; [reflexivity|]).
  all: rewrite Forall_forall in Hall.
  all: split;
    [ intros [H|[H|H]]; try discriminate H;
      apply in_app_or in H; destruct H as [H|[H|[]]]; [|discriminate H];
      now destruct (driver_event_inner _ (Hall _ H))
    | intros _; exists [EvLog "Computed buyer's secret."], l;
      split; [reflexivity|];
      split; [intros [H|[]]; discriminate H|now apply Forall_forall] ].
Qed.

Lemma doRemoteBuy_cleanup_witness :
  exists l,
    trace (snd (doRemoteBuy toy_lib env_both_fail toy_transmitting)) =
      EvBeginRemoteTrade :: l ++ [EvReturnTransmissionToken] /\
    ~ In EvReturnTransmissionToken l.
Proof.
  destruct (doRemoteBuy_cleanup toy_lib env_both_fail toy_transmitting
              ltac:(vm_compute; discriminate)) as (l & Hl & Hnot & _).
  exists l. split; [exact Hl|exact Hnot].
Defined.

(** The contact with the seller starts with its watchdog. *)
Lemma starts_interactWithSeller lib env :
  starts_with (fun _ => True) (EvGo GoWatchdog) (interactWithSeller lib env).
Proof.
  intros s. destruct (interactWithSeller_trace lib env s)
    as (caps & lp & lt & lr & Hl & _).
  eexists. split; [rewrite Hl; cbn [app]; reflexivity|].
  apply Forall_forall. intros; exact I.
Qed.

Lemma starts_transmitAndDecrypt lib env :
  starts_with (fun _ => True) (EvGo GoWatchdog) (transmitAndDecrypt lib env).
Proof.
  unfold transmitAndDecrypt. apply starts_bind.
  - apply starts_interactWithSeller.
  - intros ierr. unfold logs, decryptAndReturn.
    steps_go ltac:(first [ exact I
                         | apply driver_decryptResult;
                           first [exact logs_pre | intros; exact I]
                         | apply driver_waitForTransactionPhase;
                           first [exact logs_pre | intros; exact I] ]).
Qed.

(** X11.  [doRemoteBuy] before it contacts the seller, for an activity
    with a work file.  When beginning the trade or drawing the secret
    fails, it returns that error as it is; when the establish message is
    refused or the TRANSMITTING phase is not reached, it returns that
    error with the step named in front; in all four cases no transport is
    opened and no request is sent to the seller.  Otherwise the contact
    with the seller starts right after the wait for the TRANSMITTING
    phase, which follows the establish message. *)
Theorem doRemoteBuy_before_contact lib env s wf :
  workFile (act s) = Some wf ->
  let r := doRemoteBuy lib env s in
  exists l,
    trace (snd r) = trace s ++ l /\
    match establish_failure env with
    | Some err =>
        fst r = Returned (None, Some err) /\
        Forall (fun e => is_seller_contact e = false) l
    | None =>
        exists secret l',
          draw_secret env = inr secret /\
          l = [EvBeginRemoteTrade; EvLog "Computed buyer's secret.";
               EvGo GoPollTransaction;
               EvSendEstablishBuyer (txId (act s)) (identity (act s))
                 (cafs_Key lib (file_data wf))
                 (work_secret_hash lib wf secret);
               EvWaitForPhase PhaseTransmitting
                 [PhaseEstablishing; PhaseSellerEstablished;
                  PhaseBuyerEstablished];
               EvGo GoWatchdog] ++ l'
    end.
Proof.
  intros Hwf. cbv zeta. unfold establish_failure.
  destruct (env_beginRemoteTrade env) as [err|] eqn:Hb.
  { unfold doRemoteBuy. run_act. rewrite Hb. run_act.
    eexists. norm_trace. split; [reflexivity|]. split; [reflexivity|].
    repeat constructor. }
  destruct (env_rand_error env) as [err|] eqn:Hr.
  { unfold doRemoteBuy, draw_secret. run_act. rewrite Hb, Hr. run_act.
    eexists. norm_trace. split; [reflexivity|]. split; [reflexivity|].
    repeat constructor. }
  assert (Hd : draw_secret env = inr (map (env_rand env) (seq 0 HashSize)))
    by (unfold draw_secret; now rewrite Hr).
  destruct (env_SendEstablishBuyer env) as [err|] eqn:He.
  { unfold doRemoteBuy, establishAndTransmit. run_act. rewrite Hb, Hd.
    run_act. cbn [workFile set_buyerSecret]. rewrite Hwf. run_act.
    rewrite He. run_act.
    eexists. norm_trace. split; [reflexivity|]. split; [reflexivity|].
    repeat constructor. }
  destruct (snd (env_waitTransmitting env)) as [err|] eqn:Ht.
  { unfold doRemoteBuy, establishAndTransmit. run_act. rewrite Hb, Hd.
    run_act. cbn [workFile set_buyerSecret]. rewrite Hwf. run_act.
    rewrite He. run_act. rewrite Ht. run_act.
    eexists. norm_trace. split; [reflexivity|]. split; [reflexivity|].
    repeat constructor. }
  rewrite (doRemoteBuy_transmitting lib env s wf _ Hb Hd Hwf He Ht).
  destruct (starts_transmitAndDecrypt lib env
              (transmitting_state lib env s wf
                 (map (env_rand env) (seq 0 HashSize))))
    as (l' & Hl' & _).
  destruct (transmitAndDecrypt lib env _) as [[v|msg|] s1];
    cbn [snd trace remote_buy_exit transmitting_state] in *; rewrite Hl';
    norm_trace; eexists; (split; [reflexivity|]);
    eexists _, _; (split; [exact Hd|]); cbn [app]; reflexivity.
Qed.

Lemma doRemoteBuy_before_contact_witness :
  exists l,
    trace (snd (doRemoteBuy toy_lib env_establish_refused toy_transmitting))
      = l /\
    fst (doRemoteBuy toy_lib env_establish_refused toy_transmitting) =
      Returned (None, Some "Error establishing buyer: bad signature"%string) /\
    Forall (fun e => is_seller_contact e = false) l.
Proof.
  destruct (doRemoteBuy_before_contact toy_lib env_establish_refused
              toy_transmitting toy_work eq_refl) as (l & Hl & Hr & Hall).
  exists l. split; [exact Hl|]. split; [exact Hr|exact Hall].
Defined.

(** ** [finishBuy] *)

(** X12.  When the accept message cannot be sent, [finishBuy] returns that
    error, named as such, without waiting for the transaction: the
    activity is left as it is (in particular [alive] is not cleared by the
    finisher), polling is aborted, and the goroutine logs the error. *)
Theorem finishBuy_refused env s err :
  env_SendAcceptResult env = Some err ->
  let msg := "Failed to send 'accept result' message: " +s+ err in
  let l := [EvGo GoPollTransaction;
            EvSendAcceptResult (txId (act s)) (identity (act s));
            EvAbortPolling] in
  finishBuy env s = (Returned (Some msg), logged l s) /\
  finishBuy_goroutine env s =
    (Returned tt, logged (l ++ [EvLog ("Error finishing buy: " +s+ msg)]) s).
Proof.
  intros He. cbv zeta. unfold finishBuy_goroutine, finishBuy, logged.
  run_act. rewrite He. run_act. norm_trace. split; reflexivity.
Qed.

Lemma finishBuy_refused_witness :
  finishBuy_goroutine env_accept_refused (initial toy_activity 7) =
  (Returned tt,
   logged [EvGo GoPollTransaction; EvSendAcceptResult "tx1" "buyer";
           EvAbortPolling;
           EvLog "Error finishing buy: Failed to send 'accept result' message: timeout"]
     (initial toy_activity 7)).
Proof.
  exact (proj2 (finishBuy_refused env_accept_refused (initial toy_activity 7)
                  "timeout"%string eq_refl)).
Defined.

Lemma set_tx_same a : set_tx (tx a) a = a.
Proof. now destruct a. Qed.

(** The wait of [finishBuy], poll by poll. *)
Lemma waitWhile_active polls :
  forall s,
    let r := waitWhile polls (fun a => tx_active (tx a)) s in
    trace (snd r) = trace s /\ next_handle (snd r) = next_handle s /\
    match first_inactive (act s) polls with
    | Some t => fst r = Returned tt /\ act (snd r) = set_tx t (act s)
    | None => fst r = Blocked /\ alive (act (snd r)) = alive (act s)
    end.
Proof.
  unfold first_inactive.
  induction polls as [|t polls IH]; intros s; cbn [waitWhile find]; run_act.
  - destruct (tx_active (tx (act s))); cbn [negb fst snd].
    + repeat split.
    + repeat split. now rewrite set_tx_same.
  - destruct (tx_active (tx (act s))) eqn:Ha; cbn [negb fst snd].
    + specialize (IH {| act := set_tx t (act s);
                        next_handle := next_handle s; trace := trace s |}).
      cbv zeta in IH. cbn [find act tx set_tx trace next_handle] in IH.
      destruct IH as (Ht & Hn & IH). split; [exact Ht|]. split; [exact Hn|].
      destruct (negb (tx_active t)).
      * destruct IH as [H1 H2]. split; [exact H1|]. rewrite H2.
        now destruct (act s).
      * destruct (find _ polls).
        -- destruct IH as [H1 H2]. split; [exact H1|]. rewrite H2.
           now destruct (act s).
        -- destruct IH as [H1 H2]. split; [exact H1|]. rewrite H2.
           reflexivity.
    + repeat split. now rewrite set_tx_same.
Qed.

(** X13.  Once the accept message is sent, [finishBuy] waits for the
    transaction to leave the active state.  It returns nil when the
    transaction it holds, or one that the poller brings, is not active any
    more: the activity then holds that transaction, [alive] is cleared and
    polling is aborted.  As long as every transaction it sees is active it
    does not return, and [alive] is left as it is. *)
Theorem finishBuy_waits env s :
  env_SendAcceptResult env = None ->
  let r := finishBuy env s in
  let sent := [EvGo GoPollTransaction;
               EvSendAcceptResult (txId (act s)) (identity (act s))] in
  match first_inactive (act s) (env_finish_polls env) with
  | Some t =>
      tx_active t = false /\
      r = (Returned None,
           {| act := set_alive false (set_tx t (act s));
              next_handle := next_handle s;
              trace := trace s ++ sent ++ [EvAbortPolling] |})
  | None =>
      fst r = Blocked /\ alive (act (snd r)) = alive (act s) /\
      trace (snd r) = trace s ++ sent
  end.
Proof.
  intros He. cbv zeta. unfold finishBuy. run_act. rewrite He. run_act.
  match goal with
  | |- context [waitWhile ?p ?f ?st] =>
      pose proof (waitWhile_active p st) as Hw;
      change f with (fun a => tx_active (tx a));
      destruct (waitWhile p (fun a => tx_active (tx a)) st) as [o s1]
  end.
  cbv zeta in Hw. cbn [fst snd act trace next_handle] in Hw.
  destruct Hw as (Ht & Hn & Hw).
  destruct (first_inactive (act s) (env_finish_polls env)) as [t|] eqn:Hf.
  - destruct Hw as [-> Ha]. run_act. split.
    + unfold first_inactive in Hf. apply find_some in Hf.
      destruct Hf as [_ Hf]. now destruct (tx_active t).
    + rewrite Ha, Ht, Hn. norm_trace. reflexivity.
  - destruct Hw as [-> Ha]. run_act. rewrite Ht. norm_trace.
    repeat split. exact Ha.
Qed.

Lemma finishBuy_waits_witness :
  tx_active retired_tx = false /\
  finishBuy env_retires (initial toy_activity 7) =
  (Returned None,
   {| act := set_alive false (set_tx retired_tx toy_activity);
      next_handle := 7;
      trace := [EvGo GoPollTransaction; EvSendAcceptResult "tx1" "buyer";
                EvAbortPolling] |}).
Proof.
  exact (finishBuy_waits env_retires (initial toy_activity 7) eq_refl).
Defined.

(** ** The producers of the request bodies *)

Ltac in_list :=
  cbn [In app];
  repeat match goal with
         | |- _ /\ _ => split
         | |- _ <-> _ => split
         | |- ~ _ => intros ?
         | |- _ -> _ => intros ?
         | H : _ \/ _ |- _ => destruct H
         | H : _ /\ _ |- _ => destruct H
         | H : False |- _ => destruct H
         | H : @eq Event _ _ |- _ => first [discriminate H | injection H as ?]
         | H : @eq (option _) _ _ |- _ =>
             first [discriminate H | injection H as ?]
         end;
  subst; try discriminate; try tauto; try congruence; auto 10.





Ltac pipe_closed_once :=
  match goal with
  | |- exists l', ?l = l' ++ [?c] /\ _ =>
      exists (removelast l); split; [reflexivity|repeat constructor]
  | |- exists l', ?l = l' ++ [?c; ?d] /\ _ =>
      exists (removelast (removelast l));
      split; [reflexivity|repeat constructor]
  end.

(** X15.  The producer of the wish list request (worker URL and secret in
    place).  It names the part after the protocol of the seller: the
    legacy stream of chunk hashes for a legacy seller, the sync info as
    JSON otherwise.  The secret is the only field written, and only once
    the sync info was written.  In every run the pipe is closed exactly
    once: with the first error when a write fails, as the last call; with
    no error, before the success is logged, when none fails. *)
Theorem syncInfoProducer_pipe lib env syncinfo legacy s url secret :
  tx_WorkerURL (tx (act s)) = Some url ->
  buyerSecret (act s) = Some secret ->
  exists l,
    syncInfoProducer lib env syncinfo legacy s = (Returned tt, logged l s) /\
    (forall field filename,
       In (EvCreateFormFile field filename) l ->
       (field, filename) =
       if legacy then ("a32chunks", "a32chunks.bin")%string
       else ("syncinfojson", "syncinfo.json")%string) /\
    (forall b, In (EvWriteSyncInfo b) l -> b = legacy) /\
    (forall field value,
       In (EvWriteField field value) l ->
       field = "buyersecret"%string /\ value = Thash_String lib secret /\
       In (EvWriteSyncInfo legacy) l /\
       env_producer env StepWriteSyncInfo = None) /\
    match sync_producer_failure env with
    | Some err =>
        exists l',
          l = l' ++ [EvPipeCloseWithError err] /\
          Forall (fun e => is_pipe_close e = false) l'
    | None =>
        exists l',
          l = l' ++ [EvPipeClose;
                     EvLog "Work sync info transmitted successfully."] /\
          Forall (fun e => is_pipe_close e = false) l'
    end.
Proof.
  intros Hu Hs.
  unfold syncInfoProducer, encodeSyncInfoAndInitiateWishlistTransmission,
    sync_producer_failure, logged.
  destruct legacy; run_act.
  all: destruct (env_producer env StepCreateFormFile) as [e1|]; run_act.
  all: try (rewrite Hu; run_act;
            destruct (env_producer env StepWriteSyncInfo) as [e2|] eqn:H2;
            run_act).
  all: try (rewrite Hs; run_act;
            destruct (env_producer env StepWriteBuyerSecret) as [e3|];
            run_act).
  all: try (destruct (env_producer env StepMultipartClose) as [e4|]; run_act).
  all: try (destruct (env_producer env StepCompressorClose) as [e5|];
            run_act).
  all: norm_trace; eexists; (split; [reflexivity|]).
  all: split; [in_list|].
  all: split; [in_list|].
  all: split; [in_list|pipe_closed_once].
Qed.

Lemma syncInfoProducer_pipe_witness :
  exists l l',
    syncInfoProducer toy_lib toy_env toy_syncinfo false toy_chunked =
      (Returned tt, logged l toy_chunked) /\
    l = l' ++ [EvPipeClose; EvLog "Work sync info transmitted successfully."] /\
    Forall (fun e => is_pipe_close e = false) l'.
Proof.
  destruct (syncInfoProducer_pipe toy_lib toy_env toy_syncinfo false
              toy_chunked "http://seller/" (interval 32) eq_refl eq_refl)
    as (l & Hl & _ & _ & _ & l' & Hlast & Hall).
  exists l, l'. split; [exact Hl|]. split; [exact Hlast|exact Hall].
Defined.

(** The counters after the reports are those of the last report. *)
Lemma set_progress_after reports :
  forall total done a,
    set_progress total done (after_progress reports a) =
    set_progress total done a.
Proof.
  induction reports as [|[t d] reports IH]; intros total done a;
    cbn [after_progress fold_left]; [reflexivity|].
  change (fold_left _ reports ?b) with (after_progress reports b).
  now rewrite IH.
Qed.

Lemma after_progress_rev reports a :
  after_progress reports a =
  match rev reports with
  | (total, done) :: _ => set_progress total done a
  | [] => a
  end.
Proof.
  destruct reports as [|r reports] using rev_ind; [reflexivity|].
  rewrite rev_app_distr. cbn [rev app]. destruct r as [total done].
  unfold after_progress. rewrite fold_left_app. cbn [fold_left fst snd].
  apply set_progress_after.
Qed.

(** X16.  What the producer of the chunk data does to the activity (the
    work file is set): nothing but to store the reports of progress of the
    writer, so that the two transfer counters end at the values of its
    last report and every other field is as before, however the producer
    ends; a producer that cannot create its part, or whose writer reports
    nothing, leaves the activity as it is. *)
Theorem chunkProducer_progress lib env syncinfo compressed s wf :
  workFile (act s) = Some wf ->
  let a' := act (snd (chunkProducer lib env syncinfo compressed s)) in
  match env_producer env StepCreateFormFile, rev (env_progress env) with
  | None, (total, done) :: _ => a' = set_progress total done (act s)
  | _, _ => a' = act s
  end.
Proof.
  intros Hwf. cbv zeta.
  pose proof (after_progress_rev (env_progress env) (act s)) as Hrev.
  unfold chunkProducer, writeChunks, mustGetSellerId. run_act.
  destruct (env_producer env StepCreateFormFile) as [e1|]; run_act;
    [reflexivity|].
  rewrite Hwf. run_act. rewrite progressCallbacks_run. run_act.
  assert (Hgoal : forall a',
             a' = after_progress (env_progress env) (act s) ->
             match rev (env_progress env) with
             | [] => a' = act s
             | (total, done) :: _ => a' = set_progress total done (act s)
             end).
  { intros a' ->. rewrite Hrev.
    now destruct (rev (env_progress env)) as [|[t d] ?]. }
  destruct (env_producer env StepWriteChunkData); run_act;
    [now apply Hgoal|].
  destruct (env_producer env StepMultipartClose); run_act;
    [now apply Hgoal|].
  destruct (env_producer env StepCompressorClose); run_act;
    [now apply Hgoal|].
  destruct (tx_WorkerURL _); run_act; [|now apply Hgoal].
  destruct (url_Parse_Host lib _); run_act; now apply Hgoal.
Qed.

Lemma chunkProducer_progress_witness :
  act (snd (chunkProducer toy_lib toy_env toy_syncinfo true toy_chunked)) =
  set_progress 3 3 (act toy_chunked).
Proof.
  exact (chunkProducer_progress toy_lib toy_env toy_syncinfo true toy_chunked
           toy_work eq_refl).
Defined.

(** ** Assistive download tickets *)

Lemma newTickets_run sellerId tickets :
  forall i s,
    newTickets sellerId i tickets s =
    (Returned tt, logged (ticket_events sellerId i tickets) s).
Proof.
  unfold logged.
  induction tickets as [|ticket rest IH]; intros i s;
    cbn [newTickets ticket_events]; run_act.
  - rewrite app_nil_r. now destruct s.
  - rewrite IH. cbn [act next_handle trace]. norm_trace. reflexivity.
Qed.

Lemma ticket_events_new sellerId tickets :
  forall i,
    filter is_new_ticket (ticket_events sellerId i tickets) =
    map (fun t => EvNewTicket t sellerId) tickets.
Proof.
  induction tickets as [|ticket rest IH]; intros i;
    cbn [ticket_events filter is_new_ticket map]; [reflexivity|].
  now rewrite IH.
Qed.

(** X17.  The tickets in the answer to the sync info request (the worker
    URL has a host).  Without the header nothing is registered, and this
    is logged.  With the header, every ticket that the decoder delivered
    is registered with the ticket registry under the identifier of the
    seller, in the order of the header, and nothing else is registered;
    an error of the decoder is logged with the content of the header and
    does not stop the registration of what was decoded.  The activity is
    not touched. *)
Theorem receiveAssistiveDownloadTickets_registers lib response s url host :
  tx_WorkerURL (tx (act s)) = Some url ->
  url_Parse_Host lib url = inr host ->
  let js := AssistHeader response in
  let decoded := json_Unmarshal_tickets lib js in
  exists l,
    receiveAssistiveDownloadTickets lib response s =
      (Returned tt, logged l s) /\
    (js = ""%string ->
     l = [EvLog "No assistive download tickets received"]) /\
    (js <> ""%string ->
     filter is_new_ticket l =
       map (fun t => EvNewTicket t (seller_id (act s) host)) (fst decoded) /\
     forall err,
       snd decoded = Some err ->
       exists l',
         l = EvLog ("Error decoding assistive download tickets info: "
                    +s+ err)
             :: EvLog ("  content was: " +s+ js) :: l').
Proof.
  intros Hu Hp. cbv zeta. unfold receiveAssistiveDownloadTickets.
  destruct (String.eqb_spec (AssistHeader response) "") as [He|Hne].
  { exists [EvLog "No assistive download tickets received"].
    split; [reflexivity|]. split; [reflexivity|]. now intros H. }
  destruct (snd (json_Unmarshal_tickets lib (AssistHeader response)))
    as [err|] eqn:Hd; unfold log; run_act;
    match goal with
    | |- context [mustGetSellerId lib ?st] =>
        rewrite (mustGetSellerId_run lib st url host Hu Hp)
    end; rewrite newTickets_run; unfold logged;
    cbn [act next_handle trace]; norm_trace;
    (eexists; split; [reflexivity|]); (split; [now intros H|]); intros _.
  - split.
    + cbn [filter is_new_ticket]. apply ticket_events_new.
    + intros err' [= <-]. eexists. reflexivity.
  - split; [apply ticket_events_new|discriminate].
Qed.

Lemma receiveAssistiveDownloadTickets_registers_witness :
  exists l,
    receiveAssistiveDownloadTickets toy_lib ticket_response toy_chunked =
      (Returned tt, logged l toy_chunked) /\
    filter is_new_ticket l =
      [EvNewTicket "http://peer/t1" "seller_http://seller/"].
Proof.
  destruct (receiveAssistiveDownloadTickets_registers toy_lib ticket_response
              toy_chunked "http://seller/" "http://seller/" eq_refl eq_refl)
    as (l & Hl & _ & Hreg).
  exists l. split; [exact Hl|]. now apply Hreg.
Defined.

(** X18.  [postAssistiveDownloadTicketToSeller], in every run.  It does
    not touch the activity and hands no error to its caller: it returns
    with exactly one line logged, but for one case, the transaction
    without a worker URL, where it panics on the nil pointer once the form
    is complete, without a line.  The line reports the ticket as sent
    exactly when the form was written and closed, the request could be
    made and the seller answered it with status 200; every other line
    names what failed.  A request is sent only once the form is complete;
    it goes to the worker URL, is the one of this ticket and is not
    compressed. *)
Theorem postAssistiveDownloadTicketToSeller_logs lib env ticket s :
  exists o l,
    postAssistiveDownloadTicketToSeller lib env ticket s = (o, logged l s) /\
    (o = Returned tt \/ o = Panicked nil_dereference) /\
    (o = Panicked nil_dereference <->
     env_producer env StepTicketField = None /\
     env_producer env StepTicketClose = None /\
     tx_WorkerURL (tx (act s)) = None) /\
    (o = Panicked nil_dereference -> filter is_log l = []) /\
    (o = Returned tt ->
     exists msg,
       filter is_log l = [EvLog msg] /\
       (msg = "Sent assistive download ticket: " +s+ ticket \/
        prefix "Error " msg = true) /\
       (msg = "Sent assistive download ticket: " +s+ ticket <->
        env_producer env StepTicketField = None /\
        env_producer env StepTicketClose = None /\
        exists url resp,
          tx_WorkerURL (tx (act s)) = Some url /\
          NewRequest_error lib "POST" url = None /\
          env_post env (PostTicket ticket) = inr resp /\
          StatusCode resp = StatusOK)) /\
    (forall kind u contentType gzip,
       In (EvPost kind u contentType gzip) l ->
       kind = PostTicket ticket /\ tx_WorkerURL (tx (act s)) = Some u /\
       NewRequest_error lib "POST" u = None /\ gzip = false /\
       env_producer env StepTicketField = None /\
       env_producer env StepTicketClose = None).
Proof.
  unfold postAssistiveDownloadTicketToSeller, logged.
  rewrite bind_run. unfold step at 1. run_act.
  destruct (env_producer env StepTicketField) as [e1|]; run_act.
  { norm_trace. eexists _, _. split; [reflexivity|]. split; [now left|].
    split; [split; [discriminate|intros [H _]; discriminate H]|].
    split; [discriminate|]. split; [|in_list].
    intros _. eexists. split; [reflexivity|]. split; [now right|].
    split; [discriminate|]. intros [H _]. discriminate H. }
  destruct (env_producer env StepTicketClose) as [e2|]; run_act.
  { norm_trace. eexists _, _. split; [reflexivity|]. split; [now left|].
    split; [split; [discriminate|intros (_ & H & _); discriminate H]|].
    split; [discriminate|]. split; [|in_list].
    intros _. eexists. split; [reflexivity|]. split; [now right|].
    split; [discriminate|]. intros (_ & H & _). discriminate H. }
  rewrite postToSeller_cases. cbn [act next_handle trace].
  destruct (tx_WorkerURL (tx (act s))) as [url|] eqn:Hu.
  2:{ norm_trace. eexists _, _. split; [reflexivity|]. split; [now right|].
      split; [split; [now intros _|reflexivity]|].
      split; [reflexivity|]. split; [discriminate|in_list]. }
  destruct (NewRequest_error lib "POST" url) as [nerr|] eqn:Hn; run_act.
  { norm_trace. eexists _, _. split; [reflexivity|]. split; [now left|].
    split; [split; [discriminate|intros (_ & _ & H); discriminate H]|].
    split; [discriminate|]. split; [|in_list].
    intros _. eexists. split; [reflexivity|]. split; [now right|].
    split; [discriminate|].
    intros (_ & _ & url' & resp & [= <-] & H & _). congruence. }
  unfold logged. cbn [act next_handle trace].
  destruct (env_post env (PostTicket ticket)) as [err|resp]; run_act.
  { norm_trace. eexists _, _. split; [reflexivity|]. split; [now left|].
    split; [split; [discriminate|intros (_ & _ & H); discriminate H]|].
    split; [discriminate|]. split.
    - intros _. eexists. split; [reflexivity|]. split; [now right|].
      split; [discriminate|].
      intros (_ & _ & url' & resp & _ & _ & H & _). discriminate H.
    - intros kind u ct gz [E|[E|[E|[E|[]]]]]; inversion E; subst.
      now repeat split. }
  destruct (Z.eqb_spec (StatusCode resp) StatusOK) as [Hok|Hbad]; run_act;
    norm_trace; eexists _, _; (split; [reflexivity|]);
    (split; [now left|]);
    (split; [split; [discriminate|intros (_ & _ & H); discriminate H]|]);
    (split; [discriminate|]); split.
  - intros _. eexists. split; [reflexivity|]. split; [now left|].
    split; [intros _|reflexivity]. repeat split. now exists url, resp.
  - intros kind u ct gz [E|[E|[E|[E|[]]]]]; inversion E; subst.
    now repeat split.
  - intros _. eexists. split; [reflexivity|]. split; [now right|].
    split; [discriminate|].
    intros (_ & _ & url' & resp' & _ & _ & [= <-] & H). contradiction.
  - intros kind u ct gz [E|[E|[E|[E|[E|[]]]]]]; inversion E; subst.
    now repeat split.
Qed.

Lemma postAssistiveDownloadTicketToSeller_logs_witness :
  exists l,
    postAssistiveDownloadTicketToSeller toy_lib toy_env "http://peer/t1"
      toy_chunked = (Returned tt, logged l toy_chunked) /\
    filter is_log l = [EvLog "Sent assistive download ticket: http://peer/t1"].
Proof.
  destruct (postAssistiveDownloadTicketToSeller_logs toy_lib toy_env
              "http://peer/t1" toy_chunked)
    as (o & l & Hl & [->| ->] & _ & _ & Hret & _).
  - exists l. split; [exact Hl|].
    destruct (Hret eq_refl) as (msg & Hlog & _ & Hmsg).
    rewrite Hlog. f_equal. f_equal. apply Hmsg.
    repeat split. exists "http://seller/"%string, (ok_response [9; 8; 7]).
    now repeat split.
  - exfalso. revert Hl. vm_compute. discriminate.
Defined.

(** ** The chunked transmission: the node and the wish list *)

Lemma ends_transmitSyncInfo lib env si compressed legacy :
  ends (transmitSyncInfo lib env si compressed legacy).
Proof.
  unfold transmitSyncInfo, requestMissingChunks,
    sendMissingChunksAndReturnResult, receiveAssistiveDownloadTickets,
    body_Close.
  ends_go ltac:(first [ apply ends_mustGetSellerId
                      | apply ends_postToSeller
                      | apply ends_newTickets ]).
Qed.

(** X19.  The node of the seller in the ticket registry (the work file is
    within the bound and the worker URL has a host).  For a seller that is
    not legacy, [transmitWorkChunked] registers the node first and
    unregisters it last, whether the transmission in between succeeded or
    not, and calls the registry for nothing else than tickets in between;
    for a legacy seller it neither registers nor unregisters a node. *)
Theorem transmitWorkChunked_node lib env compressed legacy s wf url host :
  workFile (act s) = Some wf ->
  cafs_NumChunks lib (file_data wf) <= MaxNumberOfChunksInWorkFile lib ->
  tx_WorkerURL (tx (act s)) = Some url ->
  url_Parse_Host lib url = inr host ->
  exists handprint l,
    Forall (fun e => sync_event e = true) l /\
    trace (snd (transmitWorkChunked lib env compressed legacy s)) =
      trace s ++
      if legacy then l
      else EvInitNode (seller_id (act s) host) handprint
           :: l ++ [EvExitNode (seller_id (act s) host)].
Proof.
  intros Hwf Hn Hu Hp.
  rewrite (transmitWorkChunked_run lib env compressed legacy s wf Hwf).
  destruct (Z.ltb_spec (MaxNumberOfChunksInWorkFile lib)
              (cafs_NumChunks lib (file_data wf))) as [Hbig|_].
  { exfalso. apply (Z.lt_irrefl _ (Z.lt_le_trans _ _ _ Hbig Hn)). }
  unfold transmitChunks. cbv zeta. destruct legacy.
  - match goal with
    | |- context [transmitSyncInfo lib env ?si compressed true s] =>
        destruct (@steps_transmitSyncInfo lib env (fun _ _ => True)
                    (fun e => sync_event e = true) logs_pre (fun e H => H)
                    si compressed true s) as [_ (l & Hl & Hall)]
    end.
    exists ""%string, l. split; [exact Hall|exact Hl].
  - rewrite bind_run, (mustGetSellerId_run lib s url host Hu Hp).
    cbn [fst snd]. run_act.
    match goal with
    | |- context [transmitSyncInfo lib env ?si compressed false ?st] =>
        destruct (@steps_transmitSyncInfo lib env (fun _ _ => True)
                    (fun e => sync_event e = true) logs_pre (fun e H => H)
                    si compressed false st) as [_ (l & Hl & Hall)];
        pose proof (ends_transmitSyncInfo lib env si compressed false st)
          as Hend;
        destruct (transmitSyncInfo lib env si compressed false st)
          as [[v|msg|] s2]
    end; cbn [fst snd trace] in *; [| |now destruct Hend].
    + eexists _, l. split; [exact Hall|]. rewrite Hl. now norm_trace.
    + eexists _, l. split; [exact Hall|]. rewrite Hl. now norm_trace.
Qed.

Lemma transmitWorkChunked_node_witness :
  exists handprint l,
    Forall (fun e => sync_event e = true) l /\
    trace (snd (transmitWorkChunked toy_lib env_modern true false
                  toy_chunked)) =
      EvInitNode "seller_http://seller/" handprint
      :: l ++ [EvExitNode "seller_http://seller/"].
Proof.
  exact (transmitWorkChunked_node toy_lib env_modern true false toy_chunked
           toy_work "http://seller/" "http://seller/" eq_refl
           ltac:(vm_compute; discriminate) eq_refl eq_refl).
Defined.

Lemma returns_requestMissingChunks lib env si legacy compressed :
  returns (transmitted env PostSyncInfo)
    (requestMissingChunks lib env si legacy compressed).
Proof.
  unfold requestMissingChunks. apply returns_defer.
  apply returns_bind; intros _.
  eapply returns_bind_with; [apply returns_postToSeller|].
  intros [[resp|] [err|]] H; cbn [fst snd deref]; try contradiction.
  - intros s a. unfold bind, ret.
    destruct (receiveAssistiveDownloadTickets lib resp s) as [[u|msg|] s1];
      cbn [fst]; try discriminate.
    intros [= <-]. destruct H as [Hpost Hok]. now exists resp.
  - now apply returns_ret.
Qed.

Lemma steps_requestMissingChunks_before lib env si legacy compressed :
  steps (fun _ _ => True) before_chunk_data
    (requestMissingChunks lib env si legacy compressed).
Proof.
  unfold requestMissingChunks.
  steps_go ltac:(first [ exact I
                       | exact logs_pre
                       | apply steps_postToSeller;
                         first [exact logs_pre | intros; exact I]
                       | apply steps_receiveAssistiveDownloadTickets_ev;
                         first [exact logs_pre | intros; exact I] ]).
Qed.

Lemma starts_sendMissingChunksAndReturnResult lib env w compressed si :
  starts_with (sends_chunk_data si compressed w)
    (EvGo (GoChunkProducer si compressed w))
    (sendMissingChunksAndReturnResult lib env w compressed si).
Proof.
  unfold sendMissingChunksAndReturnResult. apply starts_defer.
  - apply starts_emit. unfold logs.
    steps_go ltac:(first [ exact I
                         | exact logs_pre
                         | apply steps_postToSeller;
                           first [exact logs_pre | intros; now cbn] ]).
  - apply steps_emit; [exact logs_pre|exact I].
Qed.

(** X20.  The two requests of the chunked transmission.  The producer of
    the chunk data is only started, and the chunk data are only posted,
    once the seller has answered the sync info request with status 200;
    the wish list the producer reads is the body of that answer, the sync
    info is the one that was sent, and the second request is compressed
    exactly as the first one was asked to be.  Everything logged before
    belongs to the first request, everything after to the second; without
    a second request no response is handed back. *)
Theorem transmitSyncInfo_wishlist lib env syncinfo compressed legacy s :
  let r := transmitSyncInfo lib env syncinfo compressed legacy s in
  exists l1 l2,
    trace (snd r) = trace s ++ l1 ++ l2 /\
    Forall before_chunk_data l1 /\
    match l2 with
    | [] => forall body, fst r <> Returned (Some body, None)
    | e :: l2' =>
        exists resp,
          env_post env PostSyncInfo = inr resp /\
          StatusCode resp = StatusOK /\
          e = EvGo (GoChunkProducer syncinfo compressed
                      (rc_reads (Body resp))) /\
          Forall (sends_chunk_data syncinfo compressed (rc_reads (Body resp)))
            l2'
    end.
Proof.
  cbv zeta. unfold transmitSyncInfo. rewrite bind_run.
  destruct (steps_requestMissingChunks_before lib env syncinfo legacy
              compressed s) as [_ (l1 & Hl1 & Hall1)].
  pose proof (returns_requestMissingChunks lib env syncinfo legacy compressed
                s) as Hret.
  destruct (requestMissingChunks lib env syncinfo legacy compressed s)
    as [[[r e]|msg|] s1]; cbn [fst snd] in *.
  2,3: exists l1, []; rewrite app_nil_r;
       (split; [exact Hl1|]); (split; [exact Hall1|]); discriminate.
  specialize (Hret _ eq_refl).
  destruct r as [body|], e as [err|]; cbn [transmitted] in Hret;
    try contradiction.
  2:{ run_act. exists l1, []. rewrite app_nil_r.
      split; [exact Hl1|]. split; [exact Hall1|]. discriminate. }
  destruct Hret as (resp & Hpost & Hok & ->). cbn [deref]. run_act.
  destruct (starts_sendMissingChunksAndReturnResult lib env
              (rc_reads (Body resp)) compressed syncinfo s1)
    as (l2 & Hl2 & Hall2).
  destruct (sendMissingChunksAndReturnResult lib env (rc_reads (Body resp))
              compressed syncinfo s1) as [[v|msg|] s2];
    cbn [fst snd trace] in *.
  - exists l1, (EvGo (GoChunkProducer syncinfo compressed
                        (rc_reads (Body resp))) :: l2 ++ [EvCloseBody]).
    rewrite Hl2, Hl1. norm_trace. split; [reflexivity|].
    split; [exact Hall1|]. exists resp. repeat split; try assumption.
    apply Forall_app. split; [exact Hall2|now repeat constructor].
  - exists l1, (EvGo (GoChunkProducer syncinfo compressed
                        (rc_reads (Body resp))) :: l2 ++ [EvCloseBody]).
    rewrite Hl2, Hl1. norm_trace. split; [reflexivity|].
    split; [exact Hall1|]. exists resp. repeat split; try assumption.
    apply Forall_app. split; [exact Hall2|now repeat constructor].
  - exists l1, (EvGo (GoChunkProducer syncinfo compressed
                        (rc_reads (Body resp))) :: l2).
    rewrite Hl2, Hl1. norm_trace. split; [reflexivity|].
    split; [exact Hall1|]. exists resp. repeat split; assumption.
Qed.

(** ** The answers to the probe *)

(** X22.  The probe of a chunked work file, when the seller answers the
    OPTIONS request.  With status 200 and capabilities that decode, the
    probe returns them: chunked and compressed as listed, legacy exactly
    when the sync info is not listed.  With any other status the probe
    does not report a failure: it logs, as for an answer that lists
    nothing, that the seller supports neither chunks nor compression and
    is legacy.  In both cases the body of the answer is closed before the
    line is logged. *)
Theorem probeSeller_answer lib env s wf url resp :
  workFile (act s) = Some wf ->
  cafs_IsChunked lib (file_data wf) = true ->
  tx_WorkerURL (tx (act s)) = Some url ->
  NewRequest_error lib "OPTIONS" url = None ->
  env_options env = inr resp ->
  let supported chunked compressed legacy :=
    EvLog ("Chunked/compressed/legacy work transmission supported by seller: "
           +s+ fmt_bool chunked +s+ "/" +s+ fmt_bool compressed +s+ "/" +s+
           fmt_bool legacy) in
  (StatusCode resp <> StatusOK ->
   probeSeller lib env s =
     (Returned (false, false, true),
      logged [EvOptions url; EvCloseBody; supported false false true] s)) /\
  (forall caps,
     StatusCode resp = StatusOK ->
     json_Decode_caps lib (rc_reads (Body resp)) = inr caps ->
     let chunked := Adler32Chunking caps in
     let compressed := GZIPCompression caps in
     let legacy := negb (SyncInfoCap caps) in
     probeSeller lib env s =
       (Returned (chunked, compressed, legacy),
        logged [EvOptions url; EvCloseBody;
                supported chunked compressed legacy] s)).
Proof.
  intros Hwf Hc Hu Hn Ho. cbv zeta.
  unfold probeSeller, testSellerForCapabilities, logged. run_act.
  rewrite Hwf. run_act. rewrite Hc. run_act. rewrite Hu. run_act.
  rewrite Hn. run_act. rewrite Ho. run_act. split.
  - intros Hbad. apply Z.eqb_neq in Hbad. rewrite Hbad. cbn [negb]. run_act.
    norm_trace. reflexivity.
  - intros caps Hok Hd. apply Z.eqb_eq in Hok. rewrite Hok. cbn [negb].
    run_act. rewrite Hd. run_act. norm_trace. reflexivity.
Qed.

Lemma probeSeller_answer_witness :
  probeSeller toy_lib env_broken_options toy_probing =
  (Returned (false, false, true),
   logged [EvOptions "http://seller/"; EvCloseBody;
           EvLog "Chunked/compressed/legacy work transmission supported by seller: false/false/true"]
     toy_probing).
Proof.
  refine (proj1 (probeSeller_answer toy_lib env_broken_options toy_probing
                   toy_work "http://seller/" _ eq_refl eq_refl eq_refl
                   eq_refl eq_refl) _).
  discriminate.
Defined.

(** ** A contact that fails *)





(** X24.  Without a worker URL in the transaction, the contact with the
    seller panics on the nil pointer before any request is made: either in
    the probe, for a chunked work file, or right after the producer of
    the linear transmission was started; the transport is still closed
    and the watchdog told to exit, and the activity is as before. *)
Theorem interactWithSeller_no_url lib env s wf :
  workFile (act s) = Some wf ->
  tx_WorkerURL (tx (act s)) = None ->
  interactWithSeller lib env s =
  (Panicked nil_dereference,
   logged ([EvGo GoWatchdog; EvNewScopedTransport; EvRegisterTransport] ++
           (if cafs_IsChunked lib (file_data wf) then []
            else [EvGo GoWorkProducer]) ++
           [EvCloseTransport; EvExitWatchdog]) s).
Proof.
  intros Hwf Hu.
  unfold interactWithSeller, probeSeller, testSellerForCapabilities,
    transmitWorkLinear, postToSeller, logged.
  run_act. rewrite Hwf. run_act.
  destruct (cafs_IsChunked lib (file_data wf)); run_act; rewrite Hu; run_act;
    norm_trace; reflexivity.
Qed.

Lemma interactWithSeller_no_url_witness :
  fst (interactWithSeller toy_lib toy_env
         (initial (set_tx no_url_tx toy_activity) 2)) =
  Panicked
    "runtime error: invalid memory address or nil pointer dereference".
Proof.
  rewrite (interactWithSeller_no_url toy_lib toy_env
             (initial (set_tx no_url_tx toy_activity) 2) toy_work
             eq_refl eq_refl).
  reflexivity.
Defined.

(** ** Receipts *)

Lemma receiveEncryptedResult_receipts lib env response transmissionError s :
  let r := receiveEncryptedResult lib env response transmissionError s in
  exists l,
    trace (snd r) = trace s ++ l /\
    (Forall (fun e => is_receipt e = false) l \/
     exists body,
       response = Some body /\
       Forall (receipt_for lib env (rc_reads body) (snd r)) l).
Proof.
  unfold receiveEncryptedResult, signReceipt, file_Key.
  destruct transmissionError as [terr|], response as [body|]; run_act;
    try (eexists; norm_trace; split; [reflexivity|]; left;
         repeat constructor).
  match goal with |- context [io_Copy ?w ?r ?i ?l] =>
    pose proof (io_Copy_complete w r i l) as Hcopy;
    destruct (io_Copy w r i l) as [data [cerr|]] end;
    cbn [fst snd] in *; run_act.
  { eexists. norm_trace. split; [reflexivity|]. left. repeat constructor. }
  destruct (Hcopy eq_refl) as [Hdata Herr]. cbn [app] in Hdata. subst data.
  repeat (match goal with
          | |- context [rc_close ?b] => destruct (rc_close b)
          | |- context [env_temp_close ?e ?k] =>
              destruct (env_temp_close e k)
          | |- context [env_SignMessage ?e] =>
              destruct (env_SignMessage e) eqn:Hsig
          | |- context [tx_WorkerURL ?t] =>
              destruct (tx_WorkerURL t) eqn:Hurl
          | |- context [env_PostForm ?e] => destruct (env_PostForm e)
          | |- context [StatusCode ?r =? StatusOK] =>
              destruct (StatusCode r =? StatusOK)
          end;
          cbn [negb encResultFile set_encResultFile tx
               set_encResultHashSig encResultHashSig];
          run_act;
          cbn [negb encResultFile set_encResultFile tx
               set_encResultHashSig encResultHashSig]).
  all: eexists; norm_trace; (split; [reflexivity|]).
  all: right; eexists; (split; [reflexivity|]).
  all: repeat (constructor;
               [ first [ exact I
                       | eexists;
                         cbn [act encResultFile set_encResultFile
                              set_encResultHashSig encResultHashSig tx
                              file_data];
                         repeat split; first [eassumption | reflexivity] ]
               |]);
       constructor.
Qed.

Lemma probe_not_receipt e : probe_event e = true -> is_receipt e = false.
Proof. intros H. event_cases e. Qed.

Lemma transmission_not_receipt chunked compressed legacy e :
  transmission_event chunked compressed legacy e = true ->
  is_receipt e = false.
Proof.
  unfold transmission_event. intros H. destruct chunked; event_cases e.
Qed.

(** X25.  The receipts of a contact with the seller, in every run,
    whether it ends well or not.  Whenever [interactWithSeller] signs a
    message or posts a receipt, the seller had answered the request that
    carried the work (the chunk data in a chunked transmission) with
    status 200, the body of that answer was read to its end and is what
    the [encResultFile] of the activity holds; the message signed is the
    key of that file, and the receipt posted carries that key and the
    signature that the activity holds in [encResultHashSig]. *)
Theorem interactWithSeller_receipts lib env s :
  let r := interactWithSeller lib env s in
  exists l,
    trace (snd r) = trace s ++ l /\
    forall e,
      In e l -> is_receipt e = true ->
      exists chunked resp,
        env_post env (result_request chunked) = inr resp /\
        StatusCode resp = StatusOK /\
        receipt_for lib env (rc_reads (Body resp)) (snd r) e.
Proof.
  cbv zeta.
  destruct (interactWithSeller_parts lib env s)
    as (o1 & s1 & lp & _ & _ & Hlp & Hallp & Hcase).
  cbn [probing_state trace] in Hlp. rewrite Forall_forall in Hallp.
  destruct o1 as [[[chunked compressed] legacy]|msg|]; [| |destruct Hcase].
  2:{ rewrite Hcase. cbn [snd contact_exit trace]. rewrite Hlp. norm_trace.
      eexists. split; [reflexivity|]. intros e Hin He. exfalso.
      cbn [In] in Hin. destruct Hin as [<-|[<-|[<-|Hin]]]; try discriminate He.
      apply in_app_or in Hin. destruct Hin as [Hin|[<-|[<-|[]]]];
        try discriminate He.
      rewrite (probe_not_receipt e (Hallp e Hin)) in He. discriminate He. }
  destruct Hcase as (_ & o2 & s2 & lt & _ & _ & Hlt & Hallt & Hcase).
  rewrite Forall_forall in Hallt.
  destruct o2 as [t|msg|]; [| |destruct Hcase].
  2:{ rewrite Hcase. cbn [snd contact_exit trace]. rewrite Hlt, Hlp.
      norm_trace. eexists. split; [reflexivity|]. intros e Hin He. exfalso.
      cbn [In] in Hin. destruct Hin as [<-|[<-|[<-|Hin]]]; try discriminate He.
      apply in_app_or in Hin. destruct Hin as [Hin|Hin].
      { rewrite (probe_not_receipt e (Hallp e Hin)) in He. discriminate He. }
      apply in_app_or in Hin. destruct Hin as [Hin|[<-|[<-|[]]]];
        try discriminate He.
      rewrite (transmission_not_receipt _ _ _ e (Hallt e Hin)) in He.
      discriminate He. }
  destruct Hcase as [Htr Hr]. rewrite Hr.
  destruct (receiveEncryptedResult_receipts lib env (fst t) (snd t) s2)
    as (lr & Hlr & Hcase).
  cbn [snd contact_exit trace act]. rewrite Hlr, Hlt, Hlp. norm_trace.
  eexists. split; [reflexivity|]. intros e Hin He.
  cbn [In] in Hin. destruct Hin as [<-|[<-|[<-|Hin]]]; try discriminate He.
  apply in_app_or in Hin. destruct Hin as [Hin|Hin].
  { rewrite (probe_not_receipt e (Hallp e Hin)) in He. discriminate He. }
  apply in_app_or in Hin. destruct Hin as [Hin|Hin].
  { rewrite (transmission_not_receipt _ _ _ e (Hallt e Hin)) in He.
    discriminate He. }
  apply in_app_or in Hin. destruct Hin as [Hin|[<-|[<-|[]]]];
    try discriminate He.
  destruct Hcase as [Hnone|(body & Hbody & Hall)].
  { rewrite Forall_forall in Hnone. rewrite (Hnone e Hin) in He.
    discriminate He. }
  destruct t as [[body'|] [err|]]; cbn [transmitted fst snd] in *;
    try contradiction; try discriminate Hbody.
  destruct Htr as (resp & Hpost & Hok & ->). injection Hbody as <-.
  exists chunked, resp. split; [exact Hpost|]. split; [exact Hok|].
  rewrite Forall_forall in Hall. specialize (Hall e Hin).
  destruct e; try exact I; exact Hall.
Qed.

(** ** The pipes of the chunked transmission *)

Lemma defer_emit_run {A} e (body : Act A) s :
  fst (body s) <> Blocked ->
  defer_ (emit e) body s = (fst (body s), logged [e] (snd (body s))).
Proof.
  unfold defer_, emit, logged.
  destruct (body s) as [[a|msg|] s1]; cbn [fst snd]; intros H;
    [reflexivity..|now destruct H].
Qed.

Lemma steps_bind_with {A B} R P {R_pre : PreOrder R} (Qa : A -> Prop)
    (m : Act A) (k : A -> Act B) :
  steps R P m -> returns Qa m -> (forall a, Qa a -> steps R P (k a)) ->
  steps R P (bind m k).
Proof.
  intros Hm Hq Hk s. unfold bind. specialize (Hm s). specialize (Hq s).
  destruct (m s) as [[a|msg|] s1]; cbn [fst snd] in *; try assumption.
  eapply related_trans; [exact R_pre|exact Hm|].
  apply Hk. now apply Hq.
Qed.

Lemma steps_receiveAssistiveDownloadTickets_from lib env kind compressed resp :
  env_post env kind = inr resp -> StatusCode resp = StatusOK ->
  steps (fun _ _ => True) (request_event env kind compressed)
    (receiveAssistiveDownloadTickets lib resp).
Proof.
  intros Hpost Hok. unfold receiveAssistiveDownloadTickets.
  destruct (String.eqb_spec (AssistHeader resp) "") as [He|Hne]; unfold log.
  - apply steps_emit; [exact logs_pre|exact I].
  - steps_go ltac:(first [ exact logs_pre
                         | exact I
                         | apply steps_mustGetSellerId; exact logs_pre
                         | apply steps_newTickets_ev;
                           [ exact logs_pre
                           | intros; exact I
                           | intros; exists resp; repeat split; assumption ] ]).
Qed.

Lemma steps_post_request lib env kind compressed
    (k : option Response * option error ->
         Act (option ReadCloser * option error)) :
  (forall resp,
     env_post env kind = inr resp -> StatusCode resp = StatusOK ->
     steps (fun _ _ => True) (request_event env kind compressed)
       (k (Some resp, None))) ->
  (forall err,
     steps (fun _ _ => True) (request_event env kind compressed)
       (k (None, Some err))) ->
  logs (request_event env kind compressed)
    (r <- postToSeller lib env kind (FormDataContentType env kind) compressed ;;
     k r).
Proof.
  intros Hok Herr. unfold logs.
  eapply steps_bind_with; [exact logs_pre| |apply returns_postToSeller|].
  - apply steps_postToSeller; [exact logs_pre| |exact I].
    intros url. now split.
  - intros [[resp|] [err|]] H; try contradiction.
    + now apply Hok.
    + apply Herr.
Qed.

Lemma returns_post_request {B} lib env kind compressed (Q : B -> Prop)
    (k : option Response * option error -> Act B) :
  (forall r, returns Q (k r)) ->
  returns Q
    (r <- postToSeller lib env kind (FormDataContentType env kind) compressed ;;
     k r).
Proof.
  intros Hk s b. unfold bind.
  destruct (postToSeller lib env kind (FormDataContentType env kind)
              compressed s) as [[r|msg|] s1]; cbn [fst snd];
    try discriminate.
  apply Hk.
Qed.

Lemma returns_requestMissingChunks_error lib env si legacy compressed :
  returns (request_error "Error sending work sync data to seller: ")
    (requestMissingChunks lib env si legacy compressed).
Proof.
  unfold requestMissingChunks. apply returns_defer.
  apply returns_bind; intros _. apply returns_post_request.
  intros [r [e|]]; cbn [fst snd].
  - apply returns_ret. intros x' err' [= <- <-]. split; [reflexivity|].
    cbn. now destruct e.
  - intros s0 a. unfold bind.
    destruct (deref r s0) as [[resp|msg|] s1]; cbn [fst snd];
      try discriminate.
    destruct (receiveAssistiveDownloadTickets lib resp s1)
      as [[u|msg|] s2]; cbn [fst snd]; try discriminate.
    unfold ret. cbn [fst]. intros [= <-] x' err'. discriminate.
Qed.

Lemma returns_sendMissingChunksAndReturnResult_error lib env w compressed si :
  returns (request_error "Error sending work chunk data to seller: ")
    (sendMissingChunksAndReturnResult lib env w compressed si).
Proof.
  unfold sendMissingChunksAndReturnResult. apply returns_defer.
  apply returns_bind; intros _. apply returns_post_request.
  intros [r [e|]]; cbn [fst snd].
  - apply returns_ret. intros x' err' [= <- <-]. split; [reflexivity|].
    cbn. now destruct e.
  - intros s0 a. unfold bind.
    destruct (deref r s0) as [[resp|msg|] s1]; cbn [fst snd];
      try discriminate.
    unfold ret. cbn [fst]. intros [= <-] x' err'. discriminate.
Qed.

(** X26.  The two requests of the chunked transmission and their pipes.
    [requestMissingChunks] and [sendMissingChunksAndReturnResult] start
    their producer first and close the read end of the pipe last, in
    every run, whether the request succeeded or not.  In between they make
    their one kind of request, compressed as asked; only the first one
    takes tickets, and only from an answer with status 200 and a header of
    tickets.  An error they return comes without a body and names the
    request that failed. *)
Theorem chunk_requests_pipe lib env syncinfo legacy compressed wishList s :
  (exists l,
     trace (snd (requestMissingChunks lib env syncinfo legacy compressed s)) =
       trace s ++
       EvGo (GoSyncInfoProducer syncinfo legacy compressed)
       :: l ++ [EvPipeReaderClose] /\
     Forall (request_event env PostSyncInfo compressed) l) /\
  (forall x err,
     fst (requestMissingChunks lib env syncinfo legacy compressed s) =
       Returned (x, Some err) ->
     x = None /\
     prefix "Error sending work sync data to seller: " err = true) /\
  (exists l,
     trace (snd (sendMissingChunksAndReturnResult lib env wishList compressed
                   syncinfo s)) =
       trace s ++
       EvGo (GoChunkProducer syncinfo compressed wishList)
       :: l ++ [EvPipeReaderClose] /\
     Forall (fun e => request_event env PostChunkData compressed e /\
                      is_new_ticket e = false) l) /\
  (forall x err,
     fst (sendMissingChunksAndReturnResult lib env wishList compressed
            syncinfo s) = Returned (x, Some err) ->
     x = None /\
     prefix "Error sending work chunk data to seller: " err = true).
Proof.
  split; [|split; [|split]].
  - unfold requestMissingChunks. rewrite defer_emit_run.
    2:{ match goal with
        | |- fst (?m ?st) <> Blocked => generalize st; change (ends m)
        end.
        unfold receiveAssistiveDownloadTickets.
        ends_go ltac:(first [ apply ends_postToSeller
                            | apply ends_mustGetSellerId
                            | apply ends_newTickets ]). }
    match goal with
    | |- context [bind (emit ?e) ?k s] =>
        destruct (@starts_emit _ (request_event env PostSyncInfo compressed)
                    e k) with (s := s) as (l & Hl & Hall)
    end.
    { apply steps_post_request.
      - intros resp Hpost Hok.
        change (steps (fun _ _ => True)
                  (request_event env PostSyncInfo compressed)
                  (receiveAssistiveDownloadTickets lib resp ;;
                   ret (Some (Body resp), @None error))).
        steps_go ltac:(first
          [ exact logs_pre
          | eapply steps_receiveAssistiveDownloadTickets_from; eassumption ]).
      - intros err. cbn [fst snd]. apply steps_ret. exact logs_pre. }
    exists l. cbn [snd logged trace]. rewrite Hl. norm_trace.
    split; [reflexivity|exact Hall].
  - intros x err H.
    exact (returns_requestMissingChunks_error lib env syncinfo legacy
             compressed s _ H x err eq_refl).
  - unfold sendMissingChunksAndReturnResult. rewrite defer_emit_run.
    2:{ match goal with
        | |- fst (?m ?st) <> Blocked => generalize st; change (ends m)
        end.
        ends_go ltac:(apply ends_postToSeller). }
    match goal with
    | |- context [bind (emit ?ev) ?k s] =>
        destruct (@starts_emit _
                    (fun e => request_event env PostChunkData compressed e /\
                              is_new_ticket e = false)
                    ev k) with (s := s) as (l & Hl & Hall)
    end.
    { unfold logs.
      steps_go ltac:(first [ exact logs_pre
                           | apply steps_postToSeller;
                             first [ exact logs_pre
                                   | intros; now cbn ] ]). }
    exists l. cbn [snd logged trace]. rewrite Hl. norm_trace.
    split; [reflexivity|exact Hall].
  - intros x err H.
    exact (returns_sendMissingChunksAndReturnResult_error lib env wishList
             compressed syncinfo s _ H x err eq_refl).
Qed.
